(** * A model of [server.ts]

    The server keeps three collections (users, services, team members) in an
    embedded relational store, prepares the schema and the default rows when
    it starts, and answers JSON requests with one statement each.  This file
    embeds the start-up sequence and the request handlers of [server.ts] as
    functions over an explicit store, and proves the properties the
    specification states about them.

    What belongs to the store rather than to [server.ts] is modelled in
    [Module Schema] and [Module Sql]: names compared without regard to
    case, rows in rowid order, AUTOINCREMENT rowids, NULL, the UNIQUE
    constraint on [users.username], the binding of the arguments of a
    statement to its parameters, and statements that may throw.  What
    belongs to the web framework is the answer it gives when an exception
    leaves a handler. *)

From Stdlib Require Import ZArith Lia Ascii String DecimalString DecimalPos DecimalZ Sorted.
From stdpp Require Import base option list strings gmap.

Local Open Scope string_scope.
Set Warnings "-register-all".

(** ** Values *)

(** A JSON number, by what the program can tell of it: whether it is zero
    (for [if (...)] and [||]), and the text the store turns it into when it
    meets a TEXT column, which is never empty. *)
Record number := { is_zero : bool; text_first : Ascii.ascii; text_rest : string }.

Definition number_text (n : number) : string := String (text_first n) (text_rest n).

(** A field of [req.body] as the handlers read it after destructuring:
    any JSON value, or absent ([undefined]). *)
Inductive value :=
| VUndefined
| VNull
| VBool (b : bool)
| VNum (n : number)
| VStr (s : string)
| VArr (items : list value)
| VObj (fields : list (string * value)).

(** JavaScript truthiness, the test behind [if (password)] and [role || ...]. *)
Definition truthy (v : value) : bool :=
  match v with
  | VUndefined | VNull => false
  | VBool b => b
  | VNum n => negb (is_zero n)
  | VStr s => negb (String.eqb s "")
  | VArr _ | VObj _ => true
  end.

(** [a || b] on request fields. *)
Definition js_or (a b : value) : value := if truthy a then a else b.

(** What is handed to [res.json]. *)
Inductive json :=
| JUndefined
| JNull
| JBool (b : bool)
| JNum (n : Z)
| JReal (n : number)
| JStr (s : string)
| JArr (items : list json)
| JObj (fields : list (string * json)).

(** A request field put into a response as it came. *)
Fixpoint json_of_value (v : value) : json :=
  match v with
  | VUndefined => JUndefined
  | VNull => JNull
  | VBool b => JBool b
  | VNum n => JReal n
  | VStr s => JStr s
  | VArr items => JArr (map json_of_value items)
  | VObj fields => JObj (map (fun kv => (fst kv, json_of_value (snd kv))) fields)
  end.

Definition keys (j : json) : list string :=
  match j with
  | JObj fields => map fst fields
  | _ => []
  end.

(** A thrown error: [error.code], which only the errors of the store
    itself have, and [error.message]. *)
Record error := { code : option string; message : string }.

Inductive result (A : Type) :=
| Ok (a : A)
| Throw (e : error).
Arguments Ok {A} a.
Arguments Throw {A} e.

(** Kinds of request fields: a string, [null] or nothing; those and
    numbers, which are what the store can bind; and all but arrays and
    objects. *)
Definition textual (v : value) : bool :=
  match v with
  | VUndefined | VNull | VStr _ => true
  | _ => false
  end.

Definition plain (v : value) : bool :=
  match v with
  | VUndefined | VNull | VNum _ | VStr _ => true
  | _ => false
  end.

Definition scalar (v : value) : bool :=
  match v with
  | VArr _ | VObj _ => false
  | _ => true
  end.

(** ** The schema: tables and their columns *)

Module Schema.

(** One line of [PRAGMA table_info]. *)
Record column := {
  name : string;
  type : string;
  dflt_value : option string;
  pk : bool;
  unique : bool
}.

Definition col (n t : string) : column :=
  {| name := n; type := t; dflt_value := None; pk := false; unique := false |}.

Definition id_column : column :=
  {| name := "id"; type := "INTEGER"; dflt_value := None; pk := true; unique := false |}.

Definition role_column : column :=
  {| name := "role"; type := "TEXT"; dflt_value := Some "'editor'";
     pk := false; unique := false |}.

Definition username_column : column :=
  {| name := "username"; type := "TEXT"; dflt_value := None;
     pk := false; unique := true |}.

Definition file_url_column : column := col "file_url" "TEXT".
Definition icon_column : column := col "icon" "TEXT".

Definition users_columns : list column :=
  [id_column; username_column; col "password" "TEXT"; col "name" "TEXT"; role_column].

Definition services_columns : list column :=
  [id_column; col "title" "TEXT"; col "description" "TEXT"; col "icon" "TEXT";
   file_url_column].

Definition team_columns : list column :=
  [id_column; col "name" "TEXT"; col "title" "TEXT"; col "image" "TEXT"; icon_column].

(** The columns of [sqlite_sequence], the table the store keeps for
    AUTOINCREMENT. *)
Definition sequence_columns : list column := [col "name" ""; col "seq" ""].

(** The store compares the names of tables and of columns without regard
    to the case of the letters A to Z. *)
Definition lower_char (c : Ascii.ascii) : Ascii.ascii :=
  let n := nat_of_ascii c in
  if (65 <=? n)%nat && (n <=? 90)%nat then ascii_of_nat (n + 32) else c.

Fixpoint lower (s : string) : string :=
  match s with
  | EmptyString => EmptyString
  | String c s => String (lower_char c) (lower s)
  end.

Definition same_name (a b : string) : bool := String.eqb (lower a) (lower b).

(** A table: its name as it was created, and its columns in order. *)
Record table_def := { tbl_name : string; columns : list column }.

(** The tables of the data file, in the order of their creation. *)
Abbreviation schema := (list table_def).

(** What start-up has done so far: the schema, and the errors it has
    written with [console.error]. *)
Record state := { tables : schema; errors : list error }.

Definition find_table (t : string) (s : schema) : option table_def :=
  find (fun d => same_name (tbl_name d) t) s.

Definition sequence_table : table_def :=
  {| tbl_name := "sqlite_sequence"; columns := sequence_columns |}.

(** [CREATE TABLE IF NOT EXISTS t (id INTEGER PRIMARY KEY AUTOINCREMENT, ...)]:
    nothing when a table of that name exists; otherwise the table is made,
    and with it [sqlite_sequence] when the file has none yet. *)
Definition create_table_if_not_exists (t : string) (cols : list column)
    (s : schema) : schema :=
  match find_table t s with
  | Some _ => s
  | None =>
      let s' := (s ++ [ {| tbl_name := t; columns := cols |} ])%list in
      match find_table "sqlite_sequence" s' with
      | Some _ => s'
      | None => (s' ++ [sequence_table])%list
      end
  end.

(** [PRAGMA table_info(t)]: no line for a table that does not exist. *)
Definition table_info (t : string) (s : schema) : list column :=
  match find_table t s with
  | Some d => columns d
  | None => []
  end.

(** [tableInfo.some(col => col.name === n)]: an exact comparison. *)
Definition has_column (n : string) (cols : list column) : bool :=
  existsb (fun c => String.eqb (name c) n) cols.

(** The store's own test for a column of that name. *)
Definition has_column_nocase (n : string) (cols : list column) : bool :=
  existsb (fun c => same_name (name c) n) cols.

Fixpoint add_column (t : string) (c : column) (s : schema) : schema :=
  match s with
  | [] => []
  | d :: s' =>
      if same_name (tbl_name d) t
      then {| tbl_name := tbl_name d; columns := (columns d ++ [c])%list |} :: s'
      else d :: add_column t c s'
  end.

Definition duplicate_column (c : column) : error :=
  {| code := Some "SQLITE_ERROR"; message := "duplicate column name: " +:+ name c |}.

(** [ALTER TABLE t ADD COLUMN c]: the column goes last; the statement
    throws when the table is missing or already has a column of that name. *)
Definition alter_table_add_column (t : string) (c : column) (s : schema)
    : result schema :=
  match find_table t s with
  | None => Throw {| code := Some "SQLITE_ERROR"; message := "no such table: " +:+ t |}
  | Some d =>
      if has_column_nocase (name c) (columns d)
      then Throw (duplicate_column c)
      else Ok (add_column t c s)
  end.

(** One migration block: [try { table_info; some(...); if (!has) ALTER }
    catch (error) { console.error(...) }]. *)
Definition migrate (t : string) (c : column) (st : state) : state :=
  let tableInfo := table_info t (tables st) in
  if has_column (name c) tableInfo then st
  else match alter_table_add_column t c (tables st) with
       | Ok s' => {| tables := s'; errors := errors st |}
       | Throw e => {| tables := tables st; errors := (errors st ++ [e])%list |}
       end.

Definition create (t : string) (cols : list column) (st : state) : state :=
  {| tables := create_table_if_not_exists t cols (tables st); errors := errors st |}.

(** The schema part of [startServer], in the order of the source. *)
Definition setup_from (st : state) : state :=
  let st := create "users" users_columns st in
  let st := migrate "users" role_column st in
  let st := create "services" services_columns st in
  let st := migrate "services" file_url_column st in
  let st := create "team" team_columns st in
  migrate "team" icon_column st.

Definition setup (s : schema) : state :=
  setup_from {| tables := s; errors := [] |}.





(** The column the migration of [t] looks for. *)
Definition later_column (t : string) : option column :=
  if same_name t "users" then Some role_column
  else if same_name t "services" then Some file_url_column
  else if same_name t "team" then Some icon_column
  else None.

(** What the migration of [t] adds to a table that has the columns [cols]. *)
Definition missing_columns (t : string) (cols : list column) : list column :=
  match later_column t with
  | Some c => if has_column_nocase (name c) cols then [] else [c]
  | None => []
  end.

(** The table a start-up makes under the name [t] when the file [s] has
    none. *)
Definition created_table (t : string) (s : schema) : option table_def :=
  if same_name t "users" then Some {| tbl_name := "users"; columns := users_columns |}
  else if same_name t "services"
       then Some {| tbl_name := "services"; columns := services_columns |}
  else if same_name t "team" then Some {| tbl_name := "team"; columns := team_columns |}
  else if same_name t "sqlite_sequence"
       then match find_table "users" s, find_table "services" s, find_table "team" s with
            | Some _, Some _, Some _ => None
            | _, _, _ => Some sequence_table
            end
  else None.



(** The table [add_column] changes, and what it becomes. *)
Definition grow (c : column) (d : table_def) : table_def :=
  {| tbl_name := tbl_name d; columns := (columns d ++ [c])%list |}.

(** What the table becomes that a migration finds. *)
Definition migrated (c : column) (d : table_def) : table_def :=
  if has_column_nocase (name c) (columns d) then d else grow c d.

(** One [CREATE TABLE IF NOT EXISTS] with its migration. *)
Definition ensure (t : string) (cols : list column) (c : column) (st : state) : state :=
  migrate t c (create t cols st).

End Schema.

(** ** The store: rows, rowids, NULL, UNIQUE *)

Module Sql.

(** The value of a TEXT column: NULL or a text. *)
Abbreviation sqlval := (option string).

(** What a plain request field is as a parameter of a statement on TEXT
    columns: [undefined] and [null] are NULL, a number is its text. *)
Definition plain_text (v : value) : sqlval :=
  match v with
  | VStr s => Some s
  | VNum n => Some (number_text n)
  | _ => None
  end.

(** The errors of the binder; they carry no [code]. *)
Definition type_error : error :=
  {| code := None;
     message := "SQLite3 can only bind numbers, strings, bigints, buffers, and null" |}.

Definition too_many : error :=
  {| code := None; message := "Too many parameter values were provided" |}.

Definition too_few : error :=
  {| code := None; message := "Too few parameter values were provided" |}.

Definition two_objects : error :=
  {| code := None;
     message := "You cannot specify named parameters in two different objects" |}.

(** One value for one [?]: a boolean, an array or an object is refused. *)
Definition bind_value (v : value) : result sqlval :=
  if plain v then Ok (plain_text v) else Throw type_error.

(** The value goes to the next [?], if the statement has one left;
    [count] parameters are bound so far. *)
Definition bind_next (params count : nat) (v : value) : result sqlval :=
  match bind_value v with
  | Throw e => Throw e
  | Ok x => if (params <? count + 1)%nat then Throw too_many else Ok x
  end.

(** An argument that is an array gives each of its items to the next [?]. *)
Fixpoint bind_array (params count : nat) (items : list value) : result (list sqlval) :=
  match items with
  | [] => Ok []
  | v :: items =>
      match bind_next params count v with
      | Throw e => Throw e
      | Ok x =>
          match bind_array params (S count) items with
          | Throw e => Throw e
          | Ok xs => Ok (x :: xs)
          end
      end
  end.

(** The arguments of [.run(...)] and [.get(...)], from left to right: an
    array is spread, an object is taken for the named parameters (of
    which these statements have none) and only one is allowed, anything
    else goes to the next [?]. *)
Fixpoint bind_args (params count : nat) (bound_object : bool) (args : list value)
    : result (list sqlval) :=
  match args with
  | [] => Ok []
  | VArr items :: args =>
      match bind_array params count items with
      | Throw e => Throw e
      | Ok xs =>
          match bind_args params (count + length xs) bound_object args with
          | Throw e => Throw e
          | Ok ys => Ok (xs ++ ys)%list
          end
      end
  | VObj _ :: args =>
      if bound_object then Throw two_objects
      else bind_args params count true args
  | v :: args =>
      match bind_next params count v with
      | Throw e => Throw e
      | Ok x =>
          match bind_args params (S count) bound_object args with
          | Throw e => Throw e
          | Ok ys => Ok (x :: ys)
          end
      end
  end.

(** Binding for a statement with [params] question marks: first the
    fields of the body in [args], then [route] parameters of the route,
    which are strings; in the end every [?] must have its value.  The
    result is the values of the leading question marks, without those of
    the route. *)
Definition bind (params : nat) (args : list value) (route : nat)
    : result (list sqlval) :=
  match bind_args params 0 false args with
  | Throw e => Throw e
  | Ok xs =>
      let count := (length xs + route)%nat in
      if (params <? count)%nat then Throw too_many
      else if (count <? params)%nat then Throw too_few
      else Ok xs
  end.

(** The value bound to the [i]-th question mark (from 0). *)
Definition param (vals : list sqlval) (i : nat) : sqlval := nth i vals None.

(** The [=] of a WHERE clause: NULL equals nothing, not even NULL. *)
Definition sql_eq (a b : sqlval) : bool :=
  match a, b with
  | Some x, Some y => String.eqb x y
  | _, _ => false
  end.

Definition json_of_sql (v : sqlval) : json :=
  match v with
  | Some s => JStr s
  | None => JNull
  end.

(** Rows carry their [id INTEGER PRIMARY KEY]. *)
Class Row (R : Type) := rowid : R -> Z.

(** A table: its rows in rowid order, and the largest rowid it ever gave
    out (the [sqlite_sequence] entry kept for AUTOINCREMENT). *)
Record table (R : Type) := { rows : list R; seq : Z }.
Arguments rows {R} t.
Arguments seq {R} t.

Definition empty_table {R : Type} : table R := {| rows := []; seq := 0 |}.

Definition max_rowid {R : Type} `{Row R} (l : list R) : Z :=
  foldr (fun r m => Z.max (rowid r) m) 0%Z l.

Definition next_rowid {R : Type} `{Row R} (t : table R) : Z :=
  (Z.max (seq t) (max_rowid (rows t)) + 1)%Z.

(** [INSERT] of a row whose id is left to the store; gives [lastInsertRowid]. *)
Definition insert {R : Type} `{Row R} (mk : Z -> R) (t : table R) : Z * table R :=
  let i := next_rowid t in
  (i, {| rows := (rows t ++ [mk i])%list; seq := i |}).

(** The [:id] of the route as the store reads it when it compares it with
    the integer column [id]: [None] when the text is not an integer, and
    then it equals no id. *)
Definition id_matches (p : option Z) (i : Z) : bool :=
  match p with
  | Some z => Z.eqb z i
  | None => false
  end.

(** [UPDATE ... SET ... WHERE c]. *)
Definition update_where {R : Type} (c : R -> bool) (f : R -> R) (t : table R)
    : table R :=
  {| rows := map (fun r => if c r then f r else r) (rows t); seq := seq t |}.

(** [DELETE FROM ... WHERE c]. *)
Definition delete_where {R : Type} (c : R -> bool) (t : table R) : table R :=
  {| rows := List.filter (fun r => negb (c r)) (rows t); seq := seq t |}.

(** [SELECT count( * )]. *)
Definition count {R : Type} (t : table R) : Z := Z.of_nat (length (rows t)).

(** A failure of the storage engine that has nothing to do with the
    statement (the file cannot be written, the disk is full): when present,
    the statement throws it and changes nothing. *)
Definition run {A : Type} (io : option error) (r : result A) : result A :=
  match io with
  | Some e => Throw e
  | None => r
  end.

(** A statement with arguments: they are bound first, and only then does
    the store run it. *)
Definition statement {A : Type} (io : option error) (bound : result (list sqlval))
    (exec : list sqlval -> result A) : result A :=
  match bound with
  | Throw e => Throw e
  | Ok vals => run io (exec vals)
  end.

End Sql.
Import Sql.

(** ** The three collections *)

(** The rows of the three tables, with the columns their [CREATE TABLE]
    statements declare: the id, and four TEXT columns each. *)

Record user := {
  u_id : Z;
  username : sqlval;
  password : sqlval;
  name : sqlval;
  role : sqlval
}.

Record service := {
  s_id : Z;
  title : sqlval;
  description : sqlval;
  icon : sqlval;
  file_url : sqlval
}.

Record member := {
  m_id : Z;
  m_name : sqlval;
  m_title : sqlval;
  image : sqlval;
  m_icon : sqlval
}.

#[export] Instance user_row : Row user := u_id.
#[export] Instance service_row : Row service := s_id.
#[export] Instance member_row : Row member := m_id.

Record db := {
  users : table user;
  services : table service;
  team : table member
}.

Definition empty_db : db :=
  {| users := empty_table; services := empty_table; team := empty_table |}.

Definition set_users (d : db) (t : table user) : db :=
  {| users := t; services := services d; team := team d |}.

Definition set_services (d : db) (t : table service) : db :=
  {| users := users d; services := t; team := team d |}.

Definition set_team (d : db) (t : table member) : db :=
  {| users := users d; services := services d; team := t |}.

(** *** [username TEXT UNIQUE] *)

Definition unique_violation : error :=
  {| code := Some "SQLITE_CONSTRAINT_UNIQUE";
     message := "UNIQUE constraint failed: users.username" |}.

(** Some row other than the ones [self] selects already has username [un]. *)
Definition taken (un : sqlval) (self : user -> bool) (l : list user) : bool :=
  existsb (fun r => negb (self r) && sql_eq (username r) un) l.

(** [INSERT INTO users (username, password, name, role) VALUES (?, ?, ?, ?)]. *)
Definition insert_user (un pw nm rl : sqlval) (t : table user)
    : result (Z * table user) :=
  if taken un (fun _ => false) (rows t) then Throw unique_violation
  else Ok (insert (fun i => {| u_id := i; username := un; password := pw;
                               name := nm; role := rl |}) t).

(** [UPDATE users SET username = ?, ... WHERE id = ?]: the constraint is
    checked only for a row that is really updated. *)
Definition update_user (id : option Z) (un : sqlval) (f : user -> user)
    (t : table user) : result (table user) :=
  let self := fun r => id_matches id (u_id r) in
  if existsb self (rows t) && taken un self (rows t) then Throw unique_violation
  else Ok (update_where self f t).

(** ** Responses *)

(** What a handler does with a request: it sends a response, or an
    exception leaves it, and then the framework answers in its place (see
    [express] below). *)
Inductive outcome :=
| Responded (status : nat) (body : json)
| Threw (e : error).

Definition success : json := JObj [("success", JBool true)].

Definition failure (msg : string) : json :=
  JObj [("success", JBool false); ("message", JStr msg)].

(** What the client gets.  When an exception leaves a handler, the
    framework answers in its place: status 500 and its page for the
    error, since none of these errors carries a status of its own. *)
Inductive payload :=
| Json (j : json)
| ErrorPage (e : error).

Definition express (o : outcome) : nat * payload :=
  match o with
  | Responded status j => (status, Json j)
  | Threw e => (500, ErrorPage e)
  end.

(** [req.body] of a request that has one, as the parsers of JSON and of
    forms leave it: an object; and the fields the handlers take out of
    it. *)
Abbreviation body := (gmap string value).

Definition field (b : body) (k : string) : value := default VUndefined (b !! k).

(** ** Seeding at start-up *)

Definition is_admin (r : user) : bool := sql_eq (username r) (Some "admin").

Definition set_role (rl : sqlval) (r : user) : user :=
  {| u_id := u_id r; username := username r; password := password r;
     name := name r; role := rl |}.

(** [// Seed user if not exists] *)
Definition seed_admin (d : db) : result db :=
  let checkUser := find is_admin (rows (users d)) in
  match checkUser with
  | None =>
      match insert_user (Some "admin") (Some "123456") (Some "Administrator")
                        (Some "admin") (users d) with
      | Ok (_, t) => Ok (set_users d t)
      | Throw e => Throw e
      end
  | Some _ => Ok (set_users d (update_where is_admin (set_role (Some "admin")) (users d)))
  end.

(** An entry of [initialServices]. *)
Record service_seed := { seed_icon : string; seed_title : string; seed_description : string }.

Definition initialServices : list service_seed := [
  {| seed_icon := "Leaf"; seed_title := "Môi trường & Năng lượng";
     seed_description := "Tư vấn tuân thủ quy định môi trường, đánh giá tác động và phát triển dự án năng lượng tái tạo." |};
  {| seed_icon := "Globe"; seed_title := "Du lịch & Khách sạn";
     seed_description := "Hỗ trợ pháp lý toàn diện cho các dự án nghỉ dưỡng, khách sạn và kinh doanh lữ hành quốc tế." |};
  {| seed_icon := "Building2"; seed_title := "Bất động sản & Xây dựng";
     seed_description := "Tư vấn pháp lý dự án, giao dịch mua bán, sáp nhập và giải quyết tranh chấp xây dựng." |};
  {| seed_icon := "Briefcase"; seed_title := "Tư vấn Doanh nghiệp";
     seed_description := "Thành lập, tái cấu trúc, M&A và quản trị nội bộ doanh nghiệp theo chuẩn mực quốc tế." |};
  {| seed_icon := "Gavel"; seed_title := "Tranh tụng & Giải quyết";
     seed_description := "Đại diện tham gia tố tụng tại Tòa án và Trọng tài thương mại với chiến lược hiệu quả." |};
  {| seed_icon := "Scale"; seed_title := "Sở hữu trí tuệ";
     seed_description := "Đăng ký bảo hộ, li-xăng và xử lý vi phạm quyền sở hữu trí tuệ cho thương hiệu." |}
].

(** [INSERT INTO services (title, description, icon) VALUES (?, ?, ?)]:
    [file_url] is not named and stays NULL. *)
Definition seeded_service (s : service_seed) (i : Z) : service :=
  {| s_id := i; title := Some (seed_title s); description := Some (seed_description s);
     icon := Some (seed_icon s); file_url := None |}.

Definition insertService (s : service_seed) (t : table service) : table service :=
  snd (insert (seeded_service s) t).

(** [// Seed Services if empty] *)
Definition seed_services (d : db) : db :=
  if Z.eqb (count (services d)) 0
  then set_services d (foldl (fun t s => insertService s t) (services d) initialServices)
  else d.

(** An entry of [initialTeam]. *)
Record team_seed := { seed_name : string; seed_job : string; seed_image : string }.

Definition initialTeam : list team_seed := [
  {| seed_name := "LS. Lê Văn Tài"; seed_job := "Giám đốc điều hành";
     seed_image := "https://images.unsplash.com/photo-1560250097-0b93528c311a?q=80&w=1974&auto=format&fit=crop" |};
  {| seed_name := "Mrs. Phạm Thị Mỹ Linh"; seed_job := "Trưởng ban Quan hệ khách hàng";
     seed_image := "https://images.unsplash.com/photo-1573496359142-b8d87734a5a2?q=80&w=1976&auto=format&fit=crop" |};
  {| seed_name := "LS. Lê Văn C"; seed_job := "Luật sư cao cấp";
     seed_image := "https://images.unsplash.com/photo-1519085360753-af0119f7cbe7?q=80&w=1974&auto=format&fit=crop" |}
].

(** [INSERT INTO team (name, title, image) VALUES (?, ?, ?)]. *)
Definition insertTeam (m : team_seed) (t : table member) : table member :=
  snd (insert (fun i => {| m_id := i; m_name := Some (seed_name m);
                           m_title := Some (seed_job m);
                           image := Some (seed_image m); m_icon := None |}) t).

(** [// Seed Team if empty] *)
Definition seed_team (d : db) : db :=
  if Z.eqb (count (team d)) 0
  then set_team d (foldl (fun t m => insertTeam m t) (team d) initialTeam)
  else d.

(** The seeding part of [startServer], in the order of the source. *)
Definition seed (d : db) : result db :=
  match seed_admin d with
  | Ok d1 => Ok (seed_team (seed_services d1))
  | Throw e => Throw e
  end.

(** ** Request handlers *)

Definition public_user (u : user) : json :=
  JObj [("id", JNum (u_id u)); ("name", json_of_sql (name u));
        ("username", json_of_sql (username u)); ("role", json_of_sql (role u))].

(** [SELECT * FROM users WHERE username = ? AND password = ?]. *)
Definition credentials (un pw : sqlval) (u : user) : bool :=
  sql_eq (username u) un && sql_eq (password u) pw.

(** [app.post('/api/login')] *)
Definition login (io : option error) (b : body) (d : db) : db * outcome :=
  let username := field b "username" in
  let password := field b "password" in
  match statement io (bind 2 [username; password] 0)
          (fun vals => Ok (find (credentials (param vals 0) (param vals 1))
                                (rows (users d)))) with
  | Throw e => (d, Threw e)
  | Ok (Some user) =>
      (d, Responded 200 (JObj [("success", JBool true); ("user", public_user user)]))
  | Ok None => (d, Responded 401 (failure "Invalid credentials"))
  end.

(** [SELECT id, username, name, role FROM users] *)
Definition listed_user (u : user) : json :=
  JObj [("id", JNum (u_id u)); ("username", json_of_sql (username u));
        ("name", json_of_sql (name u)); ("role", json_of_sql (role u))].

(** [app.get('/api/users')] *)
Definition users_get (io : option error) (d : db) : db * outcome :=
  match run io (Ok (rows (users d))) with
  | Throw e => (d, Threw e)
  | Ok l => (d, Responded 200 (JArr (map listed_user l)))
  end.

(** The test of the [catch] blocks of the users handlers. *)
Definition is_unique_violation (e : error) : bool :=
  match code e with
  | Some c => String.eqb c "SQLITE_CONSTRAINT_UNIQUE"
  | None => false
  end.

(** [app.post('/api/users')] *)
Definition users_post (io : option error) (b : body) (d : db) : db * outcome :=
  let username := field b "username" in
  let password := field b "password" in
  let name := field b "name" in
  let role := field b "role" in
  match statement io (bind 4 [username; password; name; js_or role (VStr "editor")] 0)
          (fun vals => insert_user (param vals 0) (param vals 1) (param vals 2)
                                   (param vals 3) (users d)) with
  | Ok (lastInsertRowid, t) =>
      (set_users d t,
       Responded 200 (JObj [("id", JNum lastInsertRowid);
                            ("username", json_of_value username);
                            ("name", json_of_value name);
                            ("role", json_of_value (js_or role (VStr "editor")))]))
  | Throw e =>
      if is_unique_violation e
      then (d, Responded 400 (failure "Username already exists"))
      else (d, Responded 500 (failure "Failed to create user"))
  end.

(** [SET username = ?, password = ?, name = ?, role = ?] *)
Definition set_all (un pw nm rl : sqlval) (r : user) : user :=
  {| u_id := u_id r; username := un; password := pw; name := nm; role := rl |}.

(** [SET username = ?, name = ?, role = ?] *)
Definition set_profile (un nm rl : sqlval) (r : user) : user :=
  {| u_id := u_id r; username := un; password := password r; name := nm; role := rl |}.

(** [app.put('/api/users/:id')] *)
Definition users_put (io : option error) (id : option Z) (b : body) (d : db)
    : db * outcome :=
  let username := field b "username" in
  let password := field b "password" in
  let name := field b "name" in
  let role := field b "role" in
  let updated :=
    if truthy password
    then statement io (bind 5 [username; password; name; role] 1)
           (fun vals => update_user id (param vals 0)
                          (set_all (param vals 0) (param vals 1) (param vals 2)
                                   (param vals 3))
                          (users d))
    else statement io (bind 4 [username; name; role] 1)
           (fun vals => update_user id (param vals 0)
                          (set_profile (param vals 0) (param vals 1) (param vals 2))
                          (users d)) in
  match updated with
  | Ok t => (set_users d t, Responded 200 success)
  | Throw e =>
      if is_unique_violation e
      then (d, Responded 400 (failure "Username already exists"))
      else (d, Responded 500 (failure "Failed to update user"))
  end.

(** [app.delete('/api/users/:id')] *)
Definition users_delete (io : option error) (id : option Z) (d : db) : db * outcome :=
  match run io (Ok (delete_where (fun r => id_matches id (u_id r)) (users d))) with
  | Ok t => (set_users d t, Responded 200 success)
  | Throw _ => (d, Responded 500 (failure "Failed to delete user"))
  end.

Definition service_json (s : service) : json :=
  JObj [("id", JNum (s_id s)); ("title", json_of_sql (title s));
        ("description", json_of_sql (description s)); ("icon", json_of_sql (icon s));
        ("file_url", json_of_sql (file_url s))].

(** [app.get('/api/services')] *)
Definition services_get (io : option error) (d : db) : db * outcome :=
  match run io (Ok (rows (services d))) with
  | Throw e => (d, Threw e)
  | Ok l => (d, Responded 200 (JArr (map service_json l)))
  end.

(** [app.post('/api/services')] *)
Definition services_post (io : option error) (b : body) (d : db) : db * outcome :=
  let title := field b "title" in
  let description := field b "description" in
  let icon := field b "icon" in
  let file_url := field b "file_url" in
  match statement io (bind 4 [title; description; icon; file_url] 0)
          (fun vals => Ok (insert (fun i => {| s_id := i; title := param vals 0;
                                               description := param vals 1;
                                               icon := param vals 2;
                                               file_url := param vals 3 |})
                                  (services d))) with
  | Throw e => (d, Threw e)
  | Ok (lastInsertRowid, t) =>
      (set_services d t,
       Responded 200 (JObj [("id", JNum lastInsertRowid);
                            ("title", json_of_value title);
                            ("description", json_of_value description);
                            ("icon", json_of_value icon);
                            ("file_url", json_of_value file_url)]))
  end.

(** [app.put('/api/services/:id')] *)
Definition services_put (io : option error) (id : option Z) (b : body) (d : db)
    : db * outcome :=
  let title := field b "title" in
  let description := field b "description" in
  let icon := field b "icon" in
  let file_url := field b "file_url" in
  match statement io (bind 5 [title; description; icon; file_url] 1)
          (fun vals => Ok (update_where (fun r => id_matches id (s_id r))
                             (fun r => {| s_id := s_id r; title := param vals 0;
                                          description := param vals 1;
                                          icon := param vals 2;
                                          file_url := param vals 3 |})
                             (services d))) with
  | Throw e => (d, Threw e)
  | Ok t => (set_services d t, Responded 200 success)
  end.

(** [app.delete('/api/services/:id')] *)
Definition services_delete (io : option error) (id : option Z) (d : db)
    : db * outcome :=
  match run io (Ok (delete_where (fun r => id_matches id (s_id r)) (services d))) with
  | Throw e => (d, Threw e)
  | Ok t => (set_services d t, Responded 200 success)
  end.

Definition member_json (m : member) : json :=
  JObj [("id", JNum (m_id m)); ("name", json_of_sql (m_name m));
        ("title", json_of_sql (m_title m)); ("image", json_of_sql (image m));
        ("icon", json_of_sql (m_icon m))].

(** [app.get('/api/team')] *)
Definition team_get (io : option error) (d : db) : db * outcome :=
  match run io (Ok (rows (team d))) with
  | Throw e => (d, Threw e)
  | Ok l => (d, Responded 200 (JArr (map member_json l)))
  end.

(** [app.post('/api/team')] *)
Definition team_post (io : option error) (b : body) (d : db) : db * outcome :=
  let name := field b "name" in
  let title := field b "title" in
  let image := field b "image" in
  let icon := field b "icon" in
  match statement io (bind 4 [name; title; image; icon] 0)
          (fun vals => Ok (insert (fun i => {| m_id := i; m_name := param vals 0;
                                               m_title := param vals 1;
                                               image := param vals 2;
                                               m_icon := param vals 3 |})
                                  (team d))) with
  | Throw e => (d, Threw e)
  | Ok (lastInsertRowid, t) =>
      (set_team d t,
       Responded 200 (JObj [("id", JNum lastInsertRowid);
                            ("name", json_of_value name);
                            ("title", json_of_value title);
                            ("image", json_of_value image);
                            ("icon", json_of_value icon)]))
  end.

(** [app.put('/api/team/:id')] *)
Definition team_put (io : option error) (id : option Z) (b : body) (d : db)
    : db * outcome :=
  let name := field b "name" in
  let title := field b "title" in
  let image := field b "image" in
  let icon := field b "icon" in
  match statement io (bind 5 [name; title; image; icon] 1)
          (fun vals => Ok (update_where (fun r => id_matches id (m_id r))
                             (fun r => {| m_id := m_id r; m_name := param vals 0;
                                          m_title := param vals 1;
                                          image := param vals 2;
                                          m_icon := param vals 3 |})
                             (team d))) with
  | Throw e => (d, Threw e)
  | Ok t => (set_team d t, Responded 200 success)
  end.

(** [app.delete('/api/team/:id')] *)
Definition team_delete (io : option error) (id : option Z) (d : db) : db * outcome :=
  match run io (Ok (delete_where (fun r => id_matches id (m_id r)) (team d))) with
  | Throw e => (d, Threw e)
  | Ok t => (set_team d t, Responded 200 success)
  end.

(** ** Uploads *)

(** A number put next to a string with [+]: its decimal digits. *)
Definition decimal (n : Z) : string := NilZero.string_of_int (Z.to_int n).

(** What [upload.single('image')] hands to its callback: an error, nothing
    in [req.file], or the file it stored, of which only the original name
    matters here. *)
Inductive multer :=
| Failed (err : error)
| NoFile
| Stored (originalname : string).

Section Upload.

(** [path.extname] *)
Variable extname : string -> string.

(** The [filename] function of [multer.diskStorage]; [now] is [Date.now()]
    and [rnd] is [Math.round(Math.random() * 1E9)]. *)
Definition filename (now rnd : Z) (originalname : string) : string :=
  let uniqueSuffix := decimal now +:+ "-" +:+ decimal rnd in
  uniqueSuffix +:+ extname originalname.

(** [app.post('/api/upload')] *)
Definition upload (now rnd : Z) (m : multer) : outcome :=
  match m with
  | Failed err =>
      Responded 500 (JObj [("success", JBool false); ("message", JStr (message err))])
  | NoFile => Responded 400 (failure "No file uploaded")
  | Stored originalname =>
      let imageUrl := "/uploads/" +:+ filename now rnd originalname in
      Responded 200 (JObj [("success", JBool true); ("imageUrl", JStr imageUrl)])
  end.

End Upload.

Definition is_digit (a : Ascii.ascii) : bool :=
  (48 <=? nat_of_ascii a)%nat && (nat_of_ascii a <=? 57)%nat.

(** The string is a non-empty run of decimal digits. *)
Definition is_number (s : string) : bool :=
  negb (String.eqb s "") && forallb is_digit (list_ascii_of_string s).


(** ** The constraints of the users table *)

(** [id INTEGER PRIMARY KEY]: no two rows share an id. *)
Definition primary_key (d : db) : Prop := NoDup (map u_id (rows (users d))).

(** [username TEXT UNIQUE]: no two rows share a username that is not NULL. *)
Definition unique_usernames (d : db) : Prop := NoDup (omap username (rows (users d))).

(** Both constraints of the users table. *)
Definition constraints (d : db) : Prop := primary_key d /\ unique_usernames d.

(** The rows whose username is ['admin']. *)
Definition admins (d : db) : list user := List.filter is_admin (rows (users d)).

(** The request names the username and the password of [u]: both are
    texts, and equal to what is stored. *)
Definition names_credentials_of (b : body) (u : user) : Prop :=
  exists un pw,
    field b "username" = VStr un /\ field b "password" = VStr pw /\
    username u = Some un /\ password u = Some pw.

(** The row that the UPDATE of [PUT /api/users/:id] writes in place of
    [r] when the values bound to it are [vals]; [with_password] tells
    which of the two statements it is. *)
Definition put_row (with_password : bool) (vals : list sqlval) (r : user) : user :=
  if with_password
  then set_all (param vals 0) (param vals 1) (param vals 2) (param vals 3) r
  else set_profile (param vals 0) (param vals 1) (param vals 2) r.

(** The row a [PUT /api/users/:id] writes in place of [r] when its fields
    are plain. *)
Definition plain_put_row (b : body) (r : user) : user :=
  {| u_id := u_id r;
     username := plain_text (field b "username");
     password := if truthy (field b "password") then plain_text (field b "password")
                 else password r;
     name := plain_text (field b "name");
     role := plain_text (field b "role") |}.

(** The field is [null] or absent. *)
Definition nullish (v : value) : bool :=
  match v with
  | VUndefined | VNull => true
  | _ => false
  end.

(** ** Sample states and requests *)

Definition seeded_db : db :=
  match seed empty_db with
  | Ok d => d
  | Throw _ => empty_db
  end.

Definition credentials_body (un pw : string) : body :=
  <["username" := VStr un]> (<["password" := VStr pw]> ∅).

(** The row the seeding inserts into an empty users table. *)
Definition admin_row : user :=
  {| u_id := 1; username := Some "admin"; password := Some "123456";
     name := Some "Administrator"; role := Some "admin" |}.

Definition editor_row : user :=
  {| u_id := 2; username := Some "bob"; password := Some "s3cret";
     name := Some "Bob"; role := Some "editor" |}.

(** A store in which the administrator was demoted by hand. *)
Definition demoted_db : db :=
  {| users := {| rows := [set_role (Some "editor") admin_row; editor_row]; seq := 2 |};
     services := services seeded_db;
     team := team seeded_db |}.

(** The seeded store after [bob] was added. *)
Definition two_users_db : db :=
  {| users := {| rows := [admin_row; editor_row]; seq := 2 |};
     services := services seeded_db;
     team := team seeded_db |}.

Definition profile_body (un nm rl : string) : body :=
  <["username" := VStr un]> (<["name" := VStr nm]> (<["role" := VStr rl]> ∅)).

Definition io_error : error :=
  {| code := Some "SQLITE_IOERR"; message := "disk I/O error" |}.

(** ** The routes *)

(** The requests the API routes answer. *)
Inductive request :=
| PostLogin (b : body)
| GetUsers
| PostUsers (b : body)
| PutUsers (id : option Z) (b : body)
| DeleteUsers (id : option Z)
| GetServices
| PostServices (b : body)
| PutServices (id : option Z) (b : body)
| DeleteServices (id : option Z)
| GetTeam
| PostTeam (b : body)
| PutTeam (id : option Z) (b : body)
| DeleteTeam (id : option Z).

(** The routing of [// API Routes]: each request goes to its handler. *)
Definition serve (io : option error) (r : request) (d : db) : db * outcome :=
  match r with
  | PostLogin b => login io b d
  | GetUsers => users_get io d
  | PostUsers b => users_post io b d
  | PutUsers id b => users_put io id b d
  | DeleteUsers id => users_delete io id d
  | GetServices => services_get io d
  | PostServices b => services_post io b d
  | PutServices id b => services_put io id b d
  | DeleteServices id => services_delete io id d
  | GetTeam => team_get io d
  | PostTeam b => team_post io b d
  | PutTeam id b => team_put io id b d
  | DeleteTeam id => team_delete io id d
  end.

(** The answer the client gets to a request. *)
Definition respond (io : option error) (r : request) (d : db) : nat * payload :=
  express (serve io r d).2.

(** The arguments a request gives to its statement before the id of the
    route, the number of question marks of that statement, and the number
    of values the route gives. *)
Definition arguments (r : request) : list value :=
  match r with
  | PostLogin b => [field b "username"; field b "password"]
  | PostUsers b =>
      [field b "username"; field b "password"; field b "name";
       js_or (field b "role") (VStr "editor")]
  | PutUsers _ b =>
      if truthy (field b "password")
      then [field b "username"; field b "password"; field b "name"; field b "role"]
      else [field b "username"; field b "name"; field b "role"]
  | PostServices b | PutServices _ b =>
      [field b "title"; field b "description"; field b "icon"; field b "file_url"]
  | PostTeam b | PutTeam _ b =>
      [field b "name"; field b "title"; field b "image"; field b "icon"]
  | _ => []
  end.

Definition parameters (r : request) : nat :=
  match r with
  | PostLogin _ => 2
  | PostUsers _ | PostServices _ | PostTeam _ => 4
  | PutUsers _ b => if truthy (field b "password") then 5 else 4
  | PutServices _ _ | PutTeam _ _ => 5
  | DeleteUsers _ | DeleteServices _ | DeleteTeam _ => 1
  | GetUsers | GetServices | GetTeam => 0
  end.

Definition route_values (r : request) : nat :=
  match r with
  | PutUsers _ _ | PutServices _ _ | PutTeam _ _
  | DeleteUsers _ | DeleteServices _ | DeleteTeam _ => 1
  | _ => 0
  end.

(** What binding the values of a request to its statement gives. *)
Definition bound (r : request) : result (list sqlval) :=
  bind (parameters r) (arguments r) (route_values r).

(** The values of the request can be bound to its statement. *)
Definition binds (r : request) : bool :=
  match bound r with
  | Ok _ => true
  | Throw _ => false
  end.

(** Every argument of the request is a string, a number, [null] or
    absent. *)
Definition plain_fields (r : request) : bool := forallb plain (arguments r).

(** No argument of the request is an array or an object. *)
Definition scalar_fields (r : request) : bool := forallb scalar (arguments r).

(** The request fields that the answer to a creation repeats. *)
Definition echoed (r : request) : list value :=
  match r with
  | PostUsers b =>
      [field b "username"; field b "name"; js_or (field b "role") (VStr "editor")]
  | PostServices b =>
      [field b "title"; field b "description"; field b "icon"; field b "file_url"]
  | PostTeam b =>
      [field b "name"; field b "title"; field b "image"; field b "icon"]
  | _ => []
  end.

Inductive collection := Users | Services | Team.

(** The collection a request writes to, if any. *)
Definition writes (r : request) : option collection :=
  match r with
  | PostUsers _ | PutUsers _ _ | DeleteUsers _ => Some Users
  | PostServices _ | PutServices _ _ | DeleteServices _ => Some Services
  | PostTeam _ | PutTeam _ _ | DeleteTeam _ => Some Team
  | PostLogin _ | GetUsers | GetServices | GetTeam => None
  end.

(** What happens to the store over time: a request is served, with the
    failure of the store (if any) that occurs under it, or the server is
    started again and seeds. *)
Inductive event :=
| Serve (io : option error) (r : request)
| Restart.

Definition step (d : db) (e : event) : db :=
  match e with
  | Serve io r => (serve io r d).1
  | Restart =>
      match seed d with
      | Ok d' => d'
      | Throw _ => d
      end
  end.

Definition history (l : list event) (d : db) : db := foldl step d l.

(** What serving one request can do to the store: nothing, or what the
    one statement of its handler does when it goes through with the
    values [vals]. *)
Inductive effect (d : db) : db -> Prop :=
| Unchanged : effect d d
| UserInserted vals i t :
    insert_user (param vals 0) (param vals 1) (param vals 2) (param vals 3) (users d)
      = Ok (i, t) ->
    effect d (set_users d t)
| UserUpdated id with_password vals t :
    update_user id (param vals 0) (put_row with_password vals) (users d) = Ok t ->
    effect d (set_users d t)
| UsersDeleted id :
    effect d (set_users d (delete_where (fun r => id_matches id (u_id r)) (users d)))
| ServiceInserted vals :
    effect d (set_services d
                (insert (fun i => {| s_id := i; title := param vals 0;
                                     description := param vals 1; icon := param vals 2;
                                     file_url := param vals 3 |})
                        (services d)).2)
| ServiceUpdated id vals :
    effect d (set_services d
                (update_where (fun r => id_matches id (s_id r))
                   (fun r => {| s_id := s_id r; title := param vals 0;
                                description := param vals 1; icon := param vals 2;
                                file_url := param vals 3 |})
                   (services d)))
| ServicesDeleted id :
    effect d (set_services d
                (delete_where (fun r => id_matches id (s_id r)) (services d)))
| MemberInserted vals :
    effect d (set_team d
                (insert (fun i => {| m_id := i; m_name := param vals 0;
                                     m_title := param vals 1; image := param vals 2;
                                     m_icon := param vals 3 |})
                        (team d)).2)
| MemberUpdated id vals :
    effect d (set_team d
                (update_where (fun r => id_matches id (m_id r))
                   (fun r => {| m_id := m_id r; m_name := param vals 0;
                                m_title := param vals 1; image := param vals 2;
                                m_icon := param vals 3 |})
                   (team d)))
| MembersDeleted id :
    effect d (set_team d (delete_where (fun r => id_matches id (m_id r)) (team d))).

(** Some object inside [j] has a field named [k]. *)
Fixpoint has_key (k : string) (j : json) : bool :=
  match j with
  | JObj fields =>
      existsb (fun kv => String.eqb (fst kv) k || has_key k (snd kv)) fields
  | JArr items => existsb (has_key k) items
  | _ => false
  end.

(** No row has an id above the largest id the table ever gave out. *)
Definition sequenced {R : Type} `{Row R} (t : table R) : Prop :=
  forall r, r ∈ rows t -> (rowid r <= seq t)%Z.

Definition db_sequenced (d : db) : Prop :=
  sequenced (users d) /\ sequenced (services d) /\ sequenced (team d).

(** [t'] comes after [t]: its rows are within its sequence, which has not
    gone back. *)
Definition follows {R : Type} `{Row R} (t t' : table R) : Prop :=
  sequenced t' /\ (seq t <= seq t')%Z.

(** The three tables of [d'] come after those of [d]. *)
Definition db_follows (d d' : db) : Prop :=
  follows (users d) (users d') /\ follows (services d) (services d') /\
  follows (team d) (team d').

(** The rows are in the order of their ids, which are all different. *)
Definition ascending {R : Type} `{Row R} (t : table R) : Prop :=
  StronglySorted Z.lt (map rowid (rows t)).

Definition db_ascending (d : db) : Prop :=
  ascending (users d) /\ ascending (services d) /\ ascending (team d).

(** ** More sample data *)

Definition seeded_member (m : team_seed) (i : Z) : member :=
  {| m_id := i; m_name := Some (seed_name m); m_title := Some (seed_job m);
     image := Some (seed_image m); m_icon := None |}.

Definition new_user_body (un pw nm : string) : body :=
  <["username" := VStr un]> (<["password" := VStr pw]> (<["name" := VStr nm]> ∅)).

Definition service_body (t ds ic : string) : body :=
  <["title" := VStr t]> (<["description" := VStr ds]> (<["icon" := VStr ic]> ∅)).

(** Requests with a field that is not text. *)
Definition boolean_password (un : string) : body :=
  <["username" := VStr un]> (<["password" := VBool true]> ∅).

Definition array_password (un : string) (items : list value) : body :=
  <["username" := VStr un]> (<["password" := VArr items]> ∅).

Definition boolean_name : body := <["name" := VBool true]> ∅.

(** * Properties *)

Local Open Scope list_scope.

Ltac decide_names :=
  match goal with
  | |- ?P => refine (bool_decide_unpack P _); vm_compute; exact I
  end.

(** ** Schema setup *)

Module SchemaFacts.
Import Schema.

Lemma same_name_true a b : same_name a b = true <-> lower a = lower b.
Proof. unfold same_name. apply String.eqb_eq. Qed.

Lemma same_name_false a b : same_name a b = false <-> lower a <> lower b.
Proof. unfold same_name. apply String.eqb_neq. Qed.

Lemma same_name_refl a : same_name a a = true.
Proof. by apply same_name_true. Qed.

(** A table is found by the lower-case form of its name. *)
Lemma find_table_lower a b (s : schema) : lower a = lower b -> find_table a s = find_table b s.
Proof. intros H. unfold find_table, same_name. by rewrite H. Qed.

Lemma find_table_app t (s k : schema) :
  find_table t (s ++ k) =
    match find_table t s with
    | Some d => Some d
    | None => find_table t k
    end.
Proof.
  unfold find_table. induction s as [|d s IH]; simpl; [done |].
  by destruct (same_name (tbl_name d) t).
Qed.

Lemma find_table_one t d :
  find_table t [d] = if same_name (tbl_name d) t then Some d else None.
Proof. reflexivity. Qed.


Lemma find_table_add_column t c (s : schema) t' :
  find_table t' (add_column t c s) =
    if same_name t' t then grow c <$> find_table t s else find_table t' s.
Proof.
  induction s as [|d s IH]; simpl.
  - by destruct (same_name t' t).
  - unfold find_table in *. simpl.
    destruct (same_name (tbl_name d) t) eqn:Hd; simpl.
    + apply same_name_true in Hd.
      destruct (same_name t' t) eqn:Ht.
      * apply same_name_true in Ht.
        replace (same_name (tbl_name d) t') with true; [done |].
        symmetry. apply same_name_true. congruence.
      * apply same_name_false in Ht.
        replace (same_name (tbl_name d) t') with false; [done |].
        symmetry. apply same_name_false. congruence.
    + apply same_name_false in Hd.
      destruct (same_name (tbl_name d) t') eqn:Hd'; [| exact IH].
      apply same_name_true in Hd'.
      replace (same_name t' t) with false; [done |].
      symmetry. apply same_name_false. congruence.
Qed.




Lemma has_column_self c : has_column (name c) [c] = true.
Proof. unfold has_column. simpl. by rewrite String.eqb_refl. Qed.

(** What the guard finds, the store finds too. *)
Lemma has_column_weaken n cols : has_column n cols = true -> has_column_nocase n cols = true.
Proof.
  unfold has_column, has_column_nocase. rewrite !existsb_exists.
  intros (c & Hin & Hc). exists c. split; [done |].
  apply String.eqb_eq in Hc. rewrite Hc. apply same_name_refl.
Qed.


Lemma same_name_sym a b : same_name a b = same_name b a.
Proof. unfold same_name. apply String.eqb_sym. Qed.

Lemma create_lookup t cols (s : schema) t' :
  same_name t "sqlite_sequence" = false ->
  find_table t' (create_table_if_not_exists t cols s) =
    match find_table t' s with
    | Some d => Some d
    | None =>
        match find_table t s with
        | Some _ => None
        | None =>
            if same_name t' t then Some {| tbl_name := t; columns := cols |}
            else if same_name t' "sqlite_sequence" then Some sequence_table
            else None
        end
    end.
Proof.
  intros Hseq. unfold create_table_if_not_exists.
  destruct (find_table t s) as [d|] eqn:Ht; [by destruct (find_table t' s) |].
  assert (Hs' : find_table "sqlite_sequence" (s ++ [{| tbl_name := t; columns := cols |}])
                = find_table "sqlite_sequence" s).
  { rewrite find_table_app, find_table_one. cbn [tbl_name]. rewrite Hseq.
    by destruct (find_table "sqlite_sequence" s). }
  rewrite Hs'.
  destruct (find_table "sqlite_sequence" s) as [q|] eqn:Hq.
  - rewrite find_table_app, find_table_one. cbn [tbl_name].
    destruct (find_table t' s) eqn:Ht'; [done |].
    rewrite (same_name_sym t t').
    destruct (same_name t' t) eqn:Htt; [done |].
    destruct (same_name t' "sqlite_sequence") eqn:Hts; [| done].
    apply same_name_true in Hts. by rewrite (find_table_lower _ _ s Hts), Hq in Ht'.
  - rewrite !find_table_app, !find_table_one. cbn [tbl_name sequence_table].
    destruct (find_table t' s) eqn:Ht'; [done |].
    rewrite (same_name_sym t t').
    destruct (same_name t' t) eqn:Htt; [done |].
    by rewrite (same_name_sym "sqlite_sequence" t').
Qed.

Lemma migrate_lookup t c st t' :
  find_table t' (tables (migrate t c st)) =
    if same_name t' t then migrated c <$> find_table t (tables st)
    else find_table t' (tables st).
Proof.
  unfold migrate, table_info, alter_table_add_column, migrated.
  destruct (find_table t (tables st)) as [d|] eqn:Ht; simpl.
  - destruct (has_column (name c) (columns d)) eqn:Hexact.
    + rewrite (has_column_weaken _ _ Hexact).
      destruct (same_name t' t) eqn:Htt; [| done].
      apply same_name_true in Htt. by rewrite (find_table_lower _ _ _ Htt).
    + destruct (has_column_nocase (name c) (columns d)) eqn:Hnocase; simpl.
      * destruct (same_name t' t) eqn:Htt; [| done].
        apply same_name_true in Htt. by rewrite (find_table_lower _ _ _ Htt).
      * rewrite find_table_add_column, Ht. done.
  - destruct (same_name t' t) eqn:Htt; [| done].
    apply same_name_true in Htt. by rewrite (find_table_lower _ _ _ Htt).
Qed.

Lemma ensure_lookup t cols c st t' :
  same_name t "sqlite_sequence" = false -> has_column (name c) cols = true ->
  find_table t' (tables (ensure t cols c st)) =
    if same_name t' t
    then Some (match find_table t (tables st) with
               | Some d => migrated c d
               | None => {| tbl_name := t; columns := cols |}
               end)
    else match find_table t' (tables st) with
         | Some d => Some d
         | None =>
             match find_table t (tables st) with
             | Some _ => None
             | None => if same_name t' "sqlite_sequence" then Some sequence_table else None
             end
         end.
Proof.
  intros Hseq Hdecl. unfold ensure. rewrite migrate_lookup. unfold create. cbn [tables].
  rewrite !create_lookup by done. rewrite same_name_refl.
  destruct (same_name t' t) eqn:Htt.
  - destruct (find_table t (tables st)) as [d|]; simpl; [done |].
    unfold migrated. cbn [columns]. by rewrite (has_column_weaken _ _ Hdecl).
  - done.
Qed.



Lemma setup_unfold st :
  setup_from st =
    ensure "team" team_columns icon_column
      (ensure "services" services_columns file_url_column
         (ensure "users" users_columns role_column st)).
Proof. reflexivity. Qed.

Lemma migrated_columns c d :
  migrated c d =
    {| tbl_name := tbl_name d;
       columns := columns d ++ (if has_column_nocase (name c) (columns d) then [] else [c]) |}.
Proof.
  unfold migrated, grow. destruct (has_column_nocase _ _); [| done].
  rewrite app_nil_r. by destruct d.
Qed.

(** The setup, table by table. *)
Lemma setup_lookup (s : schema) (t : string) :
  find_table t (tables (setup s)) =
    match find_table t s with
    | Some d =>
        Some {| tbl_name := tbl_name d;
                columns := columns d ++ missing_columns t (columns d) |}
    | None => created_table t s
    end.
Proof.
  unfold setup. rewrite setup_unfold.
  rewrite !ensure_lookup by reflexivity. cbn [tables].
  change (same_name "team" "services") with false.
  change (same_name "team" "users") with false.
  change (same_name "services" "users") with false.
  change (same_name "team" "sqlite_sequence") with false.
  change (same_name "services" "sqlite_sequence") with false.
  cbv iota.
  unfold missing_columns, later_column, created_table, same_name.
  change (lower "users") with "users".
  change (lower "services") with "services". change (lower "team") with "team".
  change (lower "sqlite_sequence") with "sqlite_sequence".
  assert (Hu : forall X, lower t = "users" -> find_table t X = find_table "users" X)
    by (intros X H; by apply find_table_lower).
  assert (Hs : forall X, lower t = "services" -> find_table t X = find_table "services" X)
    by (intros X H; by apply find_table_lower).
  assert (Ht : forall X, lower t = "team" -> find_table t X = find_table "team" X)
    by (intros X H; by apply find_table_lower).
  assert (Heta : forall d : table_def,
            {| tbl_name := tbl_name d; columns := columns d ++ [] |} = d).
  { intros [n cs]. simpl. by rewrite app_nil_r. }
  destruct (String.eqb_spec (lower t) "team") as [E|E].
  { rewrite ?E. cbn. rewrite (Ht s E).
    destruct (find_table "team" s) as [d|], (find_table "users" s), (find_table "services" s);
      cbn; by rewrite ?migrated_columns. }
  destruct (String.eqb_spec (lower t) "services") as [E2|E2].
  { rewrite ?E2. cbn. rewrite (Hs s E2).
    destruct (find_table "team" s), (find_table "users" s),
      (find_table "services" s) as [d|]; cbn; by rewrite ?migrated_columns. }
  destruct (String.eqb_spec (lower t) "users") as [E3|E3].
  { rewrite ?E3. cbn. rewrite (Hu s E3).
    destruct (find_table "team" s), (find_table "users" s) as [d|],
      (find_table "services" s); cbn; by rewrite ?migrated_columns. }
  destruct (find_table t s) as [d|] eqn:Hd.
  { rewrite Heta. done. }
  destruct (String.eqb_spec (lower t) "sqlite_sequence") as [E4|E4];
    by destruct (find_table "users" s), (find_table "services" s), (find_table "team" s).
Qed.














End SchemaFacts.

(** ** The schema, table by table *)

Module SchemaTables.
Import Schema SchemaFacts.



(** A table that is missing under every spelling is made with the full
    column list of its [CREATE TABLE], the later column included; besides
    [users], [services] and [team] the setup makes only [sqlite_sequence],
    and that when it makes one of the three. *)
Theorem setup_creates_missing (s : schema) (t : string) :
  find_table t s = None ->
  find_table t (tables (setup s)) = created_table t s /\
  (find_table t (tables (setup s)) <> None <->
   same_name t "users" = true \/ same_name t "services" = true \/
   same_name t "team" = true \/
   (same_name t "sqlite_sequence" = true /\
    (find_table "users" s = None \/ find_table "services" s = None \/
     find_table "team" s = None))).
Proof.
  intros Hs. rewrite setup_lookup, Hs. split; [done |].
  unfold created_table.
  destruct (same_name t "users") eqn:H1; [split; [by left | done] |].
  destruct (same_name t "services") eqn:H2; [split; [by right; left | done] |].
  destruct (same_name t "team") eqn:H3; [split; [by right; right; left | done] |].
  destruct (same_name t "sqlite_sequence") eqn:H4.
  - destruct (find_table "users" s), (find_table "services" s), (find_table "team" s);
      split; try done; try (intros _; right; right; right; split; [done |]; auto; fail).
    intros [? | [? | [? | [_ [? | [? | ?]]]]]]; done.
  - split; [done |]. intros [? | [? | [? | [? _]]]]; done.
Qed.

Lemma setup_creates_missing_witness :
  find_table "users" (tables (setup [])) =
    Some {| tbl_name := "users"; columns := users_columns |} /\
  find_table "sqlite_sequence" (tables (setup [])) = Some sequence_table /\
  find_table "posts" (tables (setup [])) = None.
Proof.
  split_and!.
  - apply (setup_creates_missing [] "users"). reflexivity.
  - apply (setup_creates_missing [] "sqlite_sequence"). reflexivity.
  - apply (setup_creates_missing [] "posts"). reflexivity.
Defined.

End SchemaTables.

(** ** Facts about the binder *)

Section BinderFacts.

Lemma plain_scalar v : plain v = true -> scalar v = true.
Proof. by destruct v. Qed.

Lemma nullish_plain v : nullish v = true -> plain v = true /\ plain_text v = None.
Proof. by destruct v. Qed.

Lemma forallb_plain_scalar l : forallb plain l = true -> forallb scalar l = true.
Proof.
  induction l as [|v l IH]; simpl; [done |]. rewrite !andb_true_iff.
  intros [Hv Hl]. split; [by apply plain_scalar | by apply IH].
Qed.

Lemma bind_next_plain params count v :
  plain v = true -> (count < params)%nat -> bind_next params count v = Ok (plain_text v).
Proof.
  intros Hv Hlt. unfold bind_next, bind_value. rewrite Hv.
  replace (params <? count + 1)%nat with false; [done |].
  symmetry. apply Nat.ltb_ge. lia.
Qed.

Lemma bind_next_ok params count v x :
  bind_next params count v = Ok x ->
  plain v = true /\ x = plain_text v /\ (count < params)%nat.
Proof.
  unfold bind_next, bind_value. destruct (plain v); [| discriminate].
  destruct (params <? count + 1)%nat eqn:Hlt; [discriminate |].
  apply Nat.ltb_ge in Hlt. intros [= <-]. split_and!; [done | done | lia].
Qed.

Lemma bind_next_code params count v e : bind_next params count v = Throw e -> code e = None.
Proof.
  unfold bind_next, bind_value. destruct (plain v).
  - destruct (params <? count + 1)%nat; [| discriminate]. by intros [= <-].
  - by intros [= <-].
Qed.

(** A boolean is refused wherever it stands. *)
Lemma bind_next_boolean params count b : bind_next params count (VBool b) = Throw type_error.
Proof. reflexivity. Qed.

Lemma bind_array_code params count items e :
  bind_array params count items = Throw e -> code e = None.
Proof.
  revert count. induction items as [|v items IH]; intros count; simpl; [discriminate |].
  destruct (bind_next params count v) eqn:Hv.
  - destruct (bind_array params (S count) items) eqn:Hi; [discriminate |].
    intros [= <-]. by apply (IH (S count)).
  - intros [= <-]. by apply (bind_next_code params count v).
Qed.

(** What [bind_args] does with an argument that is no array and no
    object. *)
Lemma bind_args_scalar params count bo v args :
  scalar v = true ->
  bind_args params count bo (v :: args) =
    match bind_next params count v with
    | Throw e => Throw e
    | Ok x =>
        match bind_args params (S count) bo args with
        | Throw e => Throw e
        | Ok ys => Ok (x :: ys)
        end
    end.
Proof. by destruct v. Qed.

Lemma bind_args_code params count bo args e :
  bind_args params count bo args = Throw e -> code e = None.
Proof.
  revert count bo. induction args as [|v args IH]; intros count bo; [discriminate |].
  destruct (scalar v) eqn:Hs.
  - rewrite bind_args_scalar by done.
    destruct (bind_next params count v) eqn:Hv.
    + destruct (bind_args params (S count) bo args) eqn:Hi; [discriminate |].
      intros [= <-]. by apply (IH (S count) bo).
    + intros [= <-]. by apply (bind_next_code params count v).
  - destruct v as [| | | | |items|fields]; try discriminate Hs; simpl.
    + destruct (bind_array params count items) as [xs|e'] eqn:Hi.
      * destruct (bind_args params (count + length xs) bo args) eqn:Ha; [discriminate |].
        intros [= <-]. by apply (IH (count + length xs)%nat bo).
      * intros [= <-]. by apply (bind_array_code params count items).
    + destruct bo; [by intros [= <-] |]. apply IH.
Qed.

(** The errors of the binder are not those of the UNIQUE constraint. *)
Lemma bind_code params args route e : bind params args route = Throw e -> code e = None.
Proof.
  unfold bind. destruct (bind_args params 0 false args) as [xs|e'] eqn:Ha.
  - destruct (params <? length xs + route)%nat; [by intros [= <-] |].
    destruct (length xs + route <? params)%nat; [by intros [= <-] | discriminate].
  - intros [= <-]. by apply (bind_args_code params 0 false args).
Qed.

Lemma bind_not_unique params args route e :
  bind params args route = Throw e -> is_unique_violation e = false.
Proof. intros H. unfold is_unique_violation. by rewrite (bind_code _ _ _ _ H). Qed.

Lemma bind_args_plain params count bo args :
  forallb plain args = true -> (count + length args <= params)%nat ->
  bind_args params count bo args = Ok (map plain_text args).
Proof.
  revert count. induction args as [|v args IH]; intros count; [done |].
  cbn [forallb length map]. rewrite andb_true_iff. intros [Hv Hargs] Hlen.
  rewrite bind_args_scalar by by apply plain_scalar.
  rewrite bind_next_plain by (done || lia). rewrite IH by (done || lia). done.
Qed.

(** Strings, numbers, [null] and absent fields bind, each to its
    question mark, when there are as many of them as the statement
    needs. *)
Lemma bind_plain params args route :
  forallb plain args = true -> (length args + route = params)%nat ->
  bind params args route = Ok (map plain_text args).
Proof.
  intros Hargs Hlen. unfold bind. rewrite bind_args_plain by (done || lia).
  rewrite length_map.
  replace (params <? length args + route)%nat with false
    by (symmetry; apply Nat.ltb_ge; lia).
  replace (length args + route <? params)%nat with false
    by (symmetry; apply Nat.ltb_ge; lia).
  done.
Qed.

Lemma bind_args_scalar_ok params count bo args vals :
  forallb scalar args = true -> bind_args params count bo args = Ok vals ->
  forallb plain args = true /\ vals = map plain_text args.
Proof.
  revert count vals. induction args as [|v args IH]; intros count vals.
  - intros _ [= <-]. done.
  - cbn [forallb map]. rewrite andb_true_iff. intros [Hv Hargs].
    rewrite bind_args_scalar by done.
    destruct (bind_next params count v) as [x|] eqn:Hx; [| discriminate].
    destruct (bind_args params (S count) bo args) as [ys|] eqn:Hys; [| discriminate].
    intros [= <-]. apply bind_next_ok in Hx as (Hp & -> & _).
    destruct (IH _ _ Hargs Hys) as [Hps ->]. by rewrite Hp, Hps.
Qed.

(** Without arrays and objects among the arguments, a binding that goes
    through has bound each argument itself, and none was a boolean. *)
Lemma bind_scalar_ok params args route vals :
  forallb scalar args = true -> bind params args route = Ok vals ->
  forallb plain args = true /\ vals = map plain_text args.
Proof.
  intros Hs. unfold bind.
  destruct (bind_args params 0 false args) as [xs|] eqn:Ha; [| discriminate].
  destruct (params <? length xs + route)%nat; [discriminate |].
  destruct (length xs + route <? params)%nat; [discriminate |].
  intros [= <-]. by apply (bind_args_scalar_ok params 0 false).
Qed.

(** A first argument that is no array and no object is the value of the
    first question mark. *)
Lemma bind_first params v args route vals :
  scalar v = true -> bind params (v :: args) route = Ok vals ->
  plain v = true /\ exists rest, vals = plain_text v :: rest.
Proof.
  intros Hs. unfold bind. rewrite bind_args_scalar by done.
  destruct (bind_next params 0 v) as [x|] eqn:Hx; [| discriminate].
  destruct (bind_args params 1 false args) as [ys|]; [| discriminate].
  destruct (params <? _)%nat; [discriminate |].
  destruct (_ <? params)%nat; [discriminate |].
  intros [= <-]. apply bind_next_ok in Hx as (Hp & -> & _). split; [done |]. by exists ys.
Qed.

(** And so for the second, after such a first. *)
Lemma bind_second params v w args route vals :
  scalar v = true -> scalar w = true -> bind params (v :: w :: args) route = Ok vals ->
  plain v = true /\ plain w = true /\
  exists rest, vals = plain_text v :: plain_text w :: rest.
Proof.
  intros Hv Hw. unfold bind. rewrite !bind_args_scalar by done.
  destruct (bind_next params 0 v) as [x|] eqn:Hx; [| discriminate].
  destruct (bind_next params 1 w) as [y|] eqn:Hy; [| discriminate].
  destruct (bind_args params 2 false args) as [ys|]; [| discriminate].
  destruct (params <? _)%nat; [discriminate |].
  destruct (_ <? params)%nat; [discriminate |].
  intros [= <-]. apply bind_next_ok in Hx as (Hp & -> & _).
  apply bind_next_ok in Hy as (Hq & -> & _). split_and!; [done | done |]. by exists ys.
Qed.

Lemma bind_args_prefix params count bo pre args vals :
  forallb scalar pre = true -> bind_args params count bo (pre ++ args) = Ok vals ->
  forallb plain pre = true /\ exists rest, vals = map plain_text pre ++ rest.
Proof.
  revert count vals. induction pre as [|v pre IH]; intros count vals.
  - intros _ _. split; [done |]. by exists vals.
  - cbn [forallb map app]. rewrite andb_true_iff. intros [Hv Hpre].
    rewrite bind_args_scalar by done.
    destruct (bind_next params count v) as [x|] eqn:Hx; [| discriminate].
    destruct (bind_args params (S count) bo (pre ++ args)) as [ys|] eqn:Hys;
      [| discriminate].
    intros [= <-]. apply bind_next_ok in Hx as (Hp & -> & _).
    destruct (IH _ _ Hpre Hys) as [Hps [rest ->]]. rewrite Hp, Hps.
    split; [done |]. by exists rest.
Qed.

(** Leading arguments that are no arrays and no objects are the values
    of the leading question marks. *)
Lemma bind_prefix params pre args route vals :
  forallb scalar pre = true -> bind params (pre ++ args) route = Ok vals ->
  forallb plain pre = true /\ exists rest, vals = map plain_text pre ++ rest.
Proof.
  intros Hs. unfold bind.
  destruct (bind_args params 0 false (pre ++ args)) as [xs|] eqn:Ha; [| discriminate].
  destruct (params <? length xs + route)%nat; [discriminate |].
  destruct (length xs + route <? params)%nat; [discriminate |].
  intros [= <-]. by apply (bind_args_prefix params 0 false pre args).
Qed.

(** A boolean among arguments that are no arrays and no objects stops
    the binding. *)
Lemma bind_scalar_not_plain params args route :
  forallb scalar args = true -> forallb plain args = false ->
  exists e, bind params args route = Throw e.
Proof.
  intros Hs Hp. destruct (bind params args route) as [vals|e] eqn:Hb; [| by exists e].
  destruct (bind_scalar_ok _ _ _ _ Hs Hb) as [Hp' _]. congruence.
Qed.

Lemma statement_bound {A : Type} (vals : list sqlval) (exec : list sqlval -> result A) :
  statement None (Ok vals) exec = exec vals.
Proof. reflexivity. Qed.

Lemma statement_failed {A : Type} e (vals : list sqlval) (exec : list sqlval -> result A) :
  statement (Some e) (Ok vals) exec = Throw e.
Proof. reflexivity. Qed.

Lemma statement_unbound {A : Type} io e (exec : list sqlval -> result A) :
  statement io (Throw e) exec = Throw e.
Proof. reflexivity. Qed.

(** A truthy value that binds is not the empty text. *)
Lemma truthy_plain_nonempty v :
  truthy v = true -> plain v = true -> exists s, plain_text v = Some s /\ s <> "".
Proof.
  destruct v as [| |b|n|s|items|fields]; simpl; try discriminate.
  - intros _ _. exists (number_text n). split; [done |]. discriminate.
  - intros H _. exists s. split; [done |]. intros ->. discriminate H.
Qed.

End BinderFacts.

(** ** Facts about the store *)

Section StoreFacts.

Lemma sql_eq_true a b : sql_eq a b = true <-> exists s, a = Some s /\ b = Some s.
Proof.
  destruct a as [x|], b as [y|]; simpl; split; try discriminate.
  - intros H. apply String.eqb_eq in H. subst. by exists y.
  - intros (s & [= ->] & [= ->]). apply String.eqb_refl.
  - intros (s & ? & ?). discriminate.
  - intros (s & ? & ?). discriminate.
  - intros (s & ? & ?). discriminate.
Qed.

Lemma sql_eq_refl s : sql_eq (Some s) (Some s) = true.
Proof. simpl. apply String.eqb_refl. Qed.

Lemma field_insert_eq (b : body) k v : field (<[k := v]> b) k = v.
Proof. unfold field. by rewrite lookup_insert_eq. Qed.

Lemma field_insert_ne (b : body) k k' v : k <> k' -> field (<[k := v]> b) k' = field b k'.
Proof. intros H. unfold field. by rewrite lookup_insert_ne. Qed.

Lemma field_delete_eq (b : body) k : field (delete k b) k = VUndefined.
Proof. unfold field. by rewrite lookup_delete_eq. Qed.

Lemma field_delete_ne (b : body) k k' : k <> k' -> field (delete k b) k' = field b k'.
Proof. intros H. unfold field. by rewrite lookup_delete_ne. Qed.

Lemma table_eta {R : Type} (t : table R) : {| rows := rows t; seq := seq t |} = t.
Proof. by destruct t. Qed.

Lemma set_users_same d : set_users d (users d) = d.
Proof. by destruct d. Qed.

Lemma set_services_same d : set_services d (services d) = d.
Proof. by destruct d. Qed.

Lemma set_team_same d : set_team d (team d) = d.
Proof. by destruct d. Qed.

(** [find] stops at the first row that passes the test. *)
Lemma find_app_first {A : Type} (p : A -> bool) (l1 l2 : list A) (x : A) :
  (forall y, y ∈ l1 -> p y = false) -> p x = true ->
  find p (l1 ++ x :: l2) = Some x.
Proof.
  intros Hl1 Hx. induction l1 as [|y l1 IH]; simpl.
  - by rewrite Hx.
  - rewrite (Hl1 y) by apply list_elem_of_here.
    apply IH. intros z Hz. apply Hl1. by apply list_elem_of_further.
Qed.

Lemma find_all_false {A : Type} (p : A -> bool) (l : list A) :
  (forall y, y ∈ l -> p y = false) -> find p l = None.
Proof.
  induction l as [|y l IH]; simpl; [done |]. intros H.
  rewrite (H y) by apply list_elem_of_here.
  apply IH. intros z Hz. apply H. by apply list_elem_of_further.
Qed.

(** Under the UNIQUE constraint a username selects at most one row. *)
Lemma unique_username_same_row (l : list user) (u v : user) (un : string) :
  NoDup (omap username l) -> u ∈ l -> v ∈ l ->
  username u = Some un -> username v = Some un -> u = v.
Proof.
  induction l as [|r l IH]; intros Hnd Hu Hv Hun Hvn.
  - inversion Hu.
  - simpl in Hnd. apply elem_of_cons in Hu, Hv.
    destruct (username r) as [rn|] eqn:Hr.
    + apply NoDup_cons in Hnd as [Hnotin Hnd].
      destruct Hu as [->|Hu], Hv as [->|Hv]; try done.
      * exfalso. apply Hnotin. apply list_elem_of_omap. exists v.
        split; [done |]. congruence.
      * exfalso. apply Hnotin. apply list_elem_of_omap. exists u.
        split; [done |]. congruence.
      * by apply IH.
    + destruct Hu as [->|Hu], Hv as [->|Hv]; try congruence. by apply IH.
Qed.

Lemma credentials_true un pw u :
  credentials un pw u = true <->
  exists a b, un = Some a /\ pw = Some b /\ username u = Some a /\ password u = Some b.
Proof.
  unfold credentials. rewrite andb_true_iff, !sql_eq_true. split.
  - intros [(a & Ha & ->) (b & Hb & ->)]. by exists a, b.
  - intros (a & b & -> & -> & Ha & Hb). split; [by exists a | by exists b].
Qed.

(** The login of a request whose two fields are no arrays and no
    objects: the two are bound as they are, or a boolean stops it. *)
Lemma login_scalar (b : body) (d : db) :
  scalar (field b "username") = true -> scalar (field b "password") = true ->
  login None b d =
    if plain (field b "username") && plain (field b "password")
    then match find (credentials (plain_text (field b "username"))
                                 (plain_text (field b "password")))
                    (rows (users d)) with
         | Some user =>
             (d, Responded 200 (JObj [("success", JBool true); ("user", public_user user)]))
         | None => (d, Responded 401 (failure "Invalid credentials"))
         end
    else (d, Threw type_error).
Proof.
  intros Hu Hp. unfold login.
  destruct (plain (field b "username")) eqn:Hpu.
  - destruct (plain (field b "password")) eqn:Hpp; simpl.
    + rewrite bind_plain by (simpl; by rewrite ?Hpu, ?Hpp). reflexivity.
    + unfold bind. rewrite !bind_args_scalar by done.
      rewrite bind_next_plain by (done || lia).
      destruct (field b "password"); try discriminate. reflexivity.
  - unfold bind. rewrite !bind_args_scalar by done.
    destruct (field b "username"); try discriminate. reflexivity.
Qed.

Lemma textual_plain v : textual v = true -> plain v = true.
Proof. by destruct v. Qed.

Lemma names_credentials_of_true b u :
  textual (field b "username") = true -> textual (field b "password") = true ->
  names_credentials_of b u <->
  credentials (plain_text (field b "username")) (plain_text (field b "password")) u = true.
Proof.
  intros Htu Htp. rewrite credentials_true. unfold names_credentials_of. split.
  - intros (un & pw & Hu & Hp & Hsu & Hsp). exists un, pw. by rewrite Hu, Hp.
  - intros (un & pw & Hu & Hp & Hsu & Hsp). exists un, pw.
    destruct (field b "username"), (field b "password"); simpl in *; try discriminate.
    split_and!; congruence.
Qed.

Lemma names_credentials_of_textual b u :
  names_credentials_of b u ->
  textual (field b "username") = true /\ textual (field b "password") = true.
Proof. intros (un & pw & -> & -> & _). done. Qed.

End StoreFacts.

(** ** Login *)

(** C1, as the code has it.  When the username and the password of a
    login request are the strings stored for a user, the response is a
    success whose [user] object has exactly the fields [id], [name],
    [username] and [role], with that user's values, and no [password];
    when each of the two is a string, [null] or absent and the request
    names the credentials of no stored user, the response is the 401
    error; when one of the two is a boolean and neither is an array or an
    object, no response is sent by the handler: the binding of the values
    throws, and the client gets status 500. *)
Theorem login_matches_store (d : db) (b : body) :
  (forall u, unique_usernames d -> u ∈ rows (users d) -> names_credentials_of b u ->
     login None b d =
       (d, Responded 200
             (JObj [("success", JBool true);
                    ("user", JObj [("id", JNum (u_id u));
                                   ("name", json_of_sql (name u));
                                   ("username", json_of_sql (username u));
                                   ("role", json_of_sql (role u))])]))) /\
  (textual (field b "username") = true -> textual (field b "password") = true ->
   (forall u, u ∈ rows (users d) -> ~ names_credentials_of b u) ->
     login None b d = (d, Responded 401 (failure "Invalid credentials"))) /\
  (scalar (field b "username") = true -> scalar (field b "password") = true ->
   (exists t, field b "username" = VBool t \/ field b "password" = VBool t) ->
     login None b d = (d, Threw type_error) /\
     respond None (PostLogin b) d = (500, ErrorPage type_error)).
Proof.
  split_and!.
  - intros u Huniq Hin Hm.
    destruct (names_credentials_of_textual b u Hm) as [Htu Htp].
    pose proof Hm as (un & pw & Hbu & Hbp & Hsu & Hsp).
    apply (names_credentials_of_true b u Htu Htp) in Hm.
    rewrite login_scalar by (by rewrite ?Hbu, ?Hbp).
    rewrite (textual_plain _ Htu), (textual_plain _ Htp). cbn [andb].
    destruct (list_elem_of_split _ _ Hin) as (l1 & l2 & Hsplit).
    rewrite Hsplit. rewrite find_app_first; [done | | done].
    intros v Hv. destruct (credentials _ _ v) eqn:Hcv; [| done]. exfalso.
    apply credentials_true in Hcv as (a & c & Ha & Hc & Hva & Hvc).
    rewrite Hbu in Ha. simpl in Ha. injection Ha as <-.
    assert (Hvin : v ∈ rows (users d)).
    { rewrite Hsplit. apply elem_of_app. by left. }
    assert (v = u) by (eapply unique_username_same_row; eauto). subst v.
    unfold unique_usernames in Huniq. rewrite Hsplit in Huniq.
    rewrite omap_app in Huniq. simpl in Huniq. rewrite Hsu in Huniq.
    apply NoDup_app in Huniq as (_ & Hdisj & _).
    apply (Hdisj un).
    + apply list_elem_of_omap. by exists u.
    + apply list_elem_of_here.
  - intros Htu Htp Hnone.
    rewrite login_scalar by (by apply plain_scalar, textual_plain).
    rewrite (textual_plain _ Htu), (textual_plain _ Htp). cbn [andb].
    rewrite find_all_false; [done |].
    intros u Hu. destruct (credentials _ _ u) eqn:Hc; [| done].
    apply (names_credentials_of_true b u Htu Htp) in Hc. by destruct (Hnone u Hu).
  - intros Hsu Hsp [t Ht].
    assert (Hlogin : login None b d = (d, Threw type_error)).
    { rewrite login_scalar by done.
      destruct Ht as [Ht | Ht]; rewrite Ht; simpl; [done |]. by rewrite andb_false_r. }
    split; [done |]. unfold respond. simpl. by rewrite Hlogin.
Qed.

Lemma seeded_db_users : rows (users seeded_db) = [admin_row].
Proof. reflexivity. Qed.

Lemma login_matches_store_witness :
  login None (credentials_body "admin" "123456") seeded_db =
    (seeded_db, Responded 200
       (JObj [("success", JBool true);
              ("user", JObj [("id", JNum 1); ("name", JStr "Administrator");
                             ("username", JStr "admin"); ("role", JStr "admin")])])) /\
  login None (credentials_body "admin" "letmein") seeded_db =
    (seeded_db, Responded 401 (failure "Invalid credentials")) /\
  respond None (PostLogin (boolean_password "admin")) seeded_db =
    (500, ErrorPage type_error).
Proof.
  split_and!.
  - apply (proj1 (login_matches_store seeded_db (credentials_body "admin" "123456"))
                 admin_row).
    + unfold unique_usernames. rewrite seeded_db_users. simpl.
      apply NoDup_singleton.
    + rewrite seeded_db_users. apply list_elem_of_here.
    + exists "admin", "123456". split_and!; reflexivity.
  - apply (proj1 (proj2 (login_matches_store seeded_db (credentials_body "admin" "letmein"))));
      [reflexivity | reflexivity |].
    intros u Hu (un & pw & _ & Hp & _ & Hsp).
    rewrite seeded_db_users in Hu. apply list_elem_of_singleton in Hu. subst u.
    vm_compute in Hp, Hsp. congruence.
  - apply (proj2 (proj2 (login_matches_store seeded_db (boolean_password "admin"))));
      [reflexivity | reflexivity |].
    exists true. by right.
Defined.

(** A request with the password [true] names the credentials of no
    stored user, and yet is not answered with 401. *)
Lemma login_matches_store_counterexample :
  ~ (forall (d : db) (b : body),
       (forall u, u ∈ rows (users d) -> ~ names_credentials_of b u) ->
       (respond None (PostLogin b) d).1 = 401%nat).
Proof.
  intros H. specialize (H seeded_db (boolean_password "admin")).
  assert (Hnone : forall u, u ∈ rows (users seeded_db) ->
                            ~ names_credentials_of (boolean_password "admin") u).
  { intros u _ (un & pw & _ & Hp & _). vm_compute in Hp. discriminate Hp. }
  specialize (H Hnone). vm_compute in H. discriminate H.
Qed.

(** The [user] object of a successful login has these four fields and no
    other. *)
Lemma public_user_keys (u : user) :
  keys (public_user u) = ["id"; "name"; "username"; "role"] /\
  "password" ∉ keys (public_user u).
Proof.
  split; [reflexivity |]. simpl. rewrite !not_elem_of_cons.
  split_and!; try discriminate. apply not_elem_of_nil.
Qed.

(** A request whose username or password is [null] or absent logs nobody
    in, whatever is stored: NULL equals nothing. *)
Lemma login_without_credentials (d : db) (b : body) :
  textual (field b "username") = true -> textual (field b "password") = true ->
  nullish (field b "username") = true \/ nullish (field b "password") = true ->
  login None b d = (d, Responded 401 (failure "Invalid credentials")).
Proof.
  intros Htu Htp Hnull.
  rewrite login_scalar by (by apply plain_scalar, textual_plain).
  rewrite (textual_plain _ Htu), (textual_plain _ Htp). cbn [andb].
  rewrite find_all_false; [done |].
  intros u _. unfold credentials.
  destruct Hnull as [H | H]; apply nullish_plain in H as [_ ->];
    destruct (username u), (password u); simpl;
    try done; by rewrite andb_false_r.
Qed.
(** ** Seeding *)

Section SeedFacts.

Lemma is_admin_true r : is_admin r = true <-> username r = Some "admin".
Proof.
  unfold is_admin. rewrite sql_eq_true. split.
  - intros (s & Hs & [= <-]). done.
  - intros H. by exists "admin".
Qed.

Lemma find_none_filter {A : Type} (p : A -> bool) (l : list A) :
  find p l = None <-> List.filter p l = [].
Proof.
  induction l as [|x l IH]; simpl; [done |].
  destruct (p x); [split; discriminate | exact IH].
Qed.

Lemma filter_nil_false {A : Type} (p : A -> bool) (l : list A) (x : A) :
  List.filter p l = [] -> x ∈ l -> p x = false.
Proof.
  intros Hf Hx. destruct (p x) eqn:Hp; [| done].
  assert (Hin : In x (List.filter p l)).
  { apply filter_In. split; [by apply list_elem_of_In | done]. }
  rewrite Hf in Hin. destruct Hin.
Qed.

Lemma taken_none un (l : list user) :
  (forall r, r ∈ l -> sql_eq (username r) un = false) ->
  taken un (fun _ => false) l = false.
Proof.
  intros H. unfold taken. induction l as [|r l IH]; simpl; [done |].
  rewrite (H r) by apply list_elem_of_here. simpl.
  apply IH. intros x Hx. apply H. by apply list_elem_of_further.
Qed.

Lemma set_role_admin rl r : is_admin (set_role rl r) = is_admin r.
Proof. done. Qed.

Lemma filter_map_admin (l : list user) :
  List.filter is_admin (map (fun r => if is_admin r then set_role (Some "admin") r else r) l)
  = map (set_role (Some "admin")) (List.filter is_admin l).
Proof.
  induction l as [|r l IH]; [done |].
  cbn [map List.filter]. destruct (is_admin r) eqn:Hr.
  - rewrite set_role_admin, Hr. cbn [map]. by rewrite IH.
  - rewrite Hr. exact IH.
Qed.

(** Under the UNIQUE constraint there is at most one ['admin']. *)
Lemma admins_at_most_one (l : list user) :
  NoDup (omap username l) -> (length (List.filter is_admin l) <= 1)%nat.
Proof.
  induction l as [|r l IH]; simpl; [lia |]. intros Hnd.
  destruct (is_admin r) eqn:Hr.
  - apply is_admin_true in Hr. rewrite Hr in Hnd.
    apply NoDup_cons in Hnd as [Hnotin Hnd]. simpl.
    destruct (List.filter is_admin l) as [|v rest] eqn:Hf; [simpl; lia |].
    exfalso. apply Hnotin. apply list_elem_of_omap. exists v.
    assert (Hv : In v (List.filter is_admin l)) by (rewrite Hf; by left).
    apply filter_In in Hv as [Hv Hva]. split; [by apply list_elem_of_In |].
    by apply is_admin_true.
  - apply IH. destruct (username r); [by apply NoDup_cons in Hnd as [_ ?] | done].
Qed.

Lemma seed_services_users d : users (seed_services d) = users d.
Proof. unfold seed_services. by destruct (Z.eqb _ _). Qed.

Lemma seed_team_users d : users (seed_team d) = users d.
Proof. unfold seed_team. by destruct (Z.eqb _ _). Qed.

Lemma seed_services_team d : team (seed_services d) = team d.
Proof. unfold seed_services. by destruct (Z.eqb _ _). Qed.

Lemma seed_team_services d : services (seed_team d) = services d.
Proof. unfold seed_team. by destruct (Z.eqb _ _). Qed.

(** The admin step never throws, and touches the users only. *)
Lemma seed_admin_total d :
  exists d1, seed_admin d = Ok d1 /\ services d1 = services d /\ team d1 = team d /\
    ((admins d = [] /\
      rows (users d1) = rows (users d) ++
        [ {| u_id := next_rowid (users d); username := Some "admin";
             password := Some "123456"; name := Some "Administrator";
             role := Some "admin" |} ]) \/
     (admins d <> [] /\
      rows (users d1) =
        map (fun r => if is_admin r then set_role (Some "admin") r else r)
            (rows (users d)))).
Proof.
  unfold seed_admin, admins.
  destruct (find is_admin (rows (users d))) as [u|] eqn:Hfind.
  - eexists. split; [done |]. split_and!; try done. right. split; [| done].
    intros Hnil. apply find_none_filter in Hnil. congruence.
  - pose proof (proj1 (find_none_filter _ _) Hfind) as Hnil.
    unfold insert_user. rewrite taken_none.
    + simpl. eexists. split; [done |]. split_and!; try done. by left.
    + intros r Hr. exact (filter_nil_false _ _ _ Hnil Hr).
Qed.

End SeedFacts.

(** C2. Whatever the users collection holds when the server starts, the
    seeding completes and afterwards every row named ['admin'] has role
    ['admin']: when there was none, one is appended with the fixed
    password, the fixed display name and role ['admin']; otherwise the
    role of the existing one is set to ['admin'] and nothing else changes.
    With usernames unique, as the store keeps them, exactly one row is
    named ['admin']. *)
Theorem seed_admin_role (d : db) :
  exists d', seed d = Ok d' /\
    (admins d = [] ->
       rows (users d') = rows (users d) ++
         [ {| u_id := next_rowid (users d); username := Some "admin";
              password := Some "123456"; name := Some "Administrator";
              role := Some "admin" |} ]) /\
    (admins d <> [] ->
       rows (users d') =
         map (fun r => if is_admin r then set_role (Some "admin") r else r)
             (rows (users d))) /\
    (forall u, u ∈ rows (users d') -> username u = Some "admin" ->
       role u = Some "admin") /\
    admins d' <> [] /\
    (unique_usernames d ->
       exists u, admins d' = [u] /\ username u = Some "admin" /\ role u = Some "admin").
Proof.
  destruct (seed_admin_total d) as (d1 & Hseed & _ & _ & Hcases).
  exists (seed_team (seed_services d1)). unfold seed. rewrite Hseed.
  split; [done |].
  unfold admins in *. rewrite seed_team_users, seed_services_users.
  destruct Hcases as [[Hnone Hrows] | [Hsome Hrows]]; rewrite Hrows.
  - split_and!; try done.
    + intros u Hu Hname. apply elem_of_app in Hu as [Hu | Hu].
      * apply is_admin_true in Hname.
        pose proof (filter_nil_false _ _ _ Hnone Hu). congruence.
      * apply list_elem_of_singleton in Hu. by subst u.
    + rewrite List.filter_app, Hnone. done.
    + intros _. eexists. rewrite List.filter_app, Hnone. simpl. done.
  - split_and!; try done.
    + intros u Hu Hname. apply list_elem_of_In, in_map_iff in Hu as (r & Hr & _).
      destruct (is_admin r) eqn:Ha; subst u; [done |].
      apply is_admin_true in Hname. congruence.
    + rewrite filter_map_admin. intros Hnil. apply Hsome.
      by destruct (List.filter is_admin (rows (users d))).
    + intros Huniq. rewrite filter_map_admin.
      pose proof (admins_at_most_one _ Huniq) as Hle.
      destruct (List.filter is_admin (rows (users d))) as [|v [|w rest]] eqn:Hf;
        [done | | simpl in Hle; lia].
      exists (set_role (Some "admin") v). split_and!; try done. simpl.
      assert (Hv : In v (List.filter is_admin (rows (users d)))) by (rewrite Hf; by left).
      apply filter_In in Hv as [_ Hv]. by apply is_admin_true.
Qed.

Lemma seed_admin_role_witness :
  (exists d', seed empty_db = Ok d' /\ rows (users d') = [admin_row]) /\
  (exists d', seed demoted_db = Ok d' /\
     rows (users d') = [admin_row; editor_row] /\
     exists u, admins d' = [u] /\ username u = Some "admin" /\ role u = Some "admin").
Proof.
  split.
  - destruct (seed_admin_role empty_db) as (d' & Hs & Hnone & _).
    exists d'. split; [exact Hs |]. apply Hnone. reflexivity.
  - destruct (seed_admin_role demoted_db) as (d' & Hs & _ & Hsome & _ & _ & Hone).
    exists d'. split; [exact Hs |]. split.
    + apply Hsome. discriminate.
    + apply Hone. unfold unique_usernames. decide_names.
Defined.

Section ServicesSeed.

Lemma count_zero {R : Type} (t : table R) : Z.eqb (count t) 0 = true <-> rows t = [].
Proof.
  unfold count. destruct (rows t); simpl; split; try done.
Qed.

Lemma max_rowid_nonneg {R : Type} `{Row R} (l : list R) : (0 <= max_rowid l)%Z.
Proof. induction l; simpl; lia. Qed.

Lemma max_rowid_app {R : Type} `{Row R} (l k : list R) :
  max_rowid (l ++ k) = Z.max (max_rowid l) (max_rowid k).
Proof.
  induction l as [|x l IH]; simpl.
  - pose proof (max_rowid_nonneg k). lia.
  - rewrite IH. lia.
Qed.

(** Inserting a list of entries one after the other gives them the ids
    that follow the largest id given out so far. *)
Lemma insert_services (l : list service_seed) (t : table service) :
  (max_rowid (rows t) <= Z.max (seq t) 0)%Z ->
  rows (foldl (fun t s => insertService s t) t l) =
    rows t ++ imap (fun k s => seeded_service s (Z.max (seq t) 0 + 1 + Z.of_nat k)) l.
Proof.
  revert t. induction l as [|s l IH]; intros t Hmax.
  - simpl. by rewrite app_nil_r.
  - cbn [foldl]. pose proof (max_rowid_nonneg (rows t)) as Hnn.
    assert (Hnext : next_rowid t = (Z.max (seq t) 0 + 1)%Z) by (unfold next_rowid; lia).
    rewrite IH.
    + unfold insertService, insert. cbn [snd rows seq]. rewrite Hnext.
      rewrite <- app_assoc. f_equal. cbn [imap app]. f_equal.
      * f_equal. lia.
      * apply imap_ext. intros k x _. simpl. f_equal. lia.
    + unfold insertService, insert. cbn [snd rows seq]. rewrite Hnext.
      rewrite max_rowid_app. change (max_rowid [seeded_service s (Z.max (seq t) 0 + 1)])
        with (Z.max (Z.max (seq t) 0 + 1) 0). lia.
Qed.

Lemma seed_services_of d d' :
  seed d = Ok d' -> services d' = services (seed_services d).
Proof.
  unfold seed. destruct (seed_admin_total d) as (d1 & Hseed & Hserv & Hteam & _).
  rewrite Hseed. intros [= <-]. rewrite seed_team_services.
  unfold seed_services. rewrite Hserv. by destruct (Z.eqb _ _).
Qed.

Lemma seed_total d : exists d', seed d = Ok d'.
Proof.
  unfold seed. destruct (seed_admin_total d) as (d1 & -> & _). by eexists.
Qed.

End ServicesSeed.

(** C6. When the services collection is empty at start-up, after the
    seeding it holds exactly the entries of the fixed default list, in the
    order of the list, each with the title, description and icon of its
    entry, no file URL, and the next free id; when the collection is not
    empty, the seeding leaves it as it is. *)
Theorem seed_services_default (d : db) :
  exists d', seed d = Ok d' /\
    (rows (services d) = [] ->
       rows (services d') =
         imap (fun k s => {| s_id := Z.max (seq (services d)) 0 + 1 + Z.of_nat k;
                             title := Some (seed_title s);
                             description := Some (seed_description s);
                             icon := Some (seed_icon s);
                             file_url := None |}) initialServices) /\
    (rows (services d) <> [] -> services d' = services d).
Proof.
  destruct (seed_total d) as (d' & Hseed).
  exists d'. split; [exact Hseed |].
  rewrite (seed_services_of _ _ Hseed). unfold seed_services.
  destruct (Z.eqb (count (services d)) 0) eqn:Hc.
  - apply count_zero in Hc. split; [| congruence]. intros _.
    cbn [services set_services]. rewrite insert_services.
    + rewrite Hc. done.
    + rewrite Hc. simpl. lia.
  - split; [| done]. intros Hnil. apply count_zero in Hnil. congruence.
Qed.

Lemma seed_services_default_witness :
  (exists d', seed empty_db = Ok d' /\
     map (fun s => (s_id s, icon s, file_url s)) (rows (services d')) =
       [(1, Some "Leaf", None); (2, Some "Globe", None); (3, Some "Building2", None);
        (4, Some "Briefcase", None); (5, Some "Gavel", None); (6, Some "Scale", None)]%Z) /\
  (exists d', seed demoted_db = Ok d' /\ services d' = services demoted_db).
Proof.
  split.
  - destruct (seed_services_default empty_db) as (d' & Hs & Hempty & _).
    exists d'. split; [exact Hs |]. rewrite Hempty; reflexivity.
  - destruct (seed_services_default demoted_db) as (d' & Hs & _ & Hsome).
    exists d'. split; [exact Hs |]. apply Hsome. discriminate.
Defined.


(** ** Users *)

Section UsersFacts.

Lemma taken_some un self (l : list user) (u : user) :
  u ∈ l -> self u = false -> username u = Some un -> taken (Some un) self l = true.
Proof.
  intros Hin Hself Hun. unfold taken. apply existsb_exists. exists u.
  split; [by apply list_elem_of_In |]. rewrite Hself, Hun. simpl. apply String.eqb_refl.
Qed.

Lemma existsb_none {A : Type} (p : A -> bool) (l : list A) :
  (forall x, x ∈ l -> p x = false) -> existsb p l = false.
Proof.
  intros H. induction l as [|x l IH]; simpl; [done |].
  rewrite (H x) by apply list_elem_of_here. simpl.
  apply IH. intros y Hy. apply H. by apply list_elem_of_further.
Qed.

Lemma update_where_none {R : Type} (c : R -> bool) (f : R -> R) (t : table R) :
  (forall r, r ∈ rows t -> c r = false) -> update_where c f t = t.
Proof.
  destruct t as [l s]. unfold update_where. simpl. intros H. f_equal.
  induction l as [|r l IH]; simpl; [done |].
  rewrite (H r) by apply list_elem_of_here. f_equal.
  apply IH. intros x Hx. apply H. by apply list_elem_of_further.
Qed.

Lemma delete_where_none {R : Type} (c : R -> bool) (t : table R) :
  (forall r, r ∈ rows t -> c r = false) -> delete_where c t = t.
Proof.
  destruct t as [l s]. unfold delete_where. simpl. intros H. f_equal.
  induction l as [|r l IH]; simpl; [done |].
  rewrite (H r) by apply list_elem_of_here. simpl. f_equal.
  apply IH. intros x Hx. apply H. by apply list_elem_of_further.
Qed.

(** *** The values of a request and its statement *)

Lemma binds_true r : binds r = true <-> exists vals, bound r = Ok vals.
Proof.
  unfold binds. destruct (bound r) as [vals|e]; split; try done.
  - intros _. by exists vals.
  - intros [vals Hv]. discriminate Hv.
Qed.

Lemma binds_false r : binds r = false <-> exists e, bound r = Throw e.
Proof.
  unfold binds. destruct (bound r) as [vals|e]; split; try done.
  - intros [e He]. discriminate He.
  - intros _. by exists e.
Qed.

Lemma arguments_length r : (length (arguments r) + route_values r = parameters r)%nat.
Proof. destruct r; simpl; try reflexivity. by destruct (truthy _). Qed.

(** Fields that are strings, numbers, [null] or absent bind, each to the
    question mark of its place. *)
Lemma bound_plain r : plain_fields r = true -> bound r = Ok (map plain_text (arguments r)).
Proof. intros H. apply bind_plain; [exact H | apply arguments_length]. Qed.

Lemma binds_plain r : plain_fields r = true -> binds r = true.
Proof. intros H. unfold binds. by rewrite (bound_plain r H). Qed.

Lemma bound_scalar r vals :
  scalar_fields r = true -> bound r = Ok vals ->
  plain_fields r = true /\ vals = map plain_text (arguments r).
Proof. apply bind_scalar_ok. Qed.

Lemma bound_not_unique r e : bound r = Throw e -> is_unique_violation e = false.
Proof. apply bind_not_unique. Qed.

(** A falsy value is no array and no object. *)
Lemma falsy_scalar v : truthy v = false -> scalar v = true.
Proof. by destruct v. Qed.

(** The username of a request that writes a user, when it is no array
    and no object, is the value of the first question mark. *)
Lemma bound_post_username b vals :
  scalar (field b "username") = true -> bound (PostUsers b) = Ok vals ->
  param vals 0 = plain_text (field b "username").
Proof.
  intros Hs Hb. destruct (bind_first _ _ _ _ _ Hs Hb) as (_ & rest & ->). done.
Qed.

Lemma bound_put_username id b vals :
  scalar (field b "username") = true -> bound (PutUsers id b) = Ok vals ->
  param vals 0 = plain_text (field b "username").
Proof.
  intros Hs. unfold bound. cbn [arguments parameters route_values].
  destruct (truthy (field b "password")); intros Hb;
    destruct (bind_first _ _ _ _ _ Hs Hb) as (_ & rest & ->); done.
Qed.

(** *** The handlers, by what their statement is given *)

Lemma users_post_unfold io b d :
  users_post io b d =
    match statement io (bound (PostUsers b))
            (fun vals => insert_user (param vals 0) (param vals 1) (param vals 2)
                                     (param vals 3) (users d)) with
    | Ok (lastInsertRowid, t) =>
        (set_users d t,
         Responded 200 (JObj [("id", JNum lastInsertRowid);
                              ("username", json_of_value (field b "username"));
                              ("name", json_of_value (field b "name"));
                              ("role", json_of_value
                                         (js_or (field b "role") (VStr "editor")))]))
    | Throw e =>
        if is_unique_violation e
        then (d, Responded 400 (failure "Username already exists"))
        else (d, Responded 500 (failure "Failed to create user"))
    end.
Proof. reflexivity. Qed.

(** What the two UPDATE statements of [PUT /api/users/:id] write. *)
Lemma users_put_unfold io id b d :
  users_put io id b d =
    match statement io (bound (PutUsers id b))
            (fun vals => update_user id (param vals 0)
                           (put_row (truthy (field b "password")) vals) (users d)) with
    | Ok t => (set_users d t, Responded 200 success)
    | Throw e =>
        if is_unique_violation e
        then (d, Responded 400 (failure "Username already exists"))
        else (d, Responded 500 (failure "Failed to update user"))
    end.
Proof.
  unfold users_put, bound, put_row. cbn [arguments parameters route_values].
  destruct (truthy (field b "password")); reflexivity.
Qed.

Lemma services_post_unfold io b d :
  services_post io b d =
    match statement io (bound (PostServices b))
            (fun vals => Ok (insert (fun i => {| s_id := i; title := param vals 0;
                                                 description := param vals 1;
                                                 icon := param vals 2;
                                                 file_url := param vals 3 |})
                                    (services d))) with
    | Throw e => (d, Threw e)
    | Ok (lastInsertRowid, t) =>
        (set_services d t,
         Responded 200 (JObj [("id", JNum lastInsertRowid);
                              ("title", json_of_value (field b "title"));
                              ("description", json_of_value (field b "description"));
                              ("icon", json_of_value (field b "icon"));
                              ("file_url", json_of_value (field b "file_url"))]))
    end.
Proof. reflexivity. Qed.

Lemma services_put_unfold io id b d :
  services_put io id b d =
    match statement io (bound (PutServices id b))
            (fun vals => Ok (update_where (fun r => id_matches id (s_id r))
                               (fun r => {| s_id := s_id r; title := param vals 0;
                                            description := param vals 1;
                                            icon := param vals 2;
                                            file_url := param vals 3 |})
                               (services d))) with
    | Throw e => (d, Threw e)
    | Ok t => (set_services d t, Responded 200 success)
    end.
Proof. reflexivity. Qed.

Lemma team_post_unfold io b d :
  team_post io b d =
    match statement io (bound (PostTeam b))
            (fun vals => Ok (insert (fun i => {| m_id := i; m_name := param vals 0;
                                                 m_title := param vals 1;
                                                 image := param vals 2;
                                                 m_icon := param vals 3 |})
                                    (team d))) with
    | Throw e => (d, Threw e)
    | Ok (lastInsertRowid, t) =>
        (set_team d t,
         Responded 200 (JObj [("id", JNum lastInsertRowid);
                              ("name", json_of_value (field b "name"));
                              ("title", json_of_value (field b "title"));
                              ("image", json_of_value (field b "image"));
                              ("icon", json_of_value (field b "icon"))]))
    end.
Proof. reflexivity. Qed.

Lemma team_put_unfold io id b d :
  team_put io id b d =
    match statement io (bound (PutTeam id b))
            (fun vals => Ok (update_where (fun r => id_matches id (m_id r))
                               (fun r => {| m_id := m_id r; m_name := param vals 0;
                                            m_title := param vals 1;
                                            image := param vals 2;
                                            m_icon := param vals 3 |})
                               (team d))) with
    | Throw e => (d, Threw e)
    | Ok t => (set_team d t, Responded 200 success)
    end.
Proof. reflexivity. Qed.

Lemma login_unfold io b d :
  login io b d =
    match statement io (bound (PostLogin b))
            (fun vals => Ok (find (credentials (param vals 0) (param vals 1))
                                  (rows (users d)))) with
    | Throw e => (d, Threw e)
    | Ok (Some user) =>
        (d, Responded 200 (JObj [("success", JBool true); ("user", public_user user)]))
    | Ok None => (d, Responded 401 (failure "Invalid credentials"))
    end.
Proof. reflexivity. Qed.

(** A request whose values do not bind is answered by the users handlers
    with their 500 message. *)
Lemma users_post_unbound io b d :
  binds (PostUsers b) = false ->
  users_post io b d = (d, Responded 500 (failure "Failed to create user")).
Proof.
  intros Hb. apply binds_false in Hb as [e He]. rewrite users_post_unfold, He.
  cbn [statement]. by rewrite (bound_not_unique _ _ He).
Qed.

Lemma users_put_unbound io id b d :
  binds (PutUsers id b) = false ->
  users_put io id b d = (d, Responded 500 (failure "Failed to update user")).
Proof.
  intros Hb. apply binds_false in Hb as [e He]. rewrite users_put_unfold, He.
  cbn [statement]. by rewrite (bound_not_unique _ _ He).
Qed.


(** A UNIQUE violation raised by a user update is answered with 400. *)
Lemma users_put_duplicate d id b u v un :
  u ∈ rows (users d) -> id_matches id (u_id u) = true ->
  v ∈ rows (users d) -> id_matches id (u_id v) = false -> username v = Some un ->
  field b "username" = VStr un -> binds (PutUsers id b) = true ->
  users_put None id b d = (d, Responded 400 (failure "Username already exists")).
Proof.
  intros Hu Hid Hv Hvid Hvn Hb Hbinds. apply binds_true in Hbinds as [vals Hvals].
  rewrite users_put_unfold, Hvals. cbn [statement run]. unfold update_user.
  rewrite (bound_put_username id b vals) by (by rewrite ?Hb). rewrite Hb. cbn [plain_text].
  rewrite (taken_some un (fun r => id_matches id (u_id r)) _ v Hv Hvid Hvn).
  replace (existsb _ _) with true; [done |]. symmetry.
  apply existsb_exists. exists u. split; [by apply list_elem_of_In | done].
Qed.

(** Renaming [bob] to [admin] is refused and changes nothing. *)
Example users_put_taken_username :
  users_put None (Some 2%Z) (profile_body "admin" "Bob" "editor") two_users_db =
    (two_users_db, Responded 400 (failure "Username already exists")).
Proof.
  apply (users_put_duplicate two_users_db (Some 2%Z) _ editor_row admin_row "admin").
  - apply list_elem_of_further, list_elem_of_here.
  - reflexivity.
  - apply list_elem_of_here.
  - reflexivity.
  - reflexivity.
  - reflexivity.
  - reflexivity.
Qed.

Lemma field_credentials un pw :
  field (credentials_body un pw) "username" = VStr un /\
  field (credentials_body un pw) "password" = VStr pw.
Proof.
  unfold credentials_body. split.
  - apply field_insert_eq.
  - rewrite field_insert_ne by done. apply field_insert_eq.
Qed.

Lemma login_credentials_body un pw d :
  login None (credentials_body un pw) d =
    match find (credentials (Some un) (Some pw)) (rows (users d)) with
    | Some user =>
        (d, Responded 200 (JObj [("success", JBool true); ("user", public_user user)]))
    | None => (d, Responded 401 (failure "Invalid credentials"))
    end.
Proof.
  destruct (field_credentials un pw) as [Hu Hp].
  rewrite login_scalar by (by rewrite ?Hu, ?Hp). by rewrite Hu, Hp.
Qed.

End UsersFacts.

(** C3, as the code has it.  Whatever the users collection holds, a
    [POST /api/users] whose username is a string that is the username of
    an existing user leaves the store exactly as it was, so the number of
    users is the same.  It is answered with the 400 error and its message
    when the values of the request bind to the statement, as they do when
    password, name and role are each a string, a number, [null] or
    absent; when they do not bind, it is answered with the 500 error of
    the handler. *)
Theorem users_post_duplicate (d : db) (b : body) (u : user) (un : string) :
  u ∈ rows (users d) -> username u = Some un -> field b "username" = VStr un ->
  (users_post None b d).1 = d /\
  (binds (PostUsers b) = true ->
     users_post None b d = (d, Responded 400 (failure "Username already exists"))) /\
  (plain (field b "password") = true -> plain (field b "name") = true ->
   plain (js_or (field b "role") (VStr "editor")) = true ->
     users_post None b d = (d, Responded 400 (failure "Username already exists"))) /\
  (binds (PostUsers b) = false ->
     users_post None b d = (d, Responded 500 (failure "Failed to create user"))).
Proof.
  intros Hin Hun Hb.
  assert (H400 : binds (PostUsers b) = true ->
            users_post None b d = (d, Responded 400 (failure "Username already exists"))).
  { intros Hbinds. apply binds_true in Hbinds as [vals Hvals].
    rewrite users_post_unfold, Hvals. cbn [statement run]. unfold insert_user.
    rewrite (bound_post_username b vals) by (by rewrite ?Hb). rewrite Hb. cbn [plain_text].
    by rewrite (taken_some un (fun _ => false) _ u Hin eq_refl Hun). }
  split_and!.
  - destruct (binds (PostUsers b)) eqn:Hbinds.
    + by rewrite H400.
    + by rewrite users_post_unbound.
  - exact H400.
  - intros Hp Hn Hr. apply H400. apply binds_plain.
    unfold plain_fields. cbn [arguments forallb]. by rewrite Hb, Hp, Hn, Hr.
  - apply users_post_unbound.
Qed.

Lemma users_post_duplicate_witness :
  users_post None (credentials_body "admin" "other") seeded_db =
    (seeded_db, Responded 400 (failure "Username already exists")) /\
  users_post None (boolean_password "admin") seeded_db =
    (seeded_db, Responded 500 (failure "Failed to create user")).
Proof.
  split.
  - apply (users_post_duplicate seeded_db (credentials_body "admin" "other")
             admin_row "admin").
    + rewrite seeded_db_users. apply list_elem_of_here.
    + reflexivity.
    + reflexivity.
    + reflexivity.
    + reflexivity.
    + reflexivity.
  - apply (users_post_duplicate seeded_db (boolean_password "admin") admin_row "admin").
    + rewrite seeded_db_users. apply list_elem_of_here.
    + reflexivity.
    + reflexivity.
    + reflexivity.
Defined.

(** With the password [true] and the username of the administrator, the
    answer is the 500 error, not the 400 one. *)
Lemma users_post_duplicate_counterexample :
  ~ (forall (d : db) (b : body) (u : user) (un : string),
       u ∈ rows (users d) -> username u = Some un -> field b "username" = VStr un ->
       users_post None b d = (d, Responded 400 (failure "Username already exists"))).
Proof.
  intros H.
  assert (Hin : admin_row ∈ rows (users seeded_db)).
  { rewrite seeded_db_users. apply list_elem_of_here. }
  specialize (H seeded_db (boolean_password "admin") admin_row "admin" Hin eq_refl eq_refl).
  vm_compute in H. discriminate H.
Qed.

(** C7, as the code has it.  For each of the three collections and every
    [:id] that is the id of no row, the delete is answered with the plain
    success and leaves the whole store exactly as it was; in particular so
    does deleting a team member that does not exist.  The update leaves
    the store as it was, too; it is answered with the plain success when
    the values of the request bind to the statement, as they do when each
    field is a string, a number, [null] or absent, and with status 500
    when they do not. *)
Theorem missing_id_succeeds_silently (d : db) (id : option Z) (b : body) :
  ((forall r, r ∈ rows (users d) -> id_matches id (u_id r) = false) ->
     users_delete None id d = (d, Responded 200 success) /\
     (users_put None id b d).1 = d /\
     (binds (PutUsers id b) = true \/ plain_fields (PutUsers id b) = true ->
        users_put None id b d = (d, Responded 200 success)) /\
     (binds (PutUsers id b) = false ->
        users_put None id b d = (d, Responded 500 (failure "Failed to update user")))) /\
  ((forall r, r ∈ rows (services d) -> id_matches id (s_id r) = false) ->
     services_delete None id d = (d, Responded 200 success) /\
     (services_put None id b d).1 = d /\
     (binds (PutServices id b) = true \/ plain_fields (PutServices id b) = true ->
        services_put None id b d = (d, Responded 200 success)) /\
     (binds (PutServices id b) = false ->
        (respond None (PutServices id b) d).1 = 500%nat)) /\
  ((forall r, r ∈ rows (team d) -> id_matches id (m_id r) = false) ->
     team_delete None id d = (d, Responded 200 success) /\
     (team_put None id b d).1 = d /\
     (binds (PutTeam id b) = true \/ plain_fields (PutTeam id b) = true ->
        team_put None id b d = (d, Responded 200 success)) /\
     (binds (PutTeam id b) = false ->
        (respond None (PutTeam id b) d).1 = 500%nat)).
Proof.
  split_and!; intros Hnone.
  - assert (H200 : binds (PutUsers id b) = true ->
              users_put None id b d = (d, Responded 200 success)).
    { intros Hb. apply binds_true in Hb as [vals Hvals].
      rewrite users_put_unfold, Hvals. cbn [statement run]. unfold update_user.
      rewrite (existsb_none _ _ Hnone). cbn [andb].
      by rewrite (update_where_none _ _ _ Hnone), set_users_same. }
    split_and!.
    + unfold users_delete. simpl.
      by rewrite (delete_where_none _ _ Hnone), set_users_same.
    + destruct (binds (PutUsers id b)) eqn:Hb;
        [by rewrite H200 | by rewrite users_put_unbound].
    + intros [Hb | Hp]; apply H200; [done | by apply binds_plain].
    + apply users_put_unbound.
  - assert (H200 : binds (PutServices id b) = true ->
              services_put None id b d = (d, Responded 200 success)).
    { intros Hb. apply binds_true in Hb as [vals Hvals].
      rewrite services_put_unfold, Hvals. cbn [statement run].
      by rewrite (update_where_none _ _ _ Hnone), set_services_same. }
    split_and!.
    + unfold services_delete. simpl.
      by rewrite (delete_where_none _ _ Hnone), set_services_same.
    + destruct (binds (PutServices id b)) eqn:Hb; [by rewrite H200 |].
      apply binds_false in Hb as [e He]. by rewrite services_put_unfold, He.
    + intros [Hb | Hp]; apply H200; [done | by apply binds_plain].
    + intros Hb. apply binds_false in Hb as [e He].
      unfold respond. cbn [serve]. by rewrite services_put_unfold, He.
  - assert (H200 : binds (PutTeam id b) = true ->
              team_put None id b d = (d, Responded 200 success)).
    { intros Hb. apply binds_true in Hb as [vals Hvals].
      rewrite team_put_unfold, Hvals. cbn [statement run].
      by rewrite (update_where_none _ _ _ Hnone), set_team_same. }
    split_and!.
    + unfold team_delete. simpl.
      by rewrite (delete_where_none _ _ Hnone), set_team_same.
    + destruct (binds (PutTeam id b)) eqn:Hb; [by rewrite H200 |].
      apply binds_false in Hb as [e He]. by rewrite team_put_unfold, He.
    + intros [Hb | Hp]; apply H200; [done | by apply binds_plain].
    + intros Hb. apply binds_false in Hb as [e He].
      unfold respond. cbn [serve]. by rewrite team_put_unfold, He.
Qed.

Lemma missing_id_succeeds_silently_witness :
  team_delete None (Some 99%Z) seeded_db = (seeded_db, Responded 200 success) /\
  team_put None None ∅ seeded_db = (seeded_db, Responded 200 success) /\
  (respond None (PutTeam (Some 99%Z) boolean_name) seeded_db).1 = 500%nat /\
  services_delete None (Some 7%Z) seeded_db = (seeded_db, Responded 200 success) /\
  users_put None (Some 2%Z) (credentials_body "admin" "x") seeded_db =
    (seeded_db, Responded 200 success).
Proof.
  assert (Hteam : forall r, r ∈ rows (team seeded_db) ->
                            id_matches (Some 99%Z) (m_id r) = false).
  { intros r Hr. apply list_elem_of_In in Hr. vm_compute in Hr.
    repeat (destruct Hr as [<- | Hr]; [reflexivity |]). destruct Hr. }
  split_and!.
  - by apply (missing_id_succeeds_silently seeded_db (Some 99%Z) ∅).
  - apply (missing_id_succeeds_silently seeded_db None ∅); [reflexivity |].
    by right.
  - by apply (missing_id_succeeds_silently seeded_db (Some 99%Z) boolean_name).
  - apply (missing_id_succeeds_silently seeded_db (Some 7%Z) ∅).
    intros r Hr. apply list_elem_of_In in Hr. vm_compute in Hr.
    repeat (destruct Hr as [<- | Hr]; [reflexivity |]). destruct Hr.
  - apply (missing_id_succeeds_silently seeded_db (Some 2%Z)
             (credentials_body "admin" "x")).
    + intros r Hr. rewrite seeded_db_users in Hr.
      apply list_elem_of_singleton in Hr. by subst r.
    + by right.
Defined.

(** An update of a team member that does not exist, with the name
    [true], is not answered with a success. *)
Lemma missing_id_succeeds_silently_counterexample :
  ~ (forall (d : db) (id : option Z) (b : body),
       (forall r, r ∈ rows (team d) -> id_matches id (m_id r) = false) ->
       (respond None (PutTeam id b) d).1 = 200%nat).
Proof.
  intros H. specialize (H seeded_db (Some 99%Z) boolean_name).
  assert (Hteam : forall r, r ∈ rows (team seeded_db) ->
                            id_matches (Some 99%Z) (m_id r) = false).
  { intros r Hr. apply list_elem_of_In in Hr. vm_compute in Hr.
    repeat (destruct Hr as [<- | Hr]; [reflexivity |]). destruct Hr. }
  specialize (H Hteam). vm_compute in H. discriminate H.
Qed.

Section PutFacts.

Lemma users_put_cases io id b d :
  (exists e, users_put io id b d = (d, Responded (if is_unique_violation e then 400 else 500)
                                       (failure (if is_unique_violation e
                                                 then "Username already exists"
                                                 else "Failed to update user")))) \/
  (io = None /\ exists vals,
   bound (PutUsers id b) = Ok vals /\
   taken (param vals 0) (fun r => id_matches id (u_id r)) (rows (users d))
     && existsb (fun r => id_matches id (u_id r)) (rows (users d)) = false /\
   users_put io id b d =
     (set_users d (update_where (fun r => id_matches id (u_id r))
                     (put_row (truthy (field b "password")) vals) (users d)),
      Responded 200 success)).
Proof.
  rewrite users_put_unfold.
  destruct (bound (PutUsers id b)) as [vals|e'] eqn:Hb; cbn [statement].
  - destruct io as [e|]; cbn [run].
    + left. exists e. by destruct (is_unique_violation e).
    + unfold update_user.
      destruct (existsb _ _ && taken _ _ _) eqn:Hc; cbn [is_unique_violation].
      * left. by exists unique_violation.
      * right. split; [done |]. exists vals. split; [done |].
        split; [| done]. by rewrite andb_comm.
  - left. exists e'. by destruct (is_unique_violation e').
Qed.

Lemma put_row_id wp vals r : u_id (put_row wp vals r) = u_id r.
Proof. by destruct wp. Qed.

Lemma put_row_username wp vals r : username (put_row wp vals r) = param vals 0.
Proof. by destruct wp. Qed.

Lemma put_row_password vals r : password (put_row false vals r) = password r.
Proof. reflexivity. Qed.

(** Without arrays and objects among its fields, an update that binds
    writes the fields themselves. *)
Lemma put_row_scalar id b vals r :
  scalar_fields (PutUsers id b) = true -> bound (PutUsers id b) = Ok vals ->
  put_row (truthy (field b "password")) vals r = plain_put_row b r /\
  param vals 0 = plain_text (field b "username") /\
  (truthy (field b "password") = true -> plain (field b "password") = true).
Proof.
  intros Hs Hb. destruct (bound_scalar _ _ Hs Hb) as [Hp ->].
  unfold plain_put_row, plain_fields in *. cbn [arguments] in *.
  destruct (truthy (field b "password")); cbn [forallb] in Hp |- *.
  - split_and!; [done | done |]. intros _.
    apply andb_true_iff in Hp as [_ Hp]. by apply andb_true_iff in Hp as [Hp _].
  - split_and!; [done | done | discriminate].
Qed.

Lemma scalar_fields_put id b :
  scalar (field b "username") = true -> scalar (field b "password") = true ->
  scalar (field b "name") = true -> scalar (field b "role") = true ->
  scalar_fields (PutUsers id b) = true.
Proof.
  intros Hu Hp Hn Hr. unfold scalar_fields. cbn [arguments].
  destruct (truthy (field b "password")); cbn [forallb]; by rewrite ?Hu, ?Hp, ?Hn, ?Hr.
Qed.

Lemma map_password_update id vals (l : list user) :
  map password (map (fun r => if id_matches id (u_id r) then put_row false vals r else r) l)
  = map password l.
Proof.
  induction l as [|r l IH]; [done |]. cbn [map]. rewrite IH. f_equal.
  by destruct (id_matches id (u_id r)).
Qed.

Lemma id_matches_true id i j :
  id_matches id i = true -> id_matches id j = true -> i = j.
Proof.
  destruct id as [z|]; simpl; [| discriminate].
  intros H1 H2. apply Z.eqb_eq in H1, H2. congruence.
Qed.

Lemma taken_false un self (l : list user) (v : user) :
  taken un self l = false -> v ∈ l -> self v = false -> sql_eq (username v) un = false.
Proof.
  unfold taken. intros Ht Hv Hself.
  destruct (sql_eq (username v) un) eqn:Heq; [| done].
  assert (existsb (fun r => negb (self r) && sql_eq (username r) un) l = true); [| congruence].
  apply existsb_exists. exists v. split; [by apply list_elem_of_In |].
  by rewrite Hself, Heq.
Qed.

(** After an update that went through, the new username and a password
    select the updated row and no other. *)
Lemma find_updated id (f : user -> user) (l : list user) (u : user) un pw :
  NoDup (map u_id l) -> u ∈ l -> id_matches id (u_id u) = true ->
  taken (Some un) (fun r => id_matches id (u_id r)) l = false ->
  username (f u) = Some un -> password (f u) = Some pw ->
  find (credentials (Some un) (Some pw))
       (map (fun r => if id_matches id (u_id r) then f r else r) l)
  = Some (f u).
Proof.
  intros Hnd Hin Hid Htaken Hun Hpw.
  destruct (list_elem_of_split _ _ Hin) as (l1 & l2 & ->).
  rewrite map_app. cbn [map]. rewrite Hid.
  apply find_app_first.
  - intros v' Hv'. apply list_elem_of_In, in_map_iff in Hv' as (v & <- & Hv).
    apply list_elem_of_In in Hv.
    assert (Hne : id_matches id (u_id v) = false).
    { destruct (id_matches id (u_id v)) eqn:Hv2; [| done]. exfalso.
      pose proof (id_matches_true _ _ _ Hid Hv2) as Heq.
      rewrite map_app in Hnd. cbn [map] in Hnd.
      apply NoDup_app in Hnd as (_ & Hdisj & _).
      apply (Hdisj (u_id v)).
      - apply list_elem_of_In, in_map. by apply list_elem_of_In.
      - rewrite Heq. apply list_elem_of_here. }
    rewrite Hne. unfold credentials.
    rewrite (taken_false _ _ _ v Htaken); [done | | done].
    apply elem_of_app. by left.
  - unfold credentials. rewrite Hpw, Hun. by rewrite !sql_eq_refl.
Qed.

End PutFacts.

(** C4, as the code has it.  A [PUT /api/users/:id] without a password
    (or with a falsy one) leaves every stored password as it was.  When
    the update goes through and none of username, password, name and role
    is an array or an object, the addressed row gets the username, name
    and role of the request (NULL for a field that is [null] or absent),
    and its password is replaced exactly when the request carries one that
    is not falsy; if moreover the request had no such password, its
    username is a string, the ids are distinct and the user had a
    password, that username together with the previous password logs the
    user in. *)
Theorem users_put_password (d : db) (id : option Z) (b : body) :
  let d' := (users_put None id b d).1 in
  (truthy (field b "password") = false ->
     map password (rows (users d')) = map password (rows (users d))) /\
  (users_put None id b d = (d', Responded 200 success) ->
   scalar (field b "username") = true -> scalar (field b "password") = true ->
   scalar (field b "name") = true -> scalar (field b "role") = true ->
     rows (users d') =
       map (fun r => if id_matches id (u_id r)
                     then {| u_id := u_id r;
                             username := plain_text (field b "username");
                             password := if truthy (field b "password")
                                         then plain_text (field b "password")
                                         else password r;
                             name := plain_text (field b "name");
                             role := plain_text (field b "role") |}
                     else r) (rows (users d)) /\
     (forall u un pw,
        truthy (field b "password") = false -> primary_key d ->
        u ∈ rows (users d) -> id_matches id (u_id u) = true ->
        password u = Some pw -> field b "username" = VStr un ->
        login None (credentials_body un pw) d' =
          (d', Responded 200
                 (JObj [("success", JBool true);
                        ("user", JObj [("id", JNum (u_id u));
                                       ("name", json_of_sql (plain_text (field b "name")));
                                       ("username", JStr un);
                                       ("role",
                                        json_of_sql (plain_text (field b "role")))])])))).
Proof.
  intros d'. subst d'.
  destruct (users_put_cases None id b d) as [[e He] | (_ & vals & Hb & Hc & Hput)].
  - rewrite He. simpl. split; [done |].
    intros Hs. destruct (is_unique_violation e); discriminate Hs.
  - rewrite Hput. cbn [fst set_users users update_where rows]. split.
    + intros Hpw. rewrite Hpw. by apply map_password_update.
    + intros _ Hsu Hsp Hsn Hsr.
      pose proof (scalar_fields_put id b Hsu Hsp Hsn Hsr) as Hs.
      assert (Hrows : map (fun r => if id_matches id (u_id r)
                                    then put_row (truthy (field b "password")) vals r
                                    else r) (rows (users d)) =
                      map (fun r => if id_matches id (u_id r) then plain_put_row b r else r)
                          (rows (users d))).
      { apply map_ext. intros r.
        by rewrite (proj1 (put_row_scalar id b vals r Hs Hb)). }
      rewrite Hrows. split; [done |].
      intros u un pw Hpw Hpk Hin Hid Hstored Hun.
      rewrite login_credentials_body. cbn [set_users users update_where rows].
      rewrite Hrows.
      assert (Hex : existsb (fun r => id_matches id (u_id r)) (rows (users d)) = true).
      { apply existsb_exists. exists u. split; [by apply list_elem_of_In | done]. }
      rewrite Hex, andb_true_r in Hc.
      rewrite (proj1 (proj2 (put_row_scalar id b vals u Hs Hb))), Hun in Hc. simpl in Hc.
      rewrite (find_updated id (plain_put_row b) _ u un pw); try done.
      * unfold public_user, plain_put_row. simpl. by rewrite Hun.
      * unfold plain_put_row. simpl. by rewrite Hun.
      * unfold plain_put_row. simpl. by rewrite Hpw.
Qed.

Lemma users_put_password_witness :
  let b := profile_body "root" "Root" "admin" in
  let d' := (users_put None (Some 1%Z) b seeded_db).1 in
  map password (rows (users d')) = [Some "123456"] /\
  login None (credentials_body "root" "123456") d' =
    (d', Responded 200
           (JObj [("success", JBool true);
                  ("user", JObj [("id", JNum 1); ("name", JStr "Root");
                                 ("username", JStr "root"); ("role", JStr "admin")])])).
Proof.
  intros b d'.
  destruct (users_put_password seeded_db (Some 1%Z) b) as [Hkeep Hdone].
  split.
  - apply Hkeep. reflexivity.
  - destruct Hdone as [_ Hlogin]; [reflexivity .. |].
    apply (Hlogin admin_row "root" "123456").
    + reflexivity.
    + unfold primary_key. rewrite seeded_db_users. decide_names.
    + rewrite seeded_db_users. apply list_elem_of_here.
    + reflexivity.
    + reflexivity.
    + reflexivity.
Defined.

(** A password that is supplied but empty does not replace the stored
    one: after [PUT /api/users/1] with password [""] on the seeded store,
    the password of user 1 is still ["123456"]. *)
Lemma users_put_password_counterexample :
  ~ (forall (d : db) (id : option Z) (b : body) (u : user) (pw : string),
       u ∈ rows (users d) -> id_matches id (u_id u) = true ->
       field b "password" = VStr pw ->
       forall u', u' ∈ rows (users (users_put None id b d).1) ->
                  u_id u' = u_id u -> password u' = Some pw).
Proof.
  intros H.
  pose (u' := {| u_id := 1; username := Some "admin"; password := Some "123456";
                 name := None; role := None |}).
  assert (Hin : admin_row ∈ rows (users seeded_db)).
  { rewrite seeded_db_users. apply list_elem_of_here. }
  assert (Hin' : u' ∈ rows (users (users_put None (Some 1%Z)
                                     (credentials_body "admin" "") seeded_db).1)).
  { vm_compute. apply list_elem_of_here. }
  specialize (H seeded_db (Some 1%Z) (credentials_body "admin" "") admin_row ""
                Hin eq_refl eq_refl u' Hin' eq_refl).
  discriminate H.
Qed.

Section FalsyPassword.

Lemma lookup_map {A B : Type} (f : A -> B) (l : list A) (k : nat) :
  map f l !! k = f <$> (l !! k).
Proof.
  revert k. induction l as [|x l IH]; intros [|k]; simpl; done.
Qed.

(** Where no field is an array or an object, an update writes an empty
    password only over an empty password. *)
Lemma put_row_empty_password id b vals r :
  scalar_fields (PutUsers id b) = true -> bound (PutUsers id b) = Ok vals ->
  password (put_row (truthy (field b "password")) vals r) = Some "" ->
  password r = Some "".
Proof.
  intros Hs Hb. destruct (put_row_scalar id b vals r Hs Hb) as (-> & _ & Hplain).
  unfold plain_put_row. cbn [password].
  destruct (truthy (field b "password")) eqn:Ht; [| done].
  destruct (truthy_plain_nonempty _ Ht (Hplain eq_refl)) as (s & -> & Hs'). congruence.
Qed.

End FalsyPassword.

(** C10, as the code has it.  A [PUT /api/users/:id] whose password is
    present but falsy (the empty string, [null], [false] or zero) does what
    the same request without the password field does, and leaves every
    stored password as it was; and no [PUT /api/users/:id] in which none
    of username, password, name and role is an array or an object makes a
    stored password empty that was not empty before. *)
Theorem users_put_falsy_password (io : option error) (id : option Z) (b : body)
    (d : db) :
  (truthy (field b "password") = false ->
     users_put io id b d = users_put io id (delete "password" b) d /\
     map password (rows (users (users_put io id b d).1)) =
       map password (rows (users d))) /\
  (scalar (field b "username") = true -> scalar (field b "password") = true ->
   scalar (field b "name") = true -> scalar (field b "role") = true ->
   forall k u',
     rows (users (users_put io id b d).1) !! k = Some u' -> password u' = Some "" ->
     exists u, rows (users d) !! k = Some u /\ u_id u = u_id u' /\ password u = Some "").
Proof.
  split.
  - intros Hf. split.
    + unfold users_put. cbv zeta.
      rewrite field_delete_eq, !field_delete_ne by done.
      rewrite Hf. reflexivity.
    + destruct (users_put_cases io id b d) as [[e He] | (_ & vals & _ & _ & Hput)].
      * by rewrite He.
      * rewrite Hput, Hf. simpl. by apply map_password_update.
  - intros Hsu Hsp Hsn Hsr k u' Hk Hempty.
    pose proof (scalar_fields_put id b Hsu Hsp Hsn Hsr) as Hs.
    destruct (users_put_cases io id b d) as [[e He] | (_ & vals & Hb & _ & Hput)].
    + rewrite He in Hk. simpl in Hk. by exists u'.
    + rewrite Hput in Hk. cbn [fst set_users users update_where rows] in Hk.
      rewrite lookup_map in Hk.
      destruct (rows (users d) !! k) as [r|]; [| discriminate].
      simpl in Hk. injection Hk as <-. exists r. split; [done |].
      destruct (id_matches id (u_id r)); [| done].
      split; [by rewrite put_row_id |]. by apply (put_row_empty_password id b vals).
Qed.

Lemma users_put_falsy_password_witness :
  users_put None (Some 1%Z) (credentials_body "admin" "") seeded_db =
    users_put None (Some 1%Z) (delete "password" (credentials_body "admin" "")) seeded_db /\
  map password (rows (users (users_put None (Some 1%Z)
                                (credentials_body "admin" "") seeded_db).1)) =
    [Some "123456"].
Proof.
  apply (users_put_falsy_password None (Some 1%Z) (credentials_body "admin" "")
           seeded_db).
  reflexivity.
Defined.

(** A password that is an array with the empty string in it is truthy,
    and is bound as the empty string: after [PUT /api/users/1] with
    password [[""]] on the seeded store, the password of user 1 is
    empty. *)
Lemma users_put_falsy_password_counterexample :
  ~ (forall (id : option Z) (b : body) (d : db) (k : nat) (u' : user),
       rows (users (users_put None id b d).1) !! k = Some u' -> password u' = Some "" ->
       exists u, rows (users d) !! k = Some u /\ password u = Some "").
Proof.
  intros H.
  destruct (H (Some 1%Z) (array_password "admin" [VStr ""]) seeded_db 0%nat
              {| u_id := 1; username := Some "admin"; password := Some "";
                 name := None; role := None |})
    as (u & Hu & Hpw).
  - vm_compute. reflexivity.
  - reflexivity.
  - vm_compute in Hu. injection Hu as <-. discriminate Hpw.
Qed.

(** ** Failures of the store *)

Section Failures.

Lemma unique_violation_is_unique : is_unique_violation unique_violation = true.
Proof. reflexivity. Qed.

(** When the store fails under a create, update or delete of a service
    or of a team member, nothing in the handler catches the failure: the
    error leaves it as it came, and the store is unchanged. *)
Lemma services_team_failure_thrown (e : error) (id : option Z) (b : body) (d : db) :
  (binds (PostServices b) = true -> services_post (Some e) b d = (d, Threw e)) /\
  (binds (PutServices id b) = true -> services_put (Some e) id b d = (d, Threw e)) /\
  services_delete (Some e) id d = (d, Threw e) /\
  (binds (PostTeam b) = true -> team_post (Some e) b d = (d, Threw e)) /\
  (binds (PutTeam id b) = true -> team_put (Some e) id b d = (d, Threw e)) /\
  team_delete (Some e) id d = (d, Threw e).
Proof.
  split_and!; try reflexivity; intros Hb; apply binds_true in Hb as [vals Hvals].
  - by rewrite services_post_unfold, Hvals.
  - by rewrite services_put_unfold, Hvals.
  - by rewrite team_post_unfold, Hvals.
  - by rewrite team_put_unfold, Hvals.
Qed.

(** The same failure at the same moment, for a user and for a service. *)
Lemma failure_of_users_and_services :
  users_delete (Some io_error) (Some 1%Z) seeded_db =
    (seeded_db, Responded 500 (failure "Failed to delete user")) /\
  services_delete (Some io_error) (Some 1%Z) seeded_db = (seeded_db, Threw io_error).
Proof. split; reflexivity. Qed.

(** The list handlers have no [catch] either. *)
Lemma read_failure_thrown (e : error) (d : db) :
  users_get (Some e) d = (d, Threw e) /\
  services_get (Some e) d = (d, Threw e) /\
  team_get (Some e) d = (d, Threw e).
Proof. split_and!; reflexivity. Qed.


End Failures.


(** ** Uploads *)

Section UploadFacts.

Lemma digits_of_uint (u : Decimal.uint) :
  forallb is_digit (list_ascii_of_string (NilEmpty.string_of_uint u)) = true.
Proof. induction u; simpl; try done. Qed.

Lemma string_of_uint_is_number (u : Decimal.uint) :
  is_number (NilZero.string_of_uint u) = true.
Proof.
  unfold is_number.
  destruct u; try reflexivity;
    (apply andb_true_intro; split;
     [reflexivity | apply (digits_of_uint (_ u))]).
Qed.

(** A time or a random integer that is not negative is written with
    digits only. *)
Lemma decimal_is_number (n : Z) : (0 <= n)%Z -> is_number (decimal n) = true.
Proof.
  intros Hn. unfold decimal. destruct n as [|p|p]; [reflexivity | | lia].
  apply string_of_uint_is_number.
Qed.

End UploadFacts.

(** C9. For every upload request: when multer reports a failure, the
    response is 500 with the message of the failure; when no file came
    under the field [image], the response is 400; otherwise the response
    is a success whose [imageUrl] is [/uploads/] followed by the time in
    milliseconds, a dash, the random integer, and the extension of the
    original name, the time and the integer being written in digits. *)
Theorem upload_responses (extname : string -> string) (now rnd : Z) (m : multer) :
  match m with
  | Failed err =>
      upload extname now rnd m =
        Responded 500 (JObj [("success", JBool false); ("message", JStr (message err))])
  | NoFile =>
      upload extname now rnd m =
        Responded 400 (JObj [("success", JBool false); ("message", JStr "No file uploaded")])
  | Stored originalname =>
      upload extname now rnd m =
        Responded 200
          (JObj [("success", JBool true);
                 ("imageUrl",
                  JStr ("/uploads/" +:+
                        (decimal now +:+ "-" +:+ decimal rnd) +:+ extname originalname))]) /\
      ((0 <= now)%Z -> (0 <= rnd)%Z ->
         is_number (decimal now) = true /\ is_number (decimal rnd) = true)
  end.
Proof.
  destruct m as [err| |originalname]; try reflexivity.
  split; [reflexivity |]. intros Hnow Hrnd.
  split; by apply decimal_is_number.
Qed.

Lemma upload_responses_witness :
  upload (fun _ => ".png") 1700000000000 123456789 (Stored "photo.png") =
    Responded 200 (JObj [("success", JBool true);
                         ("imageUrl", JStr "/uploads/1700000000000-123456789.png")]) /\
  is_number (decimal 1700000000000) = true /\ is_number (decimal 123456789) = true.
Proof.
  destruct (upload_responses (fun _ => ".png") 1700000000000 123456789
              (Stored "photo.png")) as [Hup Hnum].
  split; [exact Hup |]. apply Hnum; lia.
Defined.

(** ** The constraints are kept *)

Section Constraints.

Lemma rowid_le_max {R : Type} `{Row R} (l : list R) (r : R) :
  r ∈ l -> (rowid r <= max_rowid l)%Z.
Proof.
  induction l as [|x l IH]; intros Hr; [inversion Hr |].
  apply elem_of_cons in Hr as [-> | Hr]; simpl; [lia |].
  specialize (IH Hr). lia.
Qed.

Lemma insert_user_constraints un pw nm rl (t : table user) i t' :
  NoDup (map u_id (rows t)) -> NoDup (omap username (rows t)) ->
  insert_user un pw nm rl t = Ok (i, t') ->
  NoDup (map u_id (rows t')) /\ NoDup (omap username (rows t')).
Proof.
  intros Hpk Huniq. unfold insert_user.
  destruct (taken un (fun _ => false) (rows t)) eqn:Htaken; [discriminate |].
  intros [= <- <-]. cbn [rows]. split.
  - rewrite map_app. apply NoDup_app. split_and!; [done | | apply NoDup_singleton].
    intros x Hx Hx'. apply list_elem_of_singleton in Hx'. subst x.
    apply list_elem_of_In, in_map_iff in Hx as (r & Hr & Hin).
    apply list_elem_of_In in Hin. pose proof (rowid_le_max _ _ Hin) as Hle.
    change (rowid r) with (u_id r) in Hle. cbn [u_id] in Hr.
    unfold next_rowid in Hr. lia.
  - rewrite omap_app. simpl. destruct un as [s|]; simpl; [| by rewrite app_nil_r].
    apply NoDup_app. split_and!; [done | | apply NoDup_singleton].
    intros x Hx Hx'. apply list_elem_of_singleton in Hx'. subst x.
    apply list_elem_of_omap in Hx as (r & Hin & Hr).
    pose proof (taken_false _ _ _ r Htaken Hin eq_refl) as Hne.
    rewrite Hr, sql_eq_refl in Hne. discriminate.
Qed.

Lemma NoDup_app_drop {A : Type} (a b c : list A) :
  NoDup (a ++ b ++ c) -> NoDup (a ++ c).
Proof.
  rewrite !NoDup_app. intros (Ha & Hdisj & Hb & _ & Hc). split_and!; try done.
  intros x Hx Hx'. apply (Hdisj x Hx). apply elem_of_app. by right.
Qed.

Lemma omap_one (r : user) : omap username [r] = option_list (username r).
Proof. simpl. by destruct (username r). Qed.

Lemma update_user_constraints id un f (t t' : table user) :
  (forall r, u_id (f r) = u_id r) -> (forall r, username (f r) = un) ->
  NoDup (map u_id (rows t)) -> NoDup (omap username (rows t)) ->
  update_user id un f t = Ok t' ->
  NoDup (map u_id (rows t')) /\ NoDup (omap username (rows t')).
Proof.
  intros Hfid Hfun Hpk Huniq. unfold update_user.
  set (self := fun r => id_matches id (u_id r)).
  destruct (existsb self (rows t)) eqn:Hex; simpl.
  - destruct (taken un self (rows t)) eqn:Htaken; [discriminate |].
    intros [= <-]. cbn [update_where rows].
    apply existsb_exists in Hex as (u & Hin & Hu). apply list_elem_of_In in Hin.
    destruct (list_elem_of_split _ _ Hin) as (l1 & l2 & Hsplit).
    rewrite Hsplit in Hpk, Huniq, Htaken |- *.
    assert (Hothers : forall v, v ∈ l1 ++ l2 -> self v = false).
    { intros v Hv. destruct (self v) eqn:Hv2; [| done]. exfalso.
      pose proof (id_matches_true _ _ _ Hu Hv2) as Heq.
      rewrite map_app in Hpk. cbn [map] in Hpk.
      change (map u_id l1 ++ u_id u :: map u_id l2)
        with (map u_id l1 ++ [u_id u] ++ map u_id l2) in Hpk.
      apply NoDup_app in Hpk as (_ & Hd1 & Hpk).
      apply NoDup_app in Hpk as (_ & Hd2 & _).
      apply elem_of_app in Hv as [Hv | Hv].
      - apply (Hd1 (u_id v)).
        + apply list_elem_of_In, in_map. by apply list_elem_of_In.
        + rewrite <- Heq. apply elem_of_app. left. apply list_elem_of_here.
      - apply (Hd2 (u_id u)); [apply list_elem_of_here |].
        rewrite Heq. apply list_elem_of_In, in_map. by apply list_elem_of_In. }
    assert (Hmap : map (fun r => if self r then f r else r) (l1 ++ u :: l2)
                   = l1 ++ f u :: l2).
    { rewrite map_app. cbn [map]. rewrite Hu. f_equal; [| f_equal].
      - rewrite <- (map_id l1) at 2. apply map_ext_in. intros v Hv.
        rewrite Hothers; [done |]. apply elem_of_app. left. by apply list_elem_of_In.
      - rewrite <- (map_id l2) at 2. apply map_ext_in. intros v Hv.
        rewrite Hothers; [done |]. apply elem_of_app. right. by apply list_elem_of_In. }
    rewrite Hmap. split.
    + rewrite map_app in Hpk |- *. cbn [map] in Hpk |- *. by rewrite Hfid.
    + change (l1 ++ u :: l2) with (l1 ++ [u] ++ l2) in Huniq.
      rewrite !omap_app in Huniq. apply NoDup_app_drop in Huniq.
      change (l1 ++ f u :: l2) with (l1 ++ [f u] ++ l2).
      rewrite !omap_app, omap_one, Hfun.
      destruct un as [s|]; simpl; [| done].
      apply NoDup_app in Huniq as (H1 & Hd & H2).
      assert (Hfree : forall v, v ∈ l1 ++ l2 -> username v <> Some s).
      { intros v Hv Hvs.
        assert (Hv' : v ∈ l1 ++ u :: l2).
        { apply elem_of_app in Hv as [Hv | Hv]; apply elem_of_app;
            [by left | right; by apply list_elem_of_further]. }
        pose proof (taken_false _ _ _ v Htaken Hv' (Hothers v Hv)) as Hne.
        rewrite Hvs, sql_eq_refl in Hne. discriminate. }
      apply NoDup_app. split_and!; [done | |].
      * intros x Hx Hx'. apply elem_of_cons in Hx' as [-> | Hx'].
        -- apply list_elem_of_omap in Hx as (v & Hv & Hvs).
           apply (Hfree v); [apply elem_of_app; by left | done].
        -- by apply (Hd x).
      * apply NoDup_cons. split; [| done].
        intros Hx. apply list_elem_of_omap in Hx as (v & Hv & Hvs).
        apply (Hfree v); [apply elem_of_app; by right | done].
  - intros [= <-]. rewrite update_where_none; [done |].
    intros r Hr. destruct (self r) eqn:Hs; [| done].
    assert (existsb self (rows t) = true); [| congruence].
    apply existsb_exists. exists r. split; [by apply list_elem_of_In | done].
Qed.

Lemma filter_constraints (c : user -> bool) (l : list user) :
  NoDup (map u_id l) -> NoDup (omap username l) ->
  NoDup (map u_id (List.filter c l)) /\ NoDup (omap username (List.filter c l)).
Proof.
  induction l as [|r l IH]; [done |]. cbn [map List.filter]. intros Hpk Huniq.
  apply NoDup_cons in Hpk as [Hid Hpk].
  assert (Huniq' : NoDup (omap username l)).
  { simpl in Huniq. destruct (username r); [by apply NoDup_cons in Huniq as [_ ?] | done]. }
  destruct (IH Hpk Huniq') as [IH1 IH2]. destruct (c r); [| done]. split.
  - cbn [map]. apply NoDup_cons. split; [| done]. intros Hx. apply Hid.
    apply list_elem_of_In, in_map_iff in Hx as (v & Hv & Hin).
    apply filter_In in Hin as [Hin _]. apply list_elem_of_In, in_map_iff. by exists v.
  - simpl in Huniq |- *. destruct (username r) as [s|]; [| done].
    apply NoDup_cons in Huniq as [Hs _]. apply NoDup_cons. split; [| done].
    intros Hx. apply Hs. apply list_elem_of_omap in Hx as (v & Hv & Hvs).
    apply list_elem_of_In, filter_In in Hv as [Hv _].
    apply list_elem_of_omap. exists v. split; [by apply list_elem_of_In | done].
Qed.

Lemma omap_username_set_role rl (c : user -> bool) (l : list user) :
  omap username (map (fun r => if c r then set_role rl r else r) l) = omap username l.
Proof.
  assert (Hcons : forall (x : user) k,
            omap username (x :: k) = option_list (username x) ++ omap username k).
  { intros x k. simpl. by destruct (username x). }
  induction l as [|r l IH]; [done |]. cbn [map].
  rewrite !Hcons, IH. by destruct (c r).
Qed.

(** The store with which the server first starts satisfies the
    constraints, and the seeding and every users handler keep them. *)
Lemma constraints_empty : constraints empty_db.
Proof. split; apply NoDup_nil_2. Qed.


Lemma users_post_constraints io b d :
  constraints d -> constraints (users_post io b d).1.
Proof.
  intros [Hpk Huniq]. rewrite users_post_unfold.
  destruct (statement io _ _) as [[i t]|e] eqn:Hst.
  - unfold statement in Hst. destruct (bound (PostUsers b)) as [vals|]; [| discriminate].
    destruct io; [discriminate |]. cbn [run] in Hst.
    exact (insert_user_constraints _ _ _ _ _ _ _ Hpk Huniq Hst).
  - by destruct (is_unique_violation e).
Qed.

Lemma users_put_constraints io id b d :
  constraints d -> constraints (users_put io id b d).1.
Proof.
  intros [Hpk Huniq]. rewrite users_put_unfold.
  destruct (statement io _ _) as [t|e] eqn:Hst.
  - unfold statement in Hst. destruct (bound (PutUsers id b)) as [vals|]; [| discriminate].
    destruct io; [discriminate |]. cbn [run] in Hst.
    exact (update_user_constraints id (param vals 0)
             (put_row (truthy (field b "password")) vals)
             (users d) t (put_row_id _ vals) (put_row_username _ vals) Hpk Huniq Hst).
  - by destruct (is_unique_violation e).
Qed.

Lemma users_delete_constraints io id d :
  constraints d -> constraints (users_delete io id d).1.
Proof.
  intros [Hpk Huniq]. unfold users_delete. destruct io as [e|]; simpl; [done |].
  by apply filter_constraints.
Qed.

Lemma seed_constraints d d' : constraints d -> seed d = Ok d' -> constraints d'.
Proof.
  intros [Hpk Huniq]. unfold seed, seed_admin.
  destruct (find is_admin (rows (users d))) eqn:Hfind.
  - intros [= <-]. unfold constraints, primary_key, unique_usernames.
    rewrite seed_team_users, seed_services_users. cbn [set_users users update_where rows].
    split.
    + rewrite map_map. erewrite map_ext; [exact Hpk |].
      intros r. by destruct (is_admin r).
    + by rewrite omap_username_set_role.
  - destruct (insert_user _ _ _ _ (users d)) as [[i t]|e] eqn:Hins; [| discriminate].
    intros [= <-]. unfold constraints, primary_key, unique_usernames.
    rewrite seed_team_users, seed_services_users. cbn [set_users users].
    exact (insert_user_constraints _ _ _ _ _ _ _ Hpk Huniq Hins).
Qed.

End Constraints.

(** ** More on seeding *)

Section SeedMore.

(** Rows inserted one after the other get the ids that follow the
    largest id given out so far. *)
Lemma insert_list {R S : Type} `{Row R} (mk : S -> Z -> R) (l : list S) (t : table R) :
  (forall s i, rowid (mk s i) = i) ->
  (max_rowid (rows t) <= Z.max (seq t) 0)%Z ->
  rows (foldl (fun t s => snd (insert (mk s) t)) t l) =
    rows t ++ imap (fun k s => mk s (Z.max (seq t) 0 + 1 + Z.of_nat k)%Z) l.
Proof.
  intros Hmk. revert t. induction l as [|s l IH]; intros t Hmax.
  - simpl. by rewrite app_nil_r.
  - cbn [foldl]. pose proof (max_rowid_nonneg (rows t)) as Hnn.
    assert (Hnext : next_rowid t = (Z.max (seq t) 0 + 1)%Z) by (unfold next_rowid; lia).
    rewrite IH.
    + unfold insert. cbn [snd rows seq]. rewrite Hnext.
      rewrite <- app_assoc. f_equal. cbn [imap app]. f_equal.
      * f_equal. lia.
      * apply imap_ext. intros k x _. simpl. f_equal. lia.
    + unfold insert. cbn [snd rows seq]. rewrite Hnext.
      rewrite max_rowid_app. cbn [max_rowid foldr]. rewrite Hmk. lia.
Qed.

Lemma seed_team_of d d' : seed d = Ok d' -> team d' = team (seed_team d).
Proof.
  unfold seed. destruct (seed_admin_total d) as (d1 & Hseed & Hserv & Hteam & _).
  rewrite Hseed. intros [= <-]. unfold seed_team.
  rewrite seed_services_team, Hteam.
  destruct (Z.eqb _ _); [done |]. by rewrite seed_services_team.
Qed.

Lemma set_role_same rl r : role r = rl -> set_role rl r = r.
Proof. intros <-. by destruct r. Qed.

(** After the admin step an ['admin'] exists and every ['admin'] has the
    role. *)
Lemma seed_admin_after d d1 :
  seed_admin d = Ok d1 ->
  (exists u, find is_admin (rows (users d1)) = Some u) /\
  (forall u, u ∈ rows (users d1) -> is_admin u = true -> role u = Some "admin").
Proof.
  intros Hseed. destruct (seed_admin_total d) as (d1' & Hseed' & _ & _ & Hcases).
  rewrite Hseed in Hseed'. injection Hseed' as <-.
  assert (Hall : forall u, u ∈ rows (users d1) -> is_admin u = true ->
                           role u = Some "admin").
  { destruct Hcases as [[Hnone Hrows] | [Hsome Hrows]]; rewrite Hrows; intros u Hu Ha.
    - apply elem_of_app in Hu as [Hu | Hu].
      + pose proof (filter_nil_false _ _ _ Hnone Hu). congruence.
      + apply list_elem_of_singleton in Hu. by subst u.
    - apply list_elem_of_In, in_map_iff in Hu as (r & Hr & _).
      destruct (is_admin r) eqn:Hra; subst u; [done | congruence]. }
  split; [| exact Hall].
  destruct (find is_admin (rows (users d1))) as [u|] eqn:Hfind; [by exists u |].
  exfalso. apply find_none_filter in Hfind.
  destruct Hcases as [[Hnone Hrows] | [Hsome Hrows]]; rewrite Hrows in Hfind.
  - rewrite List.filter_app in Hfind. apply app_eq_nil in Hfind as [_ Hfind].
    discriminate Hfind.
  - rewrite filter_map_admin in Hfind. apply Hsome. unfold admins.
    by destruct (List.filter is_admin (rows (users d))).
Qed.

Lemma update_where_fixed {R : Type} (c : R -> bool) (f : R -> R) (t : table R) :
  (forall r, r ∈ rows t -> c r = true -> f r = r) -> update_where c f t = t.
Proof.
  destruct t as [l s]. unfold update_where. simpl. intros H. f_equal.
  induction l as [|r l IH]; simpl; [done |]. f_equal.
  - destruct (c r) eqn:Hc; [| done]. apply H; [apply list_elem_of_here | done].
  - apply IH. intros x Hx. apply H. by apply list_elem_of_further.
Qed.

Lemma seed_services_nonempty d : rows (services (seed_services d)) <> [].
Proof.
  unfold seed_services. destruct (Z.eqb (count (services d)) 0) eqn:Hc.
  - apply count_zero in Hc. cbn [services set_services].
    rewrite insert_services; [| rewrite Hc; simpl; lia]. rewrite Hc. discriminate.
  - intros Hnil. apply count_zero in Hnil. congruence.
Qed.

Lemma seed_team_nonempty d : rows (team (seed_team d)) <> [].
Proof.
  unfold seed_team. destruct (Z.eqb (count (team d)) 0) eqn:Hc.
  - apply count_zero in Hc. cbn [team set_team].
    unfold insertTeam.
    rewrite (insert_list seeded_member); [| done | rewrite Hc; simpl; lia].
    rewrite Hc. discriminate.
  - intros Hnil. apply count_zero in Hnil. congruence.
Qed.

Lemma seed_services_fixed d : rows (services d) <> [] -> seed_services d = d.
Proof.
  intros Hne. unfold seed_services.
  destruct (Z.eqb (count (services d)) 0) eqn:Hc; [| done].
  apply count_zero in Hc. congruence.
Qed.

Lemma seed_team_fixed d : rows (team d) <> [] -> seed_team d = d.
Proof.
  intros Hne. unfold seed_team.
  destruct (Z.eqb (count (team d)) 0) eqn:Hc; [| done].
  apply count_zero in Hc. congruence.
Qed.

End SeedMore.

(** When the team collection is empty at start-up, the seeding fills it
    with the entries of the fixed list, in order, each with its name,
    title and image, no icon, and the next free ids; a team that is not
    empty is left as it is. *)
Theorem seed_team_default (d : db) :
  exists d', seed d = Ok d' /\
    (rows (team d) = [] ->
       rows (team d') =
         imap (fun k m => {| m_id := Z.max (seq (team d)) 0 + 1 + Z.of_nat k;
                             m_name := Some (seed_name m);
                             m_title := Some (seed_job m);
                             image := Some (seed_image m);
                             m_icon := None |}) initialTeam) /\
    (rows (team d) <> [] -> team d' = team d).
Proof.
  destruct (seed_total d) as (d' & Hseed).
  exists d'. split; [exact Hseed |].
  rewrite (seed_team_of _ _ Hseed). unfold seed_team.
  destruct (Z.eqb (count (team d)) 0) eqn:Hc.
  - apply count_zero in Hc. split; [| congruence]. intros _.
    cbn [team set_team]. unfold insertTeam.
    rewrite (insert_list seeded_member); [| done | rewrite Hc; simpl; lia].
    rewrite Hc. done.
  - split; [| done]. intros Hnil. apply count_zero in Hnil. congruence.
Qed.

Lemma seed_team_default_witness :
  (exists d', seed empty_db = Ok d' /\
     map (fun m => (m_id m, m_name m, m_icon m)) (rows (team d')) =
       [(1, Some "LS. Lê Văn Tài", None); (2, Some "Mrs. Phạm Thị Mỹ Linh", None);
        (3, Some "LS. Lê Văn C", None)]%Z) /\
  (exists d', seed demoted_db = Ok d' /\ team d' = team demoted_db).
Proof.
  split.
  - destruct (seed_team_default empty_db) as (d' & Hs & Hempty & _).
    exists d'. split; [exact Hs |]. rewrite Hempty; reflexivity.
  - destruct (seed_team_default demoted_db) as (d' & Hs & _ & Hsome).
    exists d'. split; [exact Hs |]. apply Hsome. discriminate.
Defined.

(** Seeding a store that has just been seeded changes nothing: a second
    start-up in a row finds the admin with its role and both collections
    filled. *)
Theorem seed_twice (d d1 : db) : seed d = Ok d1 -> seed d1 = Ok d1.
Proof.
  unfold seed at 1. destruct (seed_admin d) as [d0|e] eqn:Hadmin; [| discriminate].
  intros [= <-].
  destruct (seed_admin_after _ _ Hadmin) as [[u Hfind] Hall].
  set (d1 := seed_team (seed_services d0)).
  assert (Husers : users d1 = users d0).
  { unfold d1. by rewrite seed_team_users, seed_services_users. }
  assert (Hadmin1 : seed_admin d1 = Ok d1).
  { unfold seed_admin. rewrite Husers, Hfind.
    rewrite update_where_fixed.
    - by rewrite <- Husers, set_users_same.
    - intros r Hr Ha. apply set_role_same. by apply Hall. }
  unfold seed. rewrite Hadmin1. f_equal.
  assert (Hserv : rows (services d1) <> []).
  { unfold d1. rewrite seed_team_services. apply seed_services_nonempty. }
  rewrite (seed_services_fixed _ Hserv).
  apply seed_team_fixed. unfold d1. apply seed_team_nonempty.
Qed.

Lemma seed_twice_witness : seed seeded_db = Ok seeded_db.
Proof. apply (seed_twice empty_db seeded_db). reflexivity. Defined.

(** ** Creating, changing and deleting users *)

Section UsersMore.

Lemma js_or_role_nonempty v :
  plain (js_or v (VStr "editor")) = true ->
  exists rl, plain_text (js_or v (VStr "editor")) = Some rl /\ rl <> "".
Proof.
  unfold js_or. destruct (truthy v) eqn:Ht.
  - intros Hp. by apply truthy_plain_nonempty.
  - intros _. by exists "editor".
Qed.

Lemma nonempty_truthy s : s <> "" -> truthy (VStr s) = true.
Proof. intros H. simpl. apply negb_true_iff. by apply String.eqb_neq. Qed.

End UsersMore.

(** A [POST /api/users] with a username no row has, a password, and a
    name and a role that are strings, numbers, [null] or absent, is
    answered with the new id, which is above every id in the table; the
    new row comes last, its role is the one of the request or ['editor']
    and is never empty; and a login with the same username and password
    then returns that user. *)
Theorem users_post_then_login (d : db) (b : body) (un pw : string) :
  field b "username" = VStr un -> field b "password" = VStr pw ->
  plain (field b "name") = true ->
  plain (js_or (field b "role") (VStr "editor")) = true ->
  (forall r, r ∈ rows (users d) -> username r <> Some un) ->
  let i := next_rowid (users d) in
  let rl := js_or (field b "role") (VStr "editor") in
  let d' := (users_post None b d).1 in
  users_post None b d =
    (d', Responded 200 (JObj [("id", JNum i); ("username", JStr un);
                              ("name", json_of_value (field b "name"));
                              ("role", json_of_value rl)])) /\
  rows (users d') =
    rows (users d) ++ [ {| u_id := i; username := Some un; password := Some pw;
                           name := plain_text (field b "name");
                           role := plain_text rl |} ] /\
  (forall r, r ∈ rows (users d) -> (u_id r < i)%Z) /\
  (exists s, plain_text rl = Some s /\ s <> "") /\
  login None (credentials_body un pw) d' =
    (d', Responded 200
           (JObj [("success", JBool true);
                  ("user", JObj [("id", JNum i);
                                 ("name", json_of_sql (plain_text (field b "name")));
                                 ("username", JStr un);
                                 ("role", json_of_sql (plain_text rl))])])).
Proof.
  intros Hun Hpw Hname Hrole Hfree i rl d'.
  assert (Htaken : taken (Some un) (fun _ => false) (rows (users d)) = false).
  { apply taken_none. intros r Hr. destruct (sql_eq (username r) (Some un)) eqn:He; [| done].
    apply sql_eq_true in He as (s & Hs & [= <-]). by destruct (Hfree r Hr). }
  assert (Hbound : bound (PostUsers b) =
                   Ok [Some un; Some pw; plain_text (field b "name"); plain_text rl]).
  { rewrite bound_plain; cbn [arguments]; [by rewrite Hun, Hpw |].
    unfold plain_fields. cbn [arguments forallb]. by rewrite Hun, Hpw, Hname, Hrole. }
  assert (Hpost : users_post None b d =
            (set_users d {| rows := rows (users d) ++
                              [ {| u_id := i; username := Some un; password := Some pw;
                                   name := plain_text (field b "name");
                                   role := plain_text rl |} ];
                            seq := i |},
             Responded 200 (JObj [("id", JNum i); ("username", JStr un);
                                  ("name", json_of_value (field b "name"));
                                  ("role", json_of_value rl)]))).
  { rewrite users_post_unfold, Hbound. cbn [statement run param nth]. unfold insert_user.
    rewrite Htaken, Hun. reflexivity. }
  subst d'. rewrite Hpost. cbn [fst set_users users rows]. split_and!.
  - done.
  - done.
  - intros r Hr. pose proof (rowid_le_max _ _ Hr) as Hle.
    change (rowid r) with (u_id r) in Hle. unfold i, next_rowid. lia.
  - by apply js_or_role_nonempty.
  - rewrite login_credentials_body. cbn [set_users users rows].
    rewrite find_app_first; [done | | ].
    + intros r Hr. unfold credentials.
      destruct (sql_eq (username r) (Some un)) eqn:He; [| done].
      apply sql_eq_true in He as (s & Hs & [= <-]). by destruct (Hfree r Hr).
    + unfold credentials. simpl. by rewrite !String.eqb_refl.
Qed.

Lemma users_post_then_login_witness :
  let b := new_user_body "bob" "s3cret" "Bob" in
  let d' := (users_post None b seeded_db).1 in
  users_post None b seeded_db =
    (d', Responded 200 (JObj [("id", JNum 2); ("username", JStr "bob");
                              ("name", JStr "Bob"); ("role", JStr "editor")])) /\
  login None (credentials_body "bob" "s3cret") d' =
    (d', Responded 200
           (JObj [("success", JBool true);
                  ("user", JObj [("id", JNum 2); ("name", JStr "Bob");
                                 ("username", JStr "bob"); ("role", JStr "editor")])])).
Proof.
  intros b d'.
  destruct (users_post_then_login seeded_db b "bob" "s3cret") as (H1 & _ & _ & _ & H5).
  - reflexivity.
  - reflexivity.
  - reflexivity.
  - reflexivity.
  - intros r Hr. rewrite seeded_db_users in Hr.
    apply list_elem_of_singleton in Hr. by subst r.
  - split; [exact H1 | exact H5].
Defined.

(** After a [PUT /api/users/:id] that carries a non-empty password and
    goes through, the user logs in with the new username and the new
    password, and every other password is refused for that username.  The
    name and the role the login shows are those of the request where
    these are no arrays and no objects. *)
Theorem users_put_new_password (d d' : db) (id : option Z) (b : body) (u : user)
    (un pw : string) :
  primary_key d -> u ∈ rows (users d) -> id_matches id (u_id u) = true ->
  field b "username" = VStr un -> field b "password" = VStr pw -> pw <> "" ->
  users_put None id b d = (d', Responded 200 success) ->
  exists nm rl,
    (scalar (field b "name") = true ->
       nm = plain_text (field b "name") /\
       (scalar (field b "role") = true -> rl = plain_text (field b "role"))) /\
    login None (credentials_body un pw) d' =
      (d', Responded 200
             (JObj [("success", JBool true);
                    ("user", JObj [("id", JNum (u_id u));
                                   ("name", json_of_sql nm);
                                   ("username", JStr un);
                                   ("role", json_of_sql rl)])])) /\
    (forall other, other <> pw ->
       login None (credentials_body un other) d' =
         (d', Responded 401 (failure "Invalid credentials"))).
Proof.
  intros Hpk Hin Hid Hun Hpw Hne Hput.
  assert (Htruthy : truthy (field b "password") = true).
  { rewrite Hpw. by apply nonempty_truthy. }
  destruct (users_put_cases None id b d) as [[e He] | (_ & vals & Hb & Hc & Hput')].
  { rewrite He in Hput. destruct (is_unique_violation e); discriminate Hput. }
  rewrite Hput' in Hput. injection Hput as <-.
  rewrite Htruthy in *.
  assert (Hargs : bind 5 [field b "username"; field b "password"; field b "name";
                          field b "role"] 1 = Ok vals).
  { revert Hb. unfold bound. cbn [arguments parameters route_values].
    by rewrite Htruthy. }
  destruct (bind_prefix 5 [field b "username"; field b "password"]
              [field b "name"; field b "role"] 1 vals) as (_ & rest & Hvals);
    [by rewrite Hun, Hpw | exact Hargs |].
  rewrite Hun, Hpw in Hvals. cbn [map plain_text app] in Hvals.
  assert (Hex : existsb (fun r => id_matches id (u_id r)) (rows (users d)) = true).
  { apply existsb_exists. exists u. split; [by apply list_elem_of_In | done]. }
  rewrite Hex, andb_true_r in Hc.
  assert (H0 : param vals 0 = Some un) by (by rewrite Hvals).
  assert (H1 : param vals 1 = Some pw) by (by rewrite Hvals).
  rewrite H0 in Hc.
  exists (param vals 2), (param vals 3). split_and!.
  - intros Hsn.
    destruct (bind_prefix 5 [field b "username"; field b "password"; field b "name"]
                [field b "role"] 1 vals) as (_ & rest3 & Hvals3);
      [cbn [forallb]; by rewrite Hun, Hpw, Hsn | exact Hargs |].
    split; [by rewrite Hvals3 |]. intros Hsr.
    destruct (bind_prefix 5 [field b "username"; field b "password"; field b "name";
                             field b "role"] [] 1 vals) as (_ & rest4 & Hvals4);
      [cbn [forallb]; by rewrite Hun, Hpw, Hsn, Hsr | exact Hargs |].
    by rewrite Hvals4.
  - rewrite login_credentials_body. cbn [set_users users update_where rows].
    rewrite (find_updated id (put_row true vals) _ u un pw); try done.
    unfold public_user, put_row. simpl. by rewrite H0.
  - intros other Hother. rewrite login_credentials_body.
    cbn [set_users users update_where rows].
    rewrite find_all_false; [done |].
    intros v' Hv'. apply list_elem_of_In, in_map_iff in Hv' as (v & <- & Hv).
    apply list_elem_of_In in Hv. unfold credentials.
    destruct (id_matches id (u_id v)) eqn:Hvid.
    + unfold put_row. simpl. rewrite H1. simpl.
      replace (String.eqb pw other) with false; [by rewrite andb_false_r |].
      symmetry. apply String.eqb_neq. congruence.
    + by rewrite (taken_false _ _ _ v Hc Hv Hvid).
Qed.

Lemma users_put_new_password_witness :
  let b := credentials_body "admin" "hunter2" in
  let d' := (users_put None (Some 1%Z) b seeded_db).1 in
  login None (credentials_body "admin" "hunter2") d' =
    (d', Responded 200
           (JObj [("success", JBool true);
                  ("user", JObj [("id", JNum 1); ("name", JNull);
                                 ("username", JStr "admin"); ("role", JNull)])])) /\
  login None (credentials_body "admin" "123456") d' =
    (d', Responded 401 (failure "Invalid credentials")).
Proof.
  intros b d'.
  destruct (users_put_new_password seeded_db d' (Some 1%Z) b admin_row "admin" "hunter2")
    as (nm & rl & Hfields & Hnew & Hold).
  - unfold primary_key. rewrite seeded_db_users. decide_names.
  - rewrite seeded_db_users. apply list_elem_of_here.
  - reflexivity.
  - reflexivity.
  - reflexivity.
  - discriminate.
  - reflexivity.
  - destruct Hfields as [-> Hrl]; [reflexivity |]. rewrite Hrl in Hnew by reflexivity.
    split; [exact Hnew |]. apply Hold. discriminate.
Defined.

(** Once a user is deleted by id, a login with that user's username and
    password is refused. *)
Theorem users_delete_then_login (d : db) (b : body) (u : user) :
  unique_usernames d -> u ∈ rows (users d) -> names_credentials_of b u ->
  let d' := (users_delete None (Some (u_id u)) d).1 in
  users_delete None (Some (u_id u)) d = (d', Responded 200 success) /\
  (forall r, r ∈ rows (users d') <-> r ∈ rows (users d) /\ u_id r <> u_id u) /\
  login None b d' = (d', Responded 401 (failure "Invalid credentials")).
Proof.
  intros Huniq Hin Hm d'. subst d'. unfold users_delete. simpl.
  assert (Hrows : forall r,
            r ∈ List.filter (fun r => negb (u_id u =? u_id r)%Z) (rows (users d)) <->
            r ∈ rows (users d) /\ u_id r <> u_id u).
  { intros r. rewrite list_elem_of_In, filter_In, <- list_elem_of_In.
    rewrite negb_true_iff, Z.eqb_neq. intuition congruence. }
  split_and!; [done | exact Hrows |].
  destruct (names_credentials_of_textual b u Hm) as [Htu Htp].
  rewrite login_scalar by (by apply plain_scalar, textual_plain).
  rewrite (textual_plain _ Htu), (textual_plain _ Htp). cbn [andb set_users users rows].
  rewrite find_all_false; [done |].
  intros v Hv. apply Hrows in Hv as [Hv Hne].
  destruct (credentials _ _ v) eqn:Hc; [| done]. exfalso.
  apply (names_credentials_of_true b v Htu Htp) in Hc.
  destruct Hm as (un & pw & Hbu & Hbp & Hsu & Hsp).
  destruct Hc as (un' & pw' & Hbu' & Hbp' & Hvu & Hvp).
  assert (un' = un) by congruence. subst un'.
  apply Hne. f_equal. exact (unique_username_same_row _ _ _ un Huniq Hv Hin Hvu Hsu).
Qed.

Lemma users_delete_then_login_witness :
  let d' := (users_delete None (Some 1%Z) seeded_db).1 in
  rows (users d') = [] /\
  login None (credentials_body "admin" "123456") d' =
    (d', Responded 401 (failure "Invalid credentials")).
Proof.
  intros d'. split; [reflexivity |].
  apply (users_delete_then_login seeded_db (credentials_body "admin" "123456") admin_row).
  - unfold unique_usernames. rewrite seeded_db_users. decide_names.
  - rewrite seeded_db_users. apply list_elem_of_here.
  - exists "admin", "123456". split_and!; reflexivity.
Defined.

(** ** Services and team members *)

Section CollectionsMore.

Lemma next_rowid_above {R : Type} `{Row R} (t : table R) (r : R) :
  r ∈ rows t -> (rowid r < next_rowid t)%Z.
Proof. intros Hr. pose proof (rowid_le_max _ _ Hr). unfold next_rowid. lia. Qed.

Lemma update_where_twice {R : Type} (c : R -> bool) (f g : R -> R) (t : table R) :
  (forall r, c (f r) = c r) -> (forall r, g (f r) = g r) ->
  update_where c g (update_where c f t) = update_where c g t.
Proof.
  intros Hc Hg. unfold update_where. cbn [rows seq]. f_equal.
  rewrite map_map. apply map_ext. intros r.
  destruct (c r) eqn:Hr; [by rewrite Hc, Hr, Hg | by rewrite Hr].
Qed.

Lemma filter_twice {A : Type} (p : A -> bool) (l : list A) :
  List.filter p (List.filter p l) = List.filter p l.
Proof.
  induction l as [|x l IH]; simpl; [done |].
  destruct (p x) eqn:Hp; simpl; [by rewrite Hp, IH | done].
Qed.

Lemma delete_where_twice {R : Type} (c : R -> bool) (t : table R) :
  delete_where c (delete_where c t) = delete_where c t.
Proof. unfold delete_where. cbn [rows seq]. by rewrite filter_twice. Qed.

Lemma delete_where_rows {R : Type} (c : R -> bool) (t : table R) (r : R) :
  r ∈ rows (delete_where c t) <-> r ∈ rows t /\ c r = false.
Proof.
  unfold delete_where. cbn [rows].
  rewrite list_elem_of_In, filter_In, <- list_elem_of_In, negb_true_iff. done.
Qed.

End CollectionsMore.

(** A created service or team member whose fields are strings, numbers,
    [null] or absent gets an id above every id in its table, and the next
    listing shows what was listed before followed by the new record with
    that id, a field the request left out being [null]. *)
Theorem post_then_get (d : db) (b : body) :
  (plain_fields (PostServices b) = true ->
   let i := next_rowid (services d) in
   let d' := (services_post None b d).1 in
   services_post None b d =
     (d', Responded 200 (JObj [("id", JNum i);
                               ("title", json_of_value (field b "title"));
                               ("description", json_of_value (field b "description"));
                               ("icon", json_of_value (field b "icon"));
                               ("file_url", json_of_value (field b "file_url"))])) /\
   (forall r, r ∈ rows (services d) -> (s_id r < i)%Z) /\
   services_get None d' =
     (d', Responded 200
            (JArr (map service_json (rows (services d)) ++
                   [JObj [("id", JNum i);
                          ("title", json_of_sql (plain_text (field b "title")));
                          ("description",
                           json_of_sql (plain_text (field b "description")));
                          ("icon", json_of_sql (plain_text (field b "icon")));
                          ("file_url",
                           json_of_sql (plain_text (field b "file_url")))]])))) /\
  (plain_fields (PostTeam b) = true ->
   let i := next_rowid (team d) in
   let d' := (team_post None b d).1 in
   team_post None b d =
     (d', Responded 200 (JObj [("id", JNum i);
                               ("name", json_of_value (field b "name"));
                               ("title", json_of_value (field b "title"));
                               ("image", json_of_value (field b "image"));
                               ("icon", json_of_value (field b "icon"))])) /\
   (forall r, r ∈ rows (team d) -> (m_id r < i)%Z) /\
   team_get None d' =
     (d', Responded 200
            (JArr (map member_json (rows (team d)) ++
                   [JObj [("id", JNum i);
                          ("name", json_of_sql (plain_text (field b "name")));
                          ("title", json_of_sql (plain_text (field b "title")));
                          ("image", json_of_sql (plain_text (field b "image")));
                          ("icon", json_of_sql (plain_text (field b "icon")))]])))).
Proof.
  split; intros Hp i d'.
  - assert (Hpost : services_post None b d =
              (set_services d
                 (insert (fun i => {| s_id := i; title := plain_text (field b "title");
                                      description := plain_text (field b "description");
                                      icon := plain_text (field b "icon");
                                      file_url := plain_text (field b "file_url") |})
                         (services d)).2,
               Responded 200 (JObj [("id", JNum i);
                                    ("title", json_of_value (field b "title"));
                                    ("description", json_of_value (field b "description"));
                                    ("icon", json_of_value (field b "icon"));
                                    ("file_url", json_of_value (field b "file_url"))]))).
    { rewrite services_post_unfold, (bound_plain _ Hp). reflexivity. }
    subst d'. rewrite Hpost. split_and!; [reflexivity | |].
    + intros r Hr. exact (next_rowid_above (services d) r Hr).
    + unfold services_get. cbn. by rewrite map_app.
  - assert (Hpost : team_post None b d =
              (set_team d
                 (insert (fun i => {| m_id := i; m_name := plain_text (field b "name");
                                      m_title := plain_text (field b "title");
                                      image := plain_text (field b "image");
                                      m_icon := plain_text (field b "icon") |})
                         (team d)).2,
               Responded 200 (JObj [("id", JNum i);
                                    ("name", json_of_value (field b "name"));
                                    ("title", json_of_value (field b "title"));
                                    ("image", json_of_value (field b "image"));
                                    ("icon", json_of_value (field b "icon"))]))).
    { rewrite team_post_unfold, (bound_plain _ Hp). reflexivity. }
    subst d'. rewrite Hpost. split_and!; [reflexivity | |].
    + intros r Hr. exact (next_rowid_above (team d) r Hr).
    + unfold team_get. cbn. by rewrite map_app.
Qed.

Lemma post_then_get_witness :
  let b := service_body "Thuế" "Tư vấn thuế" "Scale" in
  services_post None b seeded_db =
    ((services_post None b seeded_db).1,
     Responded 200 (JObj [("id", JNum 7); ("title", JStr "Thuế");
                          ("description", JStr "Tư vấn thuế"); ("icon", JStr "Scale");
                          ("file_url", JUndefined)])).
Proof.
  intros b.
  destruct (post_then_get seeded_db b) as [Hs _].
  destruct Hs as (H & _ & _); [reflexivity |]. exact H.
Defined.

(** Of two updates of the same service or team member the later one
    decides: it is answered as if the earlier had not been, and when its
    values bind to the statement, the earlier leaves no trace in the
    store, not even in a field the later request left out. *)
Theorem put_last_write_wins (d : db) (id : option Z) (b1 b2 : body) :
  ((services_put None id b2 (services_put None id b1 d).1).2 =
     (services_put None id b2 d).2 /\
   (binds (PutServices id b2) = true ->
      services_put None id b2 (services_put None id b1 d).1 =
        services_put None id b2 d)) /\
  ((team_put None id b2 (team_put None id b1 d).1).2 = (team_put None id b2 d).2 /\
   (binds (PutTeam id b2) = true ->
      team_put None id b2 (team_put None id b1 d).1 = team_put None id b2 d)).
Proof.
  split.
  - rewrite !services_put_unfold. unfold binds.
    destruct (bound (PutServices id b2)) as [v2|e2];
      destruct (bound (PutServices id b1)) as [v1|e1];
      cbn [statement run fst snd set_services services users team];
      (split; [done |]); try done; intros _.
    by rewrite update_where_twice.
  - rewrite !team_put_unfold. unfold binds.
    destruct (bound (PutTeam id b2)) as [v2|e2];
      destruct (bound (PutTeam id b1)) as [v1|e1];
      cbn [statement run fst snd set_team services users team];
      (split; [done |]); try done; intros _.
    by rewrite update_where_twice.
Qed.

Lemma put_last_write_wins_witness :
  services_put None (Some 1%Z) (service_body "Thuế" "Tư vấn thuế" "Scale")
    (services_put None (Some 1%Z) (service_body "a" "b" "c") seeded_db).1 =
  services_put None (Some 1%Z) (service_body "Thuế" "Tư vấn thuế" "Scale") seeded_db.
Proof.
  apply (put_last_write_wins seeded_db (Some 1%Z) (service_body "a" "b" "c")
           (service_body "Thuế" "Tư vấn thuế" "Scale")).
  reflexivity.
Defined.


(** A delete removes the rows with the given id and only those, and
    deleting the same id again succeeds and changes nothing more. *)
Theorem delete_removes (d : db) (id : option Z) :
  (let d' := (services_delete None id d).1 in
   (forall r, r ∈ rows (services d') <->
              r ∈ rows (services d) /\ id_matches id (s_id r) = false) /\
   services_delete None id d' = (d', Responded 200 success)) /\
  (let d' := (team_delete None id d).1 in
   (forall r, r ∈ rows (team d') <->
              r ∈ rows (team d) /\ id_matches id (m_id r) = false) /\
   team_delete None id d' = (d', Responded 200 success)) /\
  (let d' := (users_delete None id d).1 in
   (forall r, r ∈ rows (users d') <->
              r ∈ rows (users d) /\ id_matches id (u_id r) = false) /\
   users_delete None id d' = (d', Responded 200 success)).
Proof.
  split_and!; intros d'; subst d'.
  - unfold services_delete. cbn [run fst set_services services users team]. split.
    + intros r. apply (delete_where_rows (fun r => id_matches id (s_id r))).
    + by rewrite delete_where_twice.
  - unfold team_delete. cbn [run fst set_team services users team]. split.
    + intros r. apply (delete_where_rows (fun r => id_matches id (m_id r))).
    + by rewrite delete_where_twice.
  - unfold users_delete. cbn [run fst set_users services users team]. split.
    + intros r. apply (delete_where_rows (fun r => id_matches id (u_id r))).
    + by rewrite delete_where_twice.
Qed.

(** ** What every request keeps *)

Section Requests.

Lemma statement_cases {A : Type} io (bnd : result (list sqlval))
    (exec : list sqlval -> result A) :
  (exists e, statement io bnd exec = Throw e) \/
  (io = None /\ exists vals, bnd = Ok vals /\ statement io bnd exec = exec vals).
Proof.
  destruct bnd as [vals|e]; [destruct io as [e|] |]; cbn; eauto.
Qed.

Ltac statement_cases e vals He :=
  match goal with
  | |- context [statement ?io ?bnd ?exec] =>
      destruct (statement_cases io bnd exec) as [[e He] | (_ & vals & _ & He)];
      rewrite He; cbv beta
  end.

(** Serving a request does to the store what the one statement of its
    handler does, or nothing. *)
Lemma serve_effect io r d : effect d (serve io r d).1.
Proof.
  destruct r; cbn [serve].
  - rewrite login_unfold. destruct (statement _ _ _) as [[u|]|e]; apply Unchanged.
  - unfold users_get. destruct (run _ _); apply Unchanged.
  - rewrite users_post_unfold. statement_cases e vals He.
    + destruct (is_unique_violation e); apply Unchanged.
    + destruct (insert_user _ _ _ _ _) as [[i t]|e] eqn:Hins.
      * cbn [fst]. by apply (UserInserted d vals i t).
      * destruct (is_unique_violation e); apply Unchanged.
  - rewrite users_put_unfold. statement_cases e vals He.
    + destruct (is_unique_violation e); apply Unchanged.
    + destruct (update_user _ _ _ _) as [t|e] eqn:Hup.
      * cbn [fst]. by apply (UserUpdated d id (truthy (field b "password")) vals t).
      * destruct (is_unique_violation e); apply Unchanged.
  - unfold users_delete. destruct io; cbn [run fst]; [apply Unchanged | apply UsersDeleted].
  - unfold services_get. destruct (run _ _); apply Unchanged.
  - rewrite services_post_unfold. statement_cases e vals He.
    + apply Unchanged.
    + cbn [fst]. apply (ServiceInserted d vals).
  - rewrite services_put_unfold. statement_cases e vals He.
    + apply Unchanged.
    + cbn [fst]. apply (ServiceUpdated d id vals).
  - unfold services_delete. destruct io; cbn [run fst];
      [apply Unchanged | apply ServicesDeleted].
  - unfold team_get. destruct (run _ _); apply Unchanged.
  - rewrite team_post_unfold. statement_cases e vals He.
    + apply Unchanged.
    + cbn [fst]. apply (MemberInserted d vals).
  - rewrite team_put_unfold. statement_cases e vals He.
    + apply Unchanged.
    + cbn [fst]. apply (MemberUpdated d id vals).
  - unfold team_delete. destruct io; cbn [run fst];
      [apply Unchanged | apply MembersDeleted].
Qed.

Lemma effect_constraints d d' : effect d d' -> constraints d -> constraints d'.
Proof.
  intros Heff [Hpk Huniq]. destruct Heff as [|vals i t Hins|id wp vals t Hup|id| | | | | |];
    unfold constraints, primary_key, unique_usernames;
    cbn [users set_users set_services set_team]; try done.
  - exact (insert_user_constraints _ _ _ _ _ _ _ Hpk Huniq Hins).
  - exact (update_user_constraints id (param vals 0) (put_row wp vals) (users d) t
             (put_row_id wp vals) (put_row_username wp vals) Hpk Huniq Hup).
  - cbn [delete_where rows]. by apply filter_constraints.
Qed.

Lemma users_post_frame io b d :
  services (users_post io b d).1 = services d /\ team (users_post io b d).1 = team d.
Proof.
  rewrite users_post_unfold. destruct (statement io _ _) as [[i t]|e]; [done |].
  by destruct (is_unique_violation e).
Qed.

Lemma users_put_frame io id b d :
  services (users_put io id b d).1 = services d /\ team (users_put io id b d).1 = team d.
Proof.
  rewrite users_put_unfold. destruct (statement io _ _) as [t|e]; [done |].
  by destruct (is_unique_violation e).
Qed.

Lemma users_delete_frame io id d :
  services (users_delete io id d).1 = services d /\
  team (users_delete io id d).1 = team d.
Proof. unfold users_delete. by destruct (run io _). Qed.

(** Requests that do not write to the users leave them alone. *)
Lemma serve_users io r d : writes r <> Some Users -> users (serve io r d).1 = users d.
Proof.
  destruct r; cbn [serve writes]; try done; intros _;
    rewrite ?login_unfold, ?services_post_unfold, ?services_put_unfold,
      ?team_post_unfold, ?team_put_unfold;
    unfold users_get, services_get, services_delete, team_get, team_delete;
    by repeat match goal with |- context [match ?x with _ => _ end] => destruct x end.
Qed.

Lemma serve_constraints io r d : constraints d -> constraints (serve io r d).1.
Proof. apply effect_constraints, serve_effect. Qed.

Lemma step_constraints d e : constraints d -> constraints (step d e).
Proof.
  intros Hc. destruct e as [io r|]; simpl.
  - by apply serve_constraints.
  - destruct (seed d) as [d'|] eqn:Hseed; [| done]. by apply (seed_constraints d).
Qed.

End Requests.

(** Whatever requests are served, whatever failures of the store occur
    under them and however often the server is started again, the ids of
    the users stay distinct and so do their usernames. *)
Theorem history_constraints (l : list event) (d : db) :
  constraints d -> constraints (history l d).
Proof.
  unfold history. revert d. induction l as [|e l IH]; intros d Hc; [done |].
  simpl. apply IH. by apply step_constraints.
Qed.

Lemma history_constraints_witness :
  constraints
    (history [Restart; Serve None (PostUsers (new_user_body "bob" "s3cret" "Bob"));
              Serve None (PutUsers (Some 2%Z) (credentials_body "admin" "x"));
              Serve (Some io_error) (DeleteUsers (Some 1%Z)); Restart] empty_db).
Proof. apply (history_constraints _ empty_db). apply constraints_empty. Defined.

(** A request changes nothing outside the collection it writes to; a
    request that only reads, or that is not answered with status 200,
    changes nothing at all. *)
Theorem serve_frame (io : option error) (r : request) (d : db) :
  let d' := (serve io r d).1 in
  (writes r <> Some Users -> users d' = users d) /\
  (writes r <> Some Services -> services d' = services d) /\
  (writes r <> Some Team -> team d' = team d) /\
  ((forall body, (serve io r d).2 <> Responded 200 body) -> d' = d).
Proof.
  intros d'. subst d'. split_and!.
  - apply serve_users.
  - destruct r; cbn [serve writes]; try done; intros _;
      try apply users_post_frame; try apply users_put_frame;
      try apply users_delete_frame;
      rewrite ?login_unfold, ?team_post_unfold, ?team_put_unfold;
      unfold users_get, services_get, team_get, team_delete;
      by repeat match goal with |- context [match ?x with _ => _ end] => destruct x end.
  - destruct r; cbn [serve writes]; try done; intros _;
      try apply users_post_frame; try apply users_put_frame;
      try apply users_delete_frame;
      rewrite ?login_unfold, ?services_post_unfold, ?services_put_unfold;
      unfold users_get, services_get, team_get, services_delete;
      by repeat match goal with |- context [match ?x with _ => _ end] => destruct x end.
  - destruct r; cbn [serve]; intros Hnot;
      rewrite ?login_unfold, ?users_post_unfold, ?users_put_unfold, ?services_post_unfold,
        ?services_put_unfold, ?team_post_unfold, ?team_put_unfold in *;
      unfold users_get, users_delete, services_get, services_delete, team_get,
        team_delete in *;
      repeat match goal with
             | |- context [match ?x with _ => _ end] => destruct x eqn:?; cbn [fst snd] in *
             end;
      try done;
      by destruct (Hnot _ eq_refl).
Qed.

Lemma serve_frame_witness :
  (serve None (PutUsers (Some 2%Z) (profile_body "admin" "Bob" "editor")) two_users_db).1
  = two_users_db.
Proof.
  apply (serve_frame None (PutUsers (Some 2%Z) (profile_body "admin" "Bob" "editor"))
           two_users_db).
  intros body. discriminate.
Defined.

(** ** Ids are never given out twice *)

Section Sequence.

Lemma follows_refl {R : Type} `{Row R} (t : table R) : sequenced t -> follows t t.
Proof. intros Hs. split; [done | lia]. Qed.

Lemma insert_follows {R : Type} `{Row R} (mk : Z -> R) (t : table R) :
  (forall i, rowid (mk i) = i) -> sequenced t -> follows t (insert mk t).2.
Proof.
  intros Hmk Hs. unfold insert, follows, sequenced. cbn [snd rows seq].
  pose proof (max_rowid_nonneg (rows t)). split; [| unfold next_rowid; lia].
  intros r Hr. apply elem_of_app in Hr as [Hr | Hr].
  - specialize (Hs r Hr). unfold next_rowid. lia.
  - apply list_elem_of_singleton in Hr. subst r. rewrite Hmk. lia.
Qed.

Lemma update_follows {R : Type} `{Row R} (c : R -> bool) (f : R -> R) (t : table R) :
  (forall r, rowid (f r) = rowid r) -> sequenced t -> follows t (update_where c f t).
Proof.
  intros Hf Hs. split; [| simpl; lia].
  intros r' Hr'. cbn [update_where rows seq] in *.
  apply list_elem_of_In, in_map_iff in Hr' as (r & <- & Hr).
  apply list_elem_of_In in Hr. specialize (Hs r Hr).
  destruct (c r); [by rewrite Hf | done].
Qed.

Lemma delete_follows {R : Type} `{Row R} (c : R -> bool) (t : table R) :
  sequenced t -> follows t (delete_where c t).
Proof.
  intros Hs. split; [| simpl; lia].
  intros r Hr. apply delete_where_rows in Hr as [Hr _]. by apply Hs.
Qed.

Lemma follows_trans {R : Type} `{Row R} (t1 t2 t3 : table R) :
  follows t1 t2 -> follows t2 t3 -> follows t1 t3.
Proof. intros [_ H12] [Hs H23]. split; [done | lia]. Qed.

Lemma insert_list_follows {R S : Type} `{Row R} (mk : S -> Z -> R) (l : list S)
    (t : table R) :
  (forall s i, rowid (mk s i) = i) -> sequenced t ->
  follows t (foldl (fun t s => snd (insert (mk s) t)) t l).
Proof.
  intros Hmk. revert t. induction l as [|s l IH]; intros t Hs; simpl.
  - by apply follows_refl.
  - pose proof (insert_follows (mk s) t (Hmk s) Hs) as Hstep.
    eapply follows_trans; [exact Hstep |]. apply IH. apply Hstep.
Qed.

Lemma db_follows_refl d : db_sequenced d -> db_follows d d.
Proof. intros (Hu & Hs & Ht). split_and!; by apply follows_refl. Qed.

Lemma db_follows_trans d1 d2 d3 : db_follows d1 d2 -> db_follows d2 d3 -> db_follows d1 d3.
Proof.
  intros (Hu & Hs & Ht) (Hu' & Hs' & Ht'). split_and!; by eapply follows_trans.
Qed.

Lemma db_follows_sequenced d d' : db_follows d d' -> db_sequenced d'.
Proof. intros ([Hu _] & [Hs _] & [Ht _]). by split_and!. Qed.

Lemma effect_follows d d' : db_sequenced d -> effect d d' -> db_follows d d'.
Proof.
  intros Hd Heff. pose proof (db_follows_refl d Hd) as Hrefl.
  destruct Hd as (Hu & Hs & Ht).
  destruct Heff as [|vals i t Hins|id wp vals t Hup|id|vals|id vals|id|vals|id vals|id];
    [done | ..]; unfold db_follows; cbn [users services team set_users set_services set_team].
  - unfold insert_user in Hins. destruct (taken _ _ _); [discriminate |].
    injection Hins as _ <-.
    split_and!; [| by apply follows_refl ..].
    by apply (insert_follows
                (fun i => {| u_id := i; username := param vals 0;
                             password := param vals 1; name := param vals 2;
                             role := param vals 3 |})
                (users d)).
  - unfold update_user in Hup. destruct (_ && _); [discriminate |].
    injection Hup as <-.
    split_and!; [| by apply follows_refl ..].
    apply (update_follows _ _ (users d)); [| done]. apply put_row_id.
  - split_and!; [| by apply follows_refl ..]. by apply (delete_follows _ (users d)).
  - split_and!; [by apply follows_refl | | by apply follows_refl].
    by apply (insert_follows
                (fun i => {| s_id := i; title := param vals 0;
                             description := param vals 1; icon := param vals 2;
                             file_url := param vals 3 |})
                (services d)).
  - split_and!; [by apply follows_refl | | by apply follows_refl].
    by apply (update_follows _ _ (services d)).
  - split_and!; [by apply follows_refl | | by apply follows_refl].
    by apply (delete_follows _ (services d)).
  - split_and!; [by apply follows_refl .. |].
    by apply (insert_follows
                (fun i => {| m_id := i; m_name := param vals 0;
                             m_title := param vals 1; image := param vals 2;
                             m_icon := param vals 3 |})
                (team d)).
  - split_and!; [by apply follows_refl .. |]. by apply (update_follows _ _ (team d)).
  - split_and!; [by apply follows_refl .. |]. by apply (delete_follows _ (team d)).
Qed.

Lemma serve_follows io r d : db_sequenced d -> db_follows d (serve io r d).1.
Proof. intros Hd. apply effect_follows; [done | apply serve_effect]. Qed.

Lemma seed_follows d d' : db_sequenced d -> seed d = Ok d' -> db_follows d d'.
Proof.
  intros (Hu & Hs & Ht). unfold seed.
  destruct (seed_admin d) as [d0|] eqn:Hadmin; [| discriminate]. intros [= <-].
  split_and!.
  - rewrite seed_team_users, seed_services_users.
    unfold seed_admin in Hadmin. destruct (find is_admin _).
    + injection Hadmin as <-. by apply (update_follows _ _ (users d)).
    + unfold insert_user in Hadmin. destruct (taken _ _ _); [discriminate |].
      injection Hadmin as <-.
      by apply (insert_follows
                  (fun i => {| u_id := i; username := Some "admin";
                               password := Some "123456";
                               name := Some "Administrator"; role := Some "admin" |})
                  (users d)).
  - destruct (seed_admin_total d) as (d0' & Hadmin' & Hserv & _).
    rewrite Hadmin in Hadmin'. injection Hadmin' as <-.
    rewrite seed_team_services. unfold seed_services. rewrite Hserv.
    destruct (Z.eqb _ _); cbn [services set_services]; rewrite ?Hserv;
      [| by apply follows_refl].
    by apply (insert_list_follows seeded_service).
  - destruct (seed_admin_total d) as (d0' & Hadmin' & _ & Hteam & _).
    rewrite Hadmin in Hadmin'. injection Hadmin' as <-.
    unfold seed_team. rewrite seed_services_team, Hteam.
    destruct (Z.eqb _ _); cbn [team set_team]; rewrite ?seed_services_team, ?Hteam;
      [| by apply follows_refl].
    by apply (insert_list_follows seeded_member).
Qed.

Lemma step_follows d e : db_sequenced d -> db_follows d (step d e).
Proof.
  intros Hd. destruct e as [io r|]; simpl.
  - by apply serve_follows.
  - destruct (seed d) as [d'|] eqn:Hseed; [by apply seed_follows |].
    by apply db_follows_refl.
Qed.

Lemma history_follows l d : db_sequenced d -> db_follows d (history l d).
Proof.
  unfold history. revert d. induction l as [|e l IH]; intros d Hd; simpl.
  - by apply db_follows_refl.
  - pose proof (step_follows d e Hd) as Hstep.
    eapply db_follows_trans; [exact Hstep |]. apply IH.
    by apply (db_follows_sequenced d).
Qed.

Lemma empty_sequenced : db_sequenced empty_db.
Proof. split_and!; intros r Hr; inversion Hr. Qed.

End Sequence.

(** The id the next insert gives out is above the id of every row the
    table has ever held: whatever is served or deleted and however often
    the server restarts in between, an id that was in use is not given
    out again. *)
Theorem ids_never_reused (l : list event) (d : db) :
  db_sequenced d ->
  let d' := history l d in
  db_sequenced d' /\
  (forall r, r ∈ rows (users d) -> (u_id r < next_rowid (users d'))%Z) /\
  (forall r, r ∈ rows (services d) -> (s_id r < next_rowid (services d'))%Z) /\
  (forall r, r ∈ rows (team d) -> (m_id r < next_rowid (team d'))%Z).
Proof.
  intros Hd d'. pose proof (history_follows l d Hd) as Hf. fold d' in Hf.
  split; [by apply (db_follows_sequenced d) |].
  destruct Hd as (Hu & Hs & Ht). destruct Hf as ([_ Hu'] & [_ Hs'] & [_ Ht']).
  split_and!; intros r Hr.
  - specialize (Hu r Hr). change (rowid r) with (u_id r) in Hu.
    unfold next_rowid. lia.
  - specialize (Hs r Hr). change (rowid r) with (s_id r) in Hs.
    unfold next_rowid. lia.
  - specialize (Ht r Hr). change (rowid r) with (m_id r) in Ht.
    unfold next_rowid. lia.
Qed.

Lemma ids_never_reused_witness :
  let d' := history [Serve None (DeleteUsers (Some 1%Z)); Restart] seeded_db in
  map u_id (rows (users d')) = [2%Z] /\ (1 < next_rowid (users d'))%Z.
Proof.
  intros d'. split; [reflexivity |].
  destruct (ids_never_reused [Serve None (DeleteUsers (Some 1%Z)); Restart] seeded_db)
    as (_ & Hu & _).
  - destruct (history_follows [Restart] empty_db empty_sequenced) as ([H1 _] & [H2 _] & [H3 _]).
    by split_and!.
  - apply (Hu admin_row). rewrite seeded_db_users. apply list_elem_of_here.
Defined.

(** ** What every response looks like *)

Section Responses.

Lemma has_key_sql k v : has_key k (json_of_sql v) = false.
Proof. by destruct v. Qed.

Lemma has_key_array k {A : Type} (f : A -> json) (l : list A) :
  (forall x, has_key k (f x) = false) -> has_key k (JArr (map f l)) = false.
Proof.
  intros Hf. simpl. induction l as [|x l IH]; simpl; [done |]. by rewrite Hf, IH.
Qed.

Lemma password_not_in_listed_user u : has_key "password" (listed_user u) = false.
Proof. unfold listed_user. simpl. by rewrite !has_key_sql. Qed.

Lemma password_not_in_service s : has_key "password" (service_json s) = false.
Proof. unfold service_json. simpl. by rewrite !has_key_sql. Qed.

Lemma password_not_in_member m : has_key "password" (member_json m) = false.
Proof. unfold member_json. simpl. by rewrite !has_key_sql. Qed.

End Responses.

(** A response has a field named [password], at whatever depth, only
    when it is the 200 answer to a creation and a field of the request
    that this answer repeats has one itself: neither the login, nor the
    list of users, nor any error has it. *)
Theorem no_password_in_responses (io : option error) (r : request) (d : db)
    (status : nat) (body : json) :
  (serve io r d).2 = Responded status body ->
  has_key "password" body =
    (status =? 200)%nat &&
    existsb (fun v => has_key "password" (json_of_value v)) (echoed r).
Proof.
  destruct r; cbn [serve echoed];
    rewrite ?login_unfold, ?users_post_unfold, ?users_put_unfold, ?services_post_unfold,
      ?services_put_unfold, ?team_post_unfold, ?team_put_unfold;
    unfold users_get, users_delete, services_get, services_delete, team_get, team_delete;
    repeat match goal with
           | |- context [match ?x with _ => _ end] => destruct x; cbn [snd]
           end;
    intros [= <- <-]; try reflexivity;
    try (simpl; by rewrite ?has_key_sql);
    try (cbn [Nat.eqb existsb andb]; apply has_key_array; intros x;
         first [ apply password_not_in_listed_user
               | apply password_not_in_service
               | apply password_not_in_member ]).
Qed.

Lemma no_password_in_responses_witness :
  has_key "password"
    (JArr [JObj [("id", JNum 1); ("username", JStr "admin");
                 ("name", JStr "Administrator"); ("role", JStr "admin")]]) = false.
Proof.
  apply (no_password_in_responses None GetUsers seeded_db 200). reflexivity.
Defined.

(** The answer to a creation repeats the fields of the request as they
    came, with what is in them: here the title is an object, which gives
    the statement no value, and the description an array, which gives it
    two. *)
Example password_in_echo :
  let b : body :=
    <["title" := VObj [("password", VStr "x")]]>
      (<["description" := VArr [VStr "a"; VStr "b"]]> ∅) in
  exists body, (services_post None b seeded_db).2 = Responded 200 body /\
               has_key "password" body = true.
Proof.
  exists (JObj [("id", JNum 7); ("title", JObj [("password", JStr "x")]);
                ("description", JArr [JStr "a"; JStr "b"]); ("icon", JUndefined);
                ("file_url", JUndefined)]).
  split; reflexivity.
Qed.

(** Every request is answered with status 200, or 401 for a login, or
    400 for a user created or updated, or 500; and 500 only when the
    store fails or the values of the request do not bind to the
    statement.  The three requests that write users are always answered
    by their handler. *)
Theorem serve_statuses (io : option error) (r : request) (d : db) :
  let status := (respond io r d).1 in
  (status = 200 \/
   (status = 401 /\ exists b, r = PostLogin b) \/
   (status = 400 /\ exists b, r = PostUsers b \/ exists id, r = PutUsers id b) \/
   (status = 500 /\ (io <> None \/ binds r = false)))%nat /\
  (io = None -> binds r = true -> status <> 500%nat) /\
  (writes r = Some Users -> exists body, (serve io r d).2 = Responded status body).
Proof.
  unfold respond, binds.
  destruct r; cbn [serve writes];
    rewrite ?login_unfold, ?users_post_unfold, ?users_put_unfold, ?services_post_unfold,
      ?services_put_unfold, ?team_post_unfold, ?team_put_unfold;
    unfold users_get, users_delete, services_get, services_delete, team_get, team_delete;
    try match goal with
        | |- context [statement _ (bound ?r) _] => destruct (bound r) as [vals|e']
        end;
    destruct io as [e|]; cbn [statement run]; unfold insert_user, update_user;
    repeat match goal with
           | |- context [if ?c then _ else _] => destruct c eqn:?
           | |- context [match ?x with _ => _ end] => destruct x eqn:?
           end;
    cbn [express fst snd];
    (split_and!;
     [ first [ left; reflexivity
             | right; left; split; [reflexivity | eauto]
             | right; right; left; split; [reflexivity | eauto]
             | right; right; right; split;
               [reflexivity | first [left; discriminate | right; reflexivity]] ]
     | first [ discriminate | intros _ _; discriminate | intros _; discriminate ]
     | first [ discriminate | intros _; eexists; reflexivity ] ]).
Qed.

Lemma serve_statuses_witness :
  (respond None (PostLogin (boolean_password "admin")) seeded_db).1 = 500%nat /\
  (respond None (PostLogin (credentials_body "admin" "x")) seeded_db).1 <> 500%nat /\
  exists body,
    (serve (Some io_error) (DeleteUsers (Some 1%Z)) seeded_db).2 = Responded 500 body.
Proof.
  split_and!.
  - reflexivity.
  - apply (serve_statuses None (PostLogin (credentials_body "admin" "x")) seeded_db);
      reflexivity.
  - apply (serve_statuses (Some io_error) (DeleteUsers (Some 1%Z)) seeded_db).
    reflexivity.
Defined.

(** ** Deleting the administrator *)

(** Nothing stops the deletion of the ['admin'] user, and the next
    start-up then brings an administrator back: a new last row with the
    fixed password, name and role, under an id the deleted one never
    had. *)
Theorem restart_after_admin_deleted (d : db) (u : user) :
  unique_usernames d -> sequenced (users d) ->
  u ∈ rows (users d) -> username u = Some "admin" ->
  let d1 := (users_delete None (Some (u_id u)) d).1 in
  users_delete None (Some (u_id u)) d = (d1, Responded 200 success) /\
  admins d1 = [] /\
  exists d2, seed d1 = Ok d2 /\
    rows (users d2) =
      rows (users d1) ++
        [ {| u_id := next_rowid (users d1); username := Some "admin";
             password := Some "123456"; name := Some "Administrator";
             role := Some "admin" |} ] /\
    (u_id u < next_rowid (users d1))%Z.
Proof.
  intros Huniq Hseq Hin Hname d1.
  assert (Hnone : admins d1 = []).
  { unfold admins. apply find_none_filter, find_all_false. intros v Hv.
    unfold d1, users_delete in Hv. cbn [run fst set_users users] in Hv.
    apply (delete_where_rows (fun r => id_matches (Some (u_id u)) (u_id r))) in Hv
      as [Hv Hid].
    destruct (is_admin v) eqn:Ha; [| done]. apply is_admin_true in Ha.
    rewrite (unique_username_same_row _ _ _ "admin" Huniq Hv Hin Ha Hname) in Hid.
    simpl in Hid. by rewrite Z.eqb_refl in Hid. }
  split; [done |]. split; [exact Hnone |].
  destruct (seed_admin_total d1) as (d0 & Hadmin & _ & _ & Hcases).
  exists (seed_team (seed_services d0)). unfold seed. rewrite Hadmin.
  split; [done |]. rewrite seed_team_users, seed_services_users.
  destruct Hcases as [[_ Hrows] | [Hsome _]]; [| by destruct Hsome].
  split; [exact Hrows |].
  specialize (Hseq u Hin). change (rowid u) with (u_id u) in Hseq.
  unfold next_rowid. change (seq (users d1)) with (seq (users d)).
  generalize (max_rowid (rows (users d1))). intros m. lia.
Qed.

Lemma restart_after_admin_deleted_witness :
  let d1 := (users_delete None (Some 1%Z) two_users_db).1 in
  exists d2, seed d1 = Ok d2 /\
    rows (users d2) =
      [editor_row;
       {| u_id := 3; username := Some "admin"; password := Some "123456";
          name := Some "Administrator"; role := Some "admin" |}].
Proof.
  intros d1.
  destruct (restart_after_admin_deleted two_users_db admin_row)
    as (_ & _ & d2 & Hseed & Hrows & _).
  - unfold unique_usernames. decide_names.
  - intros r Hr. apply list_elem_of_In in Hr.
    destruct Hr as [<- | [<- | []]]; vm_compute; discriminate.
  - apply list_elem_of_here.
  - reflexivity.
  - exists d2. split; [exact Hseed | exact Hrows].
Defined.

(** ** Names of uploaded files *)

Section FilenameFacts.

Lemma append_length (a b : string) :
  String.length (a +:+ b) = (String.length a + String.length b)%nat.
Proof. induction a as [|c a IH]; simpl; [done | by rewrite IH]. Qed.

Lemma append_cancel_r (a b e : string) : a +:+ e = b +:+ e -> a = b.
Proof.
  revert b. induction a as [|c a IH]; intros [|c' b] H.
  - done.
  - apply (f_equal String.length) in H. rewrite !append_length in H. simpl in H. lia.
  - apply (f_equal String.length) in H. rewrite !append_length in H. simpl in H. lia.
  - simpl in H. injection H as -> H. f_equal. by apply IH.
Qed.

(** Two runs of digits, each followed by a dash, agree when the whole
    strings agree. *)
Lemma split_at_dash (s1 s2 t1 t2 : string) :
  forallb is_digit (list_ascii_of_string s1) = true ->
  forallb is_digit (list_ascii_of_string s2) = true ->
  s1 +:+ String "-" t1 = s2 +:+ String "-" t2 -> s1 = s2 /\ t1 = t2.
Proof.
  revert s2. induction s1 as [|c s1 IH]; intros [|c' s2] H1 H2 H; simpl in *.
  - by injection H as ->.
  - injection H as <- _. discriminate H2.
  - injection H as -> _. discriminate H1.
  - injection H as -> H.
    apply andb_true_iff in H1 as [_ H1]. apply andb_true_iff in H2 as [_ H2].
    destruct (IH s2 H1 H2 H) as [-> ->]. done.
Qed.

Lemma decimal_inj (n m : Z) : (0 <= n)%Z -> (0 <= m)%Z -> decimal n = decimal m -> n = m.
Proof.
  intros Hn Hm H. unfold decimal in H.
  assert (Hparse : forall z, (0 <= z)%Z ->
            NilZero.int_of_string (NilZero.string_of_int (Z.to_int z)) = Some (Z.to_int z)).
  { intros z Hz. apply NilZero.isi.
    - destruct z as [|p|p]; simpl; [discriminate | | lia].
      intros [= Hp]. by apply (DecimalPos.Unsigned.to_uint_nonnil p).
    - destruct z as [|p|p]; simpl; [discriminate | discriminate | lia]. }
  pose proof (Hparse n Hn) as Pn. pose proof (Hparse m Hm) as Pm.
  rewrite H, Pm in Pn. injection Pn as Pn.
  rewrite <- (DecimalZ.of_to n), <- (DecimalZ.of_to m). by rewrite Pn.
Qed.

End FilenameFacts.

(** Two uploads of files with the same extension get the same file name
    only if they happen at the same millisecond and draw the same random
    integer; nothing else tells them apart, and the directory is not
    consulted. *)
Theorem filename_collision (extname : string -> string) (now now' rnd rnd' : Z)
    (o o' : string) :
  (0 <= now)%Z -> (0 <= now')%Z -> (0 <= rnd)%Z -> (0 <= rnd')%Z ->
  extname o = extname o' ->
  (filename extname now rnd o = filename extname now' rnd' o' <->
   now = now' /\ rnd = rnd').
Proof.
  intros Hn Hn' Hr Hr' Hext. split; [| by intros [-> ->]; unfold filename; rewrite Hext].
  unfold filename. rewrite Hext. intros H. apply append_cancel_r in H.
  change (decimal now +:+ String "-" (decimal rnd) =
          decimal now' +:+ String "-" (decimal rnd')) in H.
  pose proof (decimal_is_number now Hn) as Dn.
  pose proof (decimal_is_number now' Hn') as Dn'.
  unfold is_number in Dn, Dn'.
  apply andb_true_iff in Dn as [_ Dn]. apply andb_true_iff in Dn' as [_ Dn'].
  destruct (split_at_dash _ _ _ _ Dn Dn' H) as [H1 H2].
  split; by apply decimal_inj.
Qed.

Lemma filename_collision_witness :
  filename (fun _ => ".png") 1700000000000 42 "a.png" <>
  filename (fun _ => ".png") 1700000000000 43 "b.png".
Proof.
  intros H.
  apply (filename_collision (fun _ => ".png") 1700000000000 1700000000000 42 43
           "a.png" "b.png") in H; [| lia | lia | lia | lia | reflexivity].
  destruct H as [_ H]. discriminate H.
Defined.

(** ** Users that cannot log in, and usernames that are taken *)

Section UsersEdge.

Lemma find_app_last {A : Type} (p : A -> bool) (l : list A) (x : A) :
  p x = false -> find p (l ++ [x]) = find p l.
Proof.
  intros Hx. induction l as [|y l IH]; simpl; [by rewrite Hx |].
  by destruct (p y).
Qed.

Lemma credentials_null un pw u :
  username u = None \/ password u = None -> credentials un pw u = false.
Proof.
  unfold credentials. intros [-> | ->]; simpl; [done |].
  by rewrite andb_false_r.
Qed.

End UsersEdge.

(** A user created without a username, or with a username that is no
    array and no object and without a password, is stored but can never
    log in: after the creation every login request gets the answer it got
    before. *)
Theorem users_post_without_credentials (d d' : db) (b : body) (body : json) :
  nullish (field b "username") = true \/
  (scalar (field b "username") = true /\ nullish (field b "password") = true) ->
  users_post None b d = (d', Responded 200 body) ->
  length (rows (users d')) = S (length (rows (users d))) /\
  (forall b', (login None b' d').2 = (login None b' d).2).
Proof.
  intros Hnull. rewrite users_post_unfold.
  destruct (bound (PostUsers b)) as [vals|e] eqn:Hb; cbn [statement run];
    [| destruct (is_unique_violation e); discriminate].
  assert (Hvals : param vals 0 = None \/ param vals 1 = None).
  { destruct Hnull as [Hu | [Hu Hp]].
    - left. destruct (nullish_plain _ Hu) as [Hpl Hnone].
      destruct (bind_first _ _ _ _ _ (plain_scalar _ Hpl) Hb) as (_ & rest & ->).
      exact Hnone.
    - right. destruct (nullish_plain _ Hp) as [Hpl Hnone].
      destruct (bind_second _ _ _ _ _ _ Hu (plain_scalar _ Hpl) Hb) as (_ & _ & rest & ->).
      exact Hnone. }
  unfold insert_user. destruct (taken _ _ _); [simpl; discriminate |].
  unfold insert. intros [= <- _]. cbn [set_users users rows]. split.
  - rewrite length_app. simpl. lia.
  - intros b'. rewrite !login_unfold.
    destruct (bound (PostLogin b')) as [vals'|e']; cbn [statement run set_users users rows];
      [| done].
    rewrite find_app_last; [by destruct (find _ _) |].
    apply credentials_null. simpl. exact Hvals.
Qed.

Lemma users_post_without_credentials_witness :
  let b : body := <["username" := VStr "carol"]> ∅ in
  let d' := (users_post None b seeded_db).1 in
  length (rows (users d')) = 2%nat /\
  (login None (credentials_body "carol" "") d').2 =
    Responded 401 (failure "Invalid credentials").
Proof.
  intros b d'.
  destruct (users_post_without_credentials seeded_db d' b
              (JObj [("id", JNum 2); ("username", JStr "carol");
                     ("name", JUndefined); ("role", JStr "editor")]))
    as [Hlen Hlogin].
  - right. split; reflexivity.
  - reflexivity.
  - split; [exact Hlen |]. rewrite Hlogin. reflexivity.
Defined.

(** An update whose values bind to the statement and that gives a user
    the username of another user is refused with 400 and changes nothing,
    while one that keeps the user's own username goes through; an update
    whose values do not bind is answered with the 500 error of the
    handler. *)
Theorem users_put_username_taken (d : db) (b : body) (u : user) (un : string) :
  u ∈ rows (users d) -> field b "username" = VStr un ->
  (binds (PutUsers (Some (u_id u)) b) = true ->
     ((exists v, v ∈ rows (users d) /\ u_id v <> u_id u /\ username v = Some un) ->
        users_put None (Some (u_id u)) b d =
          (d, Responded 400 (failure "Username already exists"))) /\
     (constraints d -> username u = Some un ->
        (users_put None (Some (u_id u)) b d).2 = Responded 200 success)) /\
  (binds (PutUsers (Some (u_id u)) b) = false ->
     users_put None (Some (u_id u)) b d =
       (d, Responded 500 (failure "Failed to update user"))).
Proof.
  intros Hin Hun. split; [| apply users_put_unbound].
  intros Hbinds. split.
  - intros (v & Hv & Hid & Hvn).
    apply (users_put_duplicate d (Some (u_id u)) b u v un); try done.
    + simpl. apply Z.eqb_refl.
    + simpl. apply Z.eqb_neq. congruence.
  - intros [Hpk Huniq] Hown.
    destruct (users_put_cases None (Some (u_id u)) b d)
      as [[e He] | (_ & vals & _ & _ & ->)]; [| done].
    exfalso. revert He. apply binds_true in Hbinds as [vals Hvals].
    rewrite users_put_unfold, Hvals. cbn [statement run]. unfold update_user.
    rewrite (bound_put_username _ b vals) by (by rewrite ?Hun). rewrite Hun.
    cbn [plain_text id_matches].
    replace (taken (Some un) (fun r => (u_id u =? u_id r)%Z) (rows (users d)))
      with false; [rewrite andb_false_r; intros He; by destruct (is_unique_violation e) |].
    symmetry. apply existsb_none. intros v Hv.
    destruct (sql_eq (username v) (Some un)) eqn:Heq; [| by rewrite andb_false_r].
    apply sql_eq_true in Heq as (s & Hs & [= <-]).
    rewrite (unique_username_same_row _ _ _ un Huniq Hv Hin Hs Hown).
    by rewrite Z.eqb_refl.
Qed.

Lemma users_put_username_taken_witness :
  users_put None (Some 2%Z) (profile_body "admin" "Bob" "editor") two_users_db =
    (two_users_db, Responded 400 (failure "Username already exists")) /\
  (users_put None (Some 2%Z) (profile_body "bob" "Robert" "admin") two_users_db).2 =
    Responded 200 success /\
  users_put None (Some 2%Z) (boolean_password "admin") two_users_db =
    (two_users_db, Responded 500 (failure "Failed to update user")).
Proof.
  split_and!.
  - apply (users_put_username_taken two_users_db (profile_body "admin" "Bob" "editor")
             editor_row "admin").
    + apply list_elem_of_further, list_elem_of_here.
    + reflexivity.
    + reflexivity.
    + exists admin_row. split_and!; [apply list_elem_of_here | discriminate | reflexivity].
  - apply (users_put_username_taken two_users_db (profile_body "bob" "Robert" "admin")
             editor_row "bob").
    + apply list_elem_of_further, list_elem_of_here.
    + reflexivity.
    + reflexivity.
    + split; [unfold primary_key | unfold unique_usernames]; decide_names.
    + reflexivity.
  - apply (users_put_username_taken two_users_db (boolean_password "admin")
             editor_row "admin").
    + apply list_elem_of_further, list_elem_of_here.
    + reflexivity.
    + reflexivity.
Defined.

(** ** The order of the rows *)

Section Order.

Lemma sorted_snoc (l : list Z) (y : Z) :
  StronglySorted Z.lt l -> (forall x, x ∈ l -> (x < y)%Z) ->
  StronglySorted Z.lt (l ++ [y]).
Proof.
  induction l as [|x l IH]; intros Hs Hlt; simpl.
  - repeat constructor.
  - apply StronglySorted_inv in Hs as [Hs Hx]. constructor.
    + apply IH; [done |]. intros z Hz. apply Hlt. by apply list_elem_of_further.
    + apply Forall_app. split; [done |]. constructor; [| done].
      apply Hlt. apply list_elem_of_here.
Qed.

Lemma insert_ascending {R : Type} `{Row R} (mk : Z -> R) (t : table R) :
  (forall i, rowid (mk i) = i) -> sequenced t -> ascending t ->
  ascending (insert mk t).2.
Proof.
  intros Hmk Hseq Hasc. unfold ascending, insert. cbn [snd rows].
  rewrite map_app. cbn [map]. rewrite Hmk. apply sorted_snoc; [done |].
  intros x Hx. apply list_elem_of_In, in_map_iff in Hx as (r & <- & Hr).
  apply list_elem_of_In in Hr. by apply next_rowid_above.
Qed.

Lemma update_ascending {R : Type} `{Row R} (c : R -> bool) (f : R -> R) (t : table R) :
  (forall r, rowid (f r) = rowid r) -> ascending t -> ascending (update_where c f t).
Proof.
  intros Hf Hasc. unfold ascending, update_where. cbn [rows].
  rewrite map_map. erewrite map_ext; [exact Hasc |].
  intros r. simpl. destruct (c r); [by rewrite Hf | done].
Qed.

Lemma delete_ascending {R : Type} `{Row R} (c : R -> bool) (t : table R) :
  ascending t -> ascending (delete_where c t).
Proof.
  unfold ascending, delete_where. cbn [rows].
  induction (rows t) as [|r l IH]; simpl; [done |]. intros Hs.
  apply StronglySorted_inv in Hs as [Hs Hr]. specialize (IH Hs).
  destruct (c r); simpl; [done |]. constructor; [done |].
  apply Forall_forall. intros x Hx.
  apply list_elem_of_In, in_map_iff in Hx as (v & <- & Hv). apply filter_In in Hv as [Hv _].
  rewrite Forall_forall in Hr. apply Hr. apply list_elem_of_In, in_map. exact Hv.
Qed.

Lemma insert_list_ascending {R S : Type} `{Row R} (mk : S -> Z -> R) (l : list S)
    (t : table R) :
  (forall s i, rowid (mk s i) = i) -> sequenced t -> ascending t ->
  ascending (foldl (fun t s => snd (insert (mk s) t)) t l).
Proof.
  intros Hmk. revert t. induction l as [|s l IH]; intros t Hseq Hasc; simpl; [done |].
  apply IH.
  - apply (insert_follows (mk s) t (Hmk s) Hseq).
  - by apply (insert_ascending (mk s) t (Hmk s)).
Qed.

Lemma effect_ascending d d' :
  db_sequenced d -> db_ascending d -> effect d d' -> db_ascending d'.
Proof.
  intros (Hu & Hs & Ht) Hasc Heff. pose proof Hasc as (Au & As & At).
  destruct Heff as [|vals i t Hins|id wp vals t Hup|id|vals|id vals|id|vals|id vals|id];
    [done | ..]; unfold db_ascending;
    cbn [users services team set_users set_services set_team].
  - unfold insert_user in Hins. destruct (taken _ _ _); [discriminate |].
    injection Hins as _ <-.
    split_and!; [| done ..].
    by apply (insert_ascending
                (fun i => {| u_id := i; username := param vals 0;
                             password := param vals 1; name := param vals 2;
                             role := param vals 3 |})
                (users d)).
  - unfold update_user in Hup. destruct (_ && _); [discriminate |].
    injection Hup as <-.
    split_and!; [| done ..].
    apply (update_ascending _ _ (users d)); [| done]. apply put_row_id.
  - split_and!; [| done ..]. by apply (delete_ascending _ (users d)).
  - split_and!; [done | | done].
    by apply (insert_ascending
                (fun i => {| s_id := i; title := param vals 0;
                             description := param vals 1; icon := param vals 2;
                             file_url := param vals 3 |})
                (services d)).
  - split_and!; [done | | done]. by apply (update_ascending _ _ (services d)).
  - split_and!; [done | | done]. by apply (delete_ascending _ (services d)).
  - split_and!; [done .. |].
    by apply (insert_ascending
                (fun i => {| m_id := i; m_name := param vals 0;
                             m_title := param vals 1; image := param vals 2;
                             m_icon := param vals 3 |})
                (team d)).
  - split_and!; [done .. |]. by apply (update_ascending _ _ (team d)).
  - split_and!; [done .. |]. by apply (delete_ascending _ (team d)).
Qed.

Lemma serve_ascending io r d :
  db_sequenced d -> db_ascending d -> db_ascending (serve io r d).1.
Proof. intros Hseq Hasc. apply (effect_ascending d); [done | done | apply serve_effect]. Qed.

Lemma seed_ascending d d' :
  db_sequenced d -> db_ascending d -> seed d = Ok d' -> db_ascending d'.
Proof.
  intros (Hu & Hs & Ht) (Au & As & At). unfold seed.
  destruct (seed_admin d) as [d0|] eqn:Hadmin; [| discriminate]. intros [= <-].
  destruct (seed_admin_total d) as (d0' & Hadmin' & Hserv & Hteam & _).
  rewrite Hadmin in Hadmin'. injection Hadmin' as <-.
  split_and!.
  - rewrite seed_team_users, seed_services_users.
    unfold seed_admin in Hadmin. destruct (find is_admin _).
    + injection Hadmin as <-. by apply (update_ascending _ _ (users d)).
    + unfold insert_user in Hadmin. destruct (taken _ _ _); [discriminate |].
      injection Hadmin as <-.
      by apply (insert_ascending
                  (fun i => {| u_id := i; username := Some "admin";
                               password := Some "123456";
                               name := Some "Administrator"; role := Some "admin" |})
                  (users d)).
  - rewrite seed_team_services. unfold seed_services. rewrite Hserv.
    destruct (Z.eqb _ _); cbn [services set_services]; rewrite ?Hserv; [| done].
    by apply (insert_list_ascending seeded_service).
  - unfold seed_team. rewrite seed_services_team, Hteam.
    destruct (Z.eqb _ _); cbn [team set_team]; rewrite ?seed_services_team, ?Hteam;
      [| done].
    by apply (insert_list_ascending seeded_member).
Qed.

Lemma step_ordered d e :
  db_sequenced d /\ db_ascending d -> db_sequenced (step d e) /\ db_ascending (step d e).
Proof.
  intros [Hseq Hasc]. split.
  - apply (db_follows_sequenced d). by apply step_follows.
  - destruct e as [io r|]; simpl.
    + by apply serve_ascending.
    + destruct (seed d) as [d'|] eqn:Hseed; [| done]. by apply (seed_ascending d).
Qed.

Lemma empty_ascending : db_ascending empty_db.
Proof. split_and!; constructor. Qed.

End Order.

(** The rows of each collection stay in the order of their ids, the ids
    all different, whatever is served and however often the server
    restarts; so every listing comes in the order of creation. *)
Theorem history_ascending (l : list event) (d : db) :
  db_sequenced d -> db_ascending d ->
  let d' := history l d in
  StronglySorted Z.lt (map u_id (rows (users d'))) /\
  StronglySorted Z.lt (map s_id (rows (services d'))) /\
  StronglySorted Z.lt (map m_id (rows (team d'))).
Proof.
  intros Hseq Hasc. simpl.
  assert (H : db_sequenced (history l d) /\ db_ascending (history l d)).
  { unfold history. revert d Hseq Hasc.
    induction l as [|e l IH]; intros d Hseq Hasc; simpl; [done |].
    destruct (step_ordered d e (conj Hseq Hasc)) as [Hseq' Hasc']. by apply IH. }
  exact (proj2 H).
Qed.

Lemma history_ascending_witness :
  let d' := history [Restart; Serve None (DeleteServices (Some 2%Z));
                     Serve None (PostServices (service_body "Thuế" "Tư vấn thuế" "Scale"))]
              empty_db in
  map s_id (rows (services d')) = [1; 3; 4; 5; 6; 7]%Z /\
  StronglySorted Z.lt (map s_id (rows (services d'))).
Proof.
  intros d'. split; [reflexivity |].
  apply (history_ascending _ empty_db empty_sequenced empty_ascending).
Defined.
